(** * Zowe Chat: message matching, dispatch and plugin loading

    A shallow embedding of
      - [packages/chat/src/listeners/BotMessageListener.ts]
        (listener registry, [matchMessage], [processMessage]) and
      - the [ChatBot] class (constructor, [setBotListeners], [loadPlugins],
        [readYamlFile]), which the sources at hand carry at the end of
        [packages/chat/src/config/doc/IConfigBlockDefinition.ts] and whose
        line numbers below are those of that file,
    followed by the properties of the dispatch pipeline.  After these come
    [ChatBot.generateBotOpts] and the sign-in provider of the web interface
    ([packages/chat-react-ui/src/auth/api/auth.ts]), each in a module of its
    own.

    JavaScript objects that the code only copies or reads are modelled as
    values.  The one object that is handed around by reference and matters
    for aliasing, the plugin descriptor ([IChatPlugin]), lives in a store
    and is referred to by address.  Calls into code outside the two files
    (plugin listeners, the chat transport, the security manager, the file
    system) are calls to a [Host] that may change the state of the outside
    world and may raise; every such call is recorded in a trace. *)

From Stdlib Require Import ZArith String Ascii List Lia Permutation Sorted DecimalString.
From stdpp Require Import base list strings gmap.

Local Open Scope Z_scope.

(** ** Strings and arrays of the JavaScript runtime *)

Module Js.

(** [s.indexOf(sub)]: position of the first occurrence, [-1] when absent. *)
Definition indexOf (s sub : string) : Z :=
  match String.index 0 sub s with
  | Some n => Z.of_nat n
  | None => -1
  end.

(** [String(i)] for an array index. *)
Definition toString (i : nat) : string :=
  NilZero.string_of_uint (Nat.to_uint i).

(** [s.endsWith(suffix)]. *)
Definition endsWith (s suffix : string) : bool :=
  let n := String.length s in
  let m := String.length suffix in
  if (m <=? n)%nat then String.eqb (String.substring (n - m) m s) suffix
  else false.

(** [s.split(sep)] for a one-character separator. *)
Fixpoint split (sep : ascii) (s : string) : list string :=
  match s with
  | EmptyString => [EmptyString]
  | String c rest =>
      if Ascii.eqb c sep then EmptyString :: split sep rest
      else match split sep rest with
           | [] => [String c EmptyString]
           | w :: ws => String c w :: ws
           end
  end.

(** [Array.prototype.sort(compareFn)].  ECMAScript (2019 and later) requires
    the sort to be stable: [x] is moved in front of [y] only when
    [compareFn(y, x) > 0] fails to keep them, that is, elements that compare
    equal keep their order.  Insertion from the right realises this. *)
Section Sort.
Context {A : Type} (compareFn : A -> A -> Z).

Fixpoint sort_insert (x : A) (l : list A) : list A :=
  match l with
  | [] => [x]
  | y :: t => if compareFn y x <? 0 then y :: sort_insert x t else x :: y :: t
  end.

Fixpoint sort (l : list A) : list A :=
  match l with
  | [] => []
  | x :: t => sort_insert x (sort t)
  end.

End Sort.

End Js.

(** ** Data model *)

(** [IChatPlugin] (one entry of plugin.yaml). *)
Record IChatPlugin := mkPlugin {
  package : string;
  registry : string;
  version : Z;
  priority : Z;
  listeners : list string
}.

(** Address of a plugin descriptor object in the store. *)
Definition PluginRef := nat.

(** A descriptor as seen from an object that holds it: either the shared
    object in the store, or a private copy owned by the holder (what a deep
    clone leaves in place of a reference). *)
Inductive PluginHandle :=
| Shared (r : PluginRef)
| Copy (p : IChatPlugin).

Inductive IChatListenerType := LT_MESSAGE | LT_EVENT.

(** A listener object, identified by the expression that constructed it. *)
Inductive ListenerInstance :=
| LogoutMessageListener
| PluginListener (pluginPath listenerName : string).

Record IChatListenerRegistryEntry := mkEntry {
  listenerName : string;
  listenerType : IChatListenerType;
  listenerInstance : ListenerInstance;
  chatPlugin : PluginHandle
}.

Inductive IPayloadType := PT_MESSAGE | PT_EVENT.

Record IPayload := mkPayload {
  payload_type : IPayloadType;
  payload_data : string
}.

Record IUser := mkUser {
  user_id : string;
  user_name : string
}.

(** [context.chatting]: what the transport knows about the conversation. *)
Record IChattingContext := mkChatting {
  chatting_user : IUser;
  chatting_channel : string
}.

(** [context]: the conversation a message belongs to. *)
Record IChatContext := mkChatContext {
  chatting : IChattingContext
}.

(** [extraData] is an untyped object.  The pipeline uses the keys
    [chatPlugin], [listeners] and [contexts]; every other key belongs to the
    transport or to a plugin. *)
Record ExtraData (Ctx : Type) := mkExtra {
  extra_chatPlugin : option PluginHandle;
  extra_listeners : option (list IChatListenerRegistryEntry);
  extra_contexts : option (list Ctx);
  extra_custom : gmap string string
}.
Arguments mkExtra {Ctx}.
Arguments extra_chatPlugin {Ctx}.
Arguments extra_listeners {Ctx}.
Arguments extra_contexts {Ctx}.
Arguments extra_custom {Ctx}.

(** [IChatContextData]; [extraData = None] stands for undefined or null. *)
#[warnings="-register-all"] Inductive IChatContextData := mkContext {
  payload : IPayload;
  context : IChatContext;
  extraData : option (ExtraData IChatContextData)
}.

Inductive IMessageType := PLAIN_TEXT | OTHER_MESSAGE_TYPE (tag : string).

Record IMessage := mkMessage {
  msg_type : IMessageType;
  msg_text : string
}.

Inductive IChatToolType := MATTERMOST | MSTEAMS | SLACK.

Record AppConfig := mkConfig {
  chatToolType : IChatToolType;
  pluginLimit : Z;
  mattermost_botUserName : string;
  msteams_botUserName : string;
  slack_botUserName : string
}.

(** ** The store of plugin descriptors and deep cloning *)

(** Descriptor objects by address.  Addresses are handed out in allocation
    order, so a store is a list and an address an index. *)
Definition DescriptorStore := list IChatPlugin.

Definition alloc (h : DescriptorStore) (p : IChatPlugin) : PluginRef * DescriptorStore :=
  (length h, h ++ [p]).

#[global] Instance IChatPlugin_inhabited : Inhabited IChatPlugin :=
  populate (mkPlugin EmptyString EmptyString 0 0 []).

(** Reading through a handle.  No reference dangles in a running program;
    the default descriptor is only there to make the function total. *)
Definition deref (h : DescriptorStore) (p : PluginHandle) : IChatPlugin :=
  match p with
  | Shared r => h !!! r
  | Copy d => d
  end.

Definition cloneHandle (h : DescriptorStore) (p : PluginHandle) : PluginHandle :=
  Copy (deref h p).

Definition cloneEntry (h : DescriptorStore) (e : IChatListenerRegistryEntry)
  : IChatListenerRegistryEntry :=
  mkEntry (listenerName e) (listenerType e) (listenerInstance e)
          (cloneHandle h (chatPlugin e)).

(** [_.cloneDeep(value)] (lodash) on the data that a context is made of
    here: texts, numbers, records and lists, which lodash copies.  Values
    are copied as they are; every reference to a stored descriptor becomes a
    private copy of that descriptor.  What lodash does not copy (a function,
    an Error object or a WeakMap inside the value is handed over by
    reference) is not among the data of a context here, and neither is the
    bot object under [context.chatting.bot]. *)
Fixpoint cloneDeep (h : DescriptorStore) (c : IChatContextData) : IChatContextData :=
  match c with
  | mkContext p k None => mkContext p k None
  | mkContext p k (Some (mkExtra pl ls cs cu)) =>
      mkContext p k
        (Some (mkExtra
                 (option_map (cloneHandle h) pl)
                 (option_map (List.map (cloneEntry h)) ls)
                 (match cs with
                  | None => None
                  | Some l => Some (List.map (cloneDeep h) l)
                  end)
                 cu))
  end.

(** ** Effects: exceptions, the outside world and the trace *)

Inductive JsError :=
| TypeError (msg : string)
| Error (msg : string).

Inductive Outcome (A : Type) :=
| Returned (a : A)
| Thrown (e : JsError).
Arguments Returned {A}.
Arguments Thrown {A}.

Definition is_thrown {A} (o : Outcome A) : bool :=
  match o with
  | Thrown _ => true
  | Returned _ => false
  end.

(** What [yaml.load] can hand back for plugin.yaml: the list of plugins, or
    something that is no array: [undefined] (an empty file), [null], or any
    other value (a text, a number, a mapping). *)
Inductive YamlValue :=
| YamlPlugins (l : list IChatPlugin)
| YamlUndefined
| YamlNull
| YamlNotAnArray.

(** How the creation of the capabilities in the [ChatBot] constructor ends:
    done, with an exception, or in [process.exit(code)] ([generateBotOpts]
    leaves with 4 or 5). *)
Inductive InitOutcome :=
| InitDone
| InitThrew (e : JsError)
| InitExited (code : Z).

Inductive LogLevel := LStart | LEnd | LSilly | LDebug | LInfo | LError | LConsole.

(** The pieces of a log line (a template string with its holes). *)
Inductive LogPart :=
| Str (s : string)
| Quoted (s : string)
| Num (z : Z)
| Err (e : JsError)
| ListenerKind (t : IChatListenerType)
| PayloadKind (t : IPayloadType)
| Entries (l : list IChatListenerRegistryEntry)
| Messages (l : list IMessage)
| Plugins (l : list IChatPlugin).

(** One observable step: a log line or a call that leaves the two files,
    with what the call returned. *)
Inductive Event :=
| Log (level : LogLevel) (text : list LogPart)
| CallMatchMessage (listener : IChatListenerRegistryEntry) (arg : IChatContextData)
                   (res : Outcome (bool * IChatContextData))
| CallProcessMessage (listener : IChatListenerRegistryEntry) (arg : option IChatContextData)
                     (res : Outcome (list IMessage * option IChatContextData))
| CallSend (target : option IChatContextData) (msgs : list IMessage) (res : Outcome unit)
| CallIsAuthenticated (arg : IChatContextData) (res : bool)
| CallGenerateChallenge (user : IUser) (url : string)
| CallGetPrincipal (arg : IChatContextData) (res : Outcome unit)
| CallRequire (path : string) (res : Outcome unit)
| CallNew (inst : ListenerInstance) (res : Outcome unit)
| CallInit (res : InitOutcome).

(** The collaborators of the two files.  [W] is the state of everything
    outside them.  Listeners and the transport may read the descriptor store;
    a listener's [matchMessage] and [processMessage] return the context they
    were given as they leave it.  A listener that writes to the descriptor it
    finds in its context is not among the collaborators described: what such
    a write shows through the other contexts is told apart from a run, with
    [writePlugin].  Every call returns or raises; one that never answers is
    not described either. *)
Record Host (W : Type) := mkHost {
  listener_matchMessage :
    DescriptorStore -> ListenerInstance -> IChatContextData -> W ->
    Outcome (bool * IChatContextData) * W;
  listener_processMessage :
    DescriptorStore -> ListenerInstance -> option IChatContextData -> W ->
    Outcome (list IMessage * option IChatContextData) * W;
  bot_send : option IChatContextData -> list IMessage -> W -> Outcome unit * W;
  security_isAuthenticated : IChatContextData -> W -> bool * W;
  security_getPrincipal : IChatContextData -> W -> Outcome unit * W;
  webapp_generateChallenge : IUser -> W -> string * W;
  init_capabilities : AppConfig -> W -> InitOutcome * W;
  fs_existsSync : string -> W -> bool;
  yaml_load : string -> W -> Outcome YamlValue;
  Util_getPackageName : string -> W -> Outcome string;
  node_require : string -> W -> Outcome unit * W;
  node_new : ListenerInstance -> W -> Outcome unit * W;
  path_sep : string;
  dirname : string;
  ZOWE_CHAT_PLUGINS_DIR : string
}.
Arguments listener_matchMessage {W}.
Arguments listener_processMessage {W}.
Arguments bot_send {W}.
Arguments security_isAuthenticated {W}.
Arguments security_getPrincipal {W}.
Arguments webapp_generateChallenge {W}.
Arguments init_capabilities {W}.
Arguments fs_existsSync {W}.
Arguments yaml_load {W}.
Arguments Util_getPackageName {W}.
Arguments node_require {W}.
Arguments node_new {W}.
Arguments path_sep {W}.
Arguments dirname {W}.
Arguments ZOWE_CHAT_PLUGINS_DIR {W}.

Record Sys (W : Type) := mkSys {
  store : DescriptorStore;
  world : W
}.
Arguments mkSys {W}.
Arguments store {W}.
Arguments world {W}.

(** A computation over a state [S]: may raise, changes the state, leaves a
    trace. *)
Definition M (St A : Type) : Type := St -> Outcome A * St * list Event.

Section Monad.
Context {St : Type}.

Definition ret {A} (a : A) : M St A := fun s => (Returned a, s, []).

Definition throw {A} (e : JsError) : M St A := fun s => (Thrown e, s, []).

Definition bind {A B} (m : M St A) (k : A -> M St B) : M St B := fun s =>
  match m s with
  | (Returned a, s1, t1) => let '(r, s2, t2) := k a s1 in (r, s2, t1 ++ t2)
  | (Thrown e, s1, t1) => (Thrown e, s1, t1)
  end.

(** [try { body } catch (error) { handler }] *)
Definition try_catch {A} (body : M St A) (handler : JsError -> M St A) : M St A := fun s =>
  match body s with
  | (Returned a, s1, t1) => (Returned a, s1, t1)
  | (Thrown e, s1, t1) => let '(r, s2, t2) := handler e s1 in (r, s2, t1 ++ t2)
  end.

(** [try { body } finally { fin }] *)
Definition finally {A} (body : M St A) (fin : M St unit) : M St A := fun s =>
  let '(r, s1, t1) := body s in
  match fin s1 with
  | (Returned _, s2, t2) => (r, s2, t1 ++ t2)
  | (Thrown e, s2, t2) => (Thrown e, s2, t1 ++ t2)
  end.

Definition emit (e : Event) : M St unit := fun s => (Returned tt, s, [e]).

Definition log (level : LogLevel) (text : list LogPart) : M St unit :=
  emit (Log level text).

End Monad.

Section SysOperations.
Context {W : Type}.

Definition get_store : M (Sys W) DescriptorStore := fun s => (Returned (store s), s, []).

(** A new descriptor object. *)
Definition new_descriptor (p : IChatPlugin) : M (Sys W) PluginRef := fun s =>
  let '(r, h) := alloc (store s) p in (Returned r, mkSys h (world s), []).

(** A call that may raise: the exception propagates, the event is recorded. *)
Definition call {A} (f : W -> Outcome A * W) (ev : Outcome A -> Event) : M (Sys W) A :=
  fun s => let '(r, w) := f (world s) in (r, mkSys (store s) w, [ev r]).

(** A call that always returns. *)
Definition call_total {A} (f : W -> A * W) (ev : A -> Event) : M (Sys W) A :=
  fun s => let '(a, w) := f (world s) in (Returned a, mkSys (store s) w, [ev a]).

(** Reading the outside world without changing it. *)
Definition read {A} (f : W -> Outcome A) : M (Sys W) A := fun s => (f (world s), s, []).

Definition read_total {A} (f : W -> A) : M (Sys W) A :=
  fun s => (Returned (f (world s)), s, []).

End SysOperations.

Declare Scope js_scope.
Delimit Scope js_scope with js.
Notation "'let*' x ':=' m 'in' k" := (bind m (fun x => k))
  (at level 10, x pattern, m at level 100, k at level 200) : js_scope.
Notation "m ;; k" := (bind m (fun _ => k))
  (at level 100, k at level 200, right associativity) : js_scope.
Local Open Scope js_scope.

(** ** BotMessageListener.ts *)

Record BotMessageListener := mkBotMessageListener {
  chatListeners : list IChatListenerRegistryEntry;
  botName : string;
  config : AppConfig
}.

(** [constructor(config, securityFac, webapp, log)] *)
Definition BotMessageListener_new (config : AppConfig) : BotMessageListener :=
  mkBotMessageListener
    []
    (match chatToolType config with
     | MATTERMOST => mattermost_botUserName config
     | MSTEAMS => msteams_botUserName config
     | SLACK => slack_botUserName config
     end)
    config.

(** Lines 93-99: [contextData.extraData.chatPlugin = listener.chatPlugin],
    creating [extraData] when the clone has none.  The right-hand side is the
    listener's descriptor itself, not a copy. *)
Definition stampPlugin (contextData : IChatContextData) (p : PluginHandle)
  : IChatContextData :=
  match extraData contextData with
  | None =>
      mkContext (payload contextData) (context contextData)
                (Some (mkExtra (Some p) None None ∅))
  | Some x =>
      mkContext (payload contextData) (context contextData)
                (Some (mkExtra (Some p) (extra_listeners x) (extra_contexts x)
                               (extra_custom x)))
  end.

(** Lines 110-118: record the listener and context pools on the inbound
    context. *)
Definition setPools (chatContextData : IChatContextData)
    (listeners : list IChatListenerRegistryEntry) (contexts : list IChatContextData)
  : IChatContextData :=
  match extraData chatContextData with
  | None =>
      mkContext (payload chatContextData) (context chatContextData)
                (Some (mkExtra None (Some listeners) (Some contexts) ∅))
  | Some x =>
      mkContext (payload chatContextData) (context chatContextData)
                (Some (mkExtra (extra_chatPlugin x) (Some listeners) (Some contexts)
                               (extra_custom x)))
  end.

(** The value a JavaScript function hands back where a boolean is declared:
    [None] is [undefined] (the function fell off its end). *)
Definition JsBoolean := option bool.

Section BotMessageListener.
Context {W : Type} (host : Host W).

Definition call_matchMessage (listener : IChatListenerRegistryEntry)
    (contextData : IChatContextData) : M (Sys W) (bool * IChatContextData) :=
  let* h := get_store in
  call (listener_matchMessage host h (listenerInstance listener) contextData)
       (CallMatchMessage listener contextData).

Definition call_processMessage (listener : IChatListenerRegistryEntry)
    (contextData : option IChatContextData)
  : M (Sys W) (list IMessage * option IChatContextData) :=
  let* h := get_store in
  call (listener_processMessage host h (listenerInstance listener) contextData)
       (CallProcessMessage listener contextData).

Definition call_send (target : option IChatContextData) (msgs : list IMessage)
  : M (Sys W) unit :=
  call (bot_send host target msgs) (CallSend target msgs).

(** [registerChatListener(listenerEntry)] *)
Definition registerChatListener (this : BotMessageListener)
    (listenerEntry : IChatListenerRegistryEntry) : M (Sys W) BotMessageListener :=
  log LStart [Str "registerChatListener"];;
  let* h := get_store in
  let plugin := deref h (chatPlugin listenerEntry) in
  log LInfo [Str "Listener: "; Str (listenerName listenerEntry);
             Str "    Type: "; ListenerKind (listenerType listenerEntry);
             Str "    Plugin: "; Str (package plugin);
             Str "    Version: "; Num (version plugin);
             Str "    Priority: "; Num (priority plugin)];;
  let this' :=
    mkBotMessageListener (chatListeners this ++ [listenerEntry])
                         (botName this) (config this) in
  log LEnd [Str "registerChatListener"];;
  ret this'.

(** [getChatListener()] *)
Definition getChatListener (this : BotMessageListener)
  : list IChatListenerRegistryEntry :=
  chatListeners this.

(** Lines 91-104: the loop over [this.chatListeners], with the two pools it
    pushes to. *)
Fixpoint findMatched (registered : list IChatListenerRegistryEntry)
    (chatContextData : IChatContextData)
    (listeners : list IChatListenerRegistryEntry) (contexts : list IChatContextData)
  : M (Sys W) (list IChatListenerRegistryEntry * list IChatContextData) :=
  match registered with
  | [] => ret (listeners, contexts)
  | listener :: rest =>
      let* h := get_store in
      let contextData := stampPlugin (cloneDeep h chatContextData) (chatPlugin listener) in
      let* (matched, contextData') := call_matchMessage listener contextData in
      if (matched : bool)
      then findMatched rest chatContextData (listeners ++ [listener])
                       (contexts ++ [contextData'])
      else findMatched rest chatContextData listeners contexts
  end.

(** [matchMessage(chatContextData)]: the value returned and the inbound
    context as the call leaves it. *)
Definition matchMessage (this : BotMessageListener) (chatContextData : IChatContextData)
  : M (Sys W) (JsBoolean * IChatContextData) :=
  log LStart [Str "matchMessage"];;
  finally
    (try_catch
       (if Js.indexOf (payload_data (payload chatContextData)) ("@" +:+ botName this)
           =? -1
        then
          log LDebug [Str "Received message is not for @"; Str (botName this);
                      Str ", ignoring."];;
          ret (Some false, chatContextData)
        else
          let* (listeners, contexts) :=
             match payload_type (payload chatContextData) with
             | PT_MESSAGE => findMatched (chatListeners this) chatContextData [] []
             | t => log LError [Str "Wrong payload type: "; PayloadKind t];;
                    ret ([], [])
             end in
          let chatContextData' := setPools chatContextData listeners contexts in
          log LInfo [Num (Z.of_nat (length listeners)); Str " of ";
                     Num (Z.of_nat (length (chatListeners this)));
                     Str " registered listeners can handle the message!"];;
          log LDebug [Str "Matched listeners:"; Entries listeners];;
          ret (Some (0 <? length listeners)%nat, chatContextData'))
       (fun error =>
          log LError [Err error];;
          ret (None, chatContextData)))
    (log LEnd [Str "matchMessage"]).

(** Line 149: [chatContextData.extraData.contexts[0]]. *)
Definition firstContext (chatContextData : IChatContextData)
  : M (Sys W) (option IChatContextData) :=
  match extraData chatContextData with
  | None => throw (TypeError "Cannot read properties of undefined (reading 'contexts')")
  | Some x =>
      match extra_contexts x with
      | None => throw (TypeError "Cannot read properties of undefined (reading '0')")
      | Some contexts => ret (contexts !! 0%nat)
      end
  end.

(** Lines 176-180: the number of listeners that will respond. *)
Definition effectiveLimit (pluginLimit : Z) (matchCount : nat) : Z :=
  if (pluginLimit <? 0) || (pluginLimit >? Z.of_nat matchCount)
  then Z.of_nat matchCount
  else pluginLimit.

(** Lines 183-191: [for (let i = 0; i < pluginLimit; i++)], with [n] the
    iterations still to run. *)
Fixpoint processLoop (n : nat) (i : nat)
    (matchedListeners : list IChatListenerRegistryEntry)
    (listenerContexts : option (list IChatContextData)) : M (Sys W) unit :=
  match n with
  | O => ret tt
  | S n' =>
      let* listener :=
        match matchedListeners !! i with
        | Some l => ret l
        | None =>
            throw (TypeError "Cannot read properties of undefined (reading 'listenerInstance')")
        end in
      let* contextData :=
        match listenerContexts with
        | Some contexts => ret (contexts !! i)
        | None =>
            throw (TypeError ("Cannot read properties of undefined (reading '"
                              +:+ Js.toString i +:+ "')"))
        end in
      let* (msgs, contextData') := call_processMessage listener contextData in
      log LDebug [Str "Message sent to channel: "; Messages msgs];;
      call_send contextData' msgs;;
      processLoop n' (S i) matchedListeners listenerContexts
  end.

(** [async processMessage(chatContextData)]: [Returned] is a resolved promise,
    [Thrown] a rejected one. *)
Definition processMessage (this : BotMessageListener) (chatContextData : IChatContextData)
  : M (Sys W) unit :=
  log LStart [Str "processMessage"];;
  let user := chatting_user (chatting (context chatContextData)) in
  let* authenticated :=
    call_total (security_isAuthenticated host chatContextData)
               (CallIsAuthenticated chatContextData) in
  if negb authenticated then
    let* redirect :=
      call_total (webapp_generateChallenge host user) (CallGenerateChallenge user) in
    log LDebug [Str "Creating challenge link "; Str redirect; Str " for user ";
                Str (user_name user)];;
    let* target := firstContext chatContextData in
    call_send target
      [mkMessage PLAIN_TEXT
         ("Hello @" +:+ user_name user
          +:+ ", you are not currently logged in to the backend system. Please visit "
          +:+ redirect +:+ " to login")];;
    log LEnd [Str "processMessage"]
  else
    finally
      (try_catch
         (call (security_getPrincipal host chatContextData)
               (CallGetPrincipal chatContextData);;
          let* x :=
            match extraData chatContextData with
            | Some x => ret x
            | None =>
                throw (TypeError "Cannot read properties of undefined (reading 'listeners')")
            end in
          let matchedListeners := extra_listeners x in
          let listenerContexts := extra_contexts x in
          let pluginLimit := pluginLimit (config this) in
          log LInfo [Str "pluginLimit: "; Num pluginLimit];;
          let* matchedListeners :=
            match matchedListeners with
            | Some l => ret l
            | None =>
                throw (TypeError "Cannot read properties of undefined (reading 'length')")
            end in
          let pluginLimit := effectiveLimit pluginLimit (length matchedListeners) in
          log LInfo [Num pluginLimit; Str " of "; Num (Z.of_nat (length matchedListeners));
                     Str " matched listeners will response to the matched message!"];;
          processLoop (Z.to_nat pluginLimit) 0 matchedListeners listenerContexts)
         (fun error => log LError [Err error]))
      (log LEnd [Str "processMessage"]).

End BotMessageListener.

(** ** The ChatBot class *)

(** Modelled from the spec: [BotEventListener] (the file is not part of the
    sources at hand).  Its registry is the event-kind twin of the message
    registry: [registerChatListener] appends unconditionally. *)
Record BotEventListener := mkBotEventListener {
  eventListeners : list IChatListenerRegistryEntry
}.

Definition BotEventListener_registerChatListener (this : BotEventListener)
    (listenerEntry : IChatListenerRegistryEntry) : BotEventListener :=
  mkBotEventListener (eventListeners this ++ [listenerEntry]).

Record ChatBot := mkChatBot {
  appConfig : AppConfig;
  pluginHome : string;
  plugins : list PluginRef;
  botMessageListener : BotMessageListener;
  botEventListener : BotEventListener
}.

(** The state a [ChatBot] method runs in: the object itself and the rest. *)
Record Process (W : Type) := mkProcess {
  self : ChatBot;
  sys : Sys W
}.
Arguments mkProcess {W}.
Arguments self {W}.
Arguments sys {W}.

(** How [new ChatBot(..)] ends. *)
Inductive Startup :=
| Running (bot : ChatBot)
| Exited (code : Z).

Section ChatBot.
Context {W : Type} (host : Host W).

Definition in_sys {A} (m : M (Sys W) A) : M (Process W) A := fun p =>
  let '(r, s, t) := m (sys p) in (r, mkProcess (self p) s, t).

Definition get_this : M (Process W) ChatBot := fun p => (Returned (self p), p, []).

Definition set_this (this : ChatBot) : M (Process W) unit := fun p =>
  (Returned tt, mkProcess this (sys p), []).

Definition set_botMessageListener (l : BotMessageListener) : M (Process W) unit :=
  let* this := get_this in
  set_this (mkChatBot (appConfig this) (pluginHome this) (plugins this) l
                      (botEventListener this)).

Definition set_botEventListener (l : BotEventListener) : M (Process W) unit :=
  let* this := get_this in
  set_this (mkChatBot (appConfig this) (pluginHome this) (plugins this)
                      (botMessageListener this) l).

Definition set_plugins (l : list PluginRef) : M (Process W) unit :=
  let* this := get_this in
  set_this (mkChatBot (appConfig this) (pluginHome this) l
                      (botMessageListener this) (botEventListener this)).

(** [this.botMessageListener.registerChatListener(entry)] *)
Definition registerMessageListener (entry : IChatListenerRegistryEntry)
  : M (Process W) unit :=
  let* this := get_this in
  let* l := in_sys (registerChatListener (botMessageListener this) entry) in
  set_botMessageListener l.

(** [this.botEventListener.registerChatListener(entry)] *)
Definition registerEventListener (entry : IChatListenerRegistryEntry)
  : M (Process W) unit :=
  let* this := get_this in
  set_botEventListener (BotEventListener_registerChatListener (botEventListener this) entry).

(** [setBotListeners()] *)
Definition setBotListeners : M (Process W) unit :=
  log LStart [Str "setBotListeners"];;
  in_sys (call (node_new host LogoutMessageListener) (CallNew LogoutMessageListener));;
  let* chatPlugin :=
    in_sys (new_descriptor (mkPlugin "chat" "local" 1 1 ["LogoutMessageListener"])) in
  registerMessageListener
    (mkEntry "LogoutListener" LT_MESSAGE LogoutMessageListener (Shared chatPlugin));;
  log LEnd [Str "setBotListeners"].

(** [readYamlFile(filePath)] *)
Definition readYamlFile (filePath : string) : M (Sys W) YamlValue :=
  let* found := read_total (fs_existsSync host filePath) in
  if negb found then
    log LInfo [Str "TBD002E: File "; Str filePath; Str " does not exist."];;
    throw (Error ("TBD002E: File " +:+ filePath +:+ " does not exist."))
  else
    try_catch
      (read (yaml_load host filePath))
      (fun err =>
         log LInfo [Str "TBD003E: Error parsing the content for file "; Str filePath;
                    Str ". Please make sure the file is valid YAML."];;
         log LInfo [Err err];;
         throw (Error ("TBD003E: Error parsing the content for file " +:+ filePath
                       +:+ ". Please make sure the file is valid YAML."))).

(** The descriptor objects of a freshly parsed manifest, in manifest order. *)
Definition new_descriptors (l : list IChatPlugin) : M (Sys W) (list PluginRef) := fun s =>
  (Returned (seq (length (store s)) (length l)), mkSys (store s ++ l) (world s), []).

(** Lines 298-327: create and register the listeners of one plugin. *)
Fixpoint registerListeners (pluginPath : string) (plugin : PluginRef)
    (names : list string) : M (Process W) unit :=
  match names with
  | [] => ret tt
  | listenerName :: rest =>
      (if Js.endsWith listenerName "MessageListener" then
         in_sys (call (node_require host pluginPath) (CallRequire pluginPath));;
         log LConsole [Str pluginPath];;
         let instance := PluginListener pluginPath listenerName in
         in_sys (call (node_new host instance) (CallNew instance));;
         registerMessageListener (mkEntry listenerName LT_MESSAGE instance (Shared plugin))
       else if Js.endsWith listenerName "EventListener" then
         in_sys (call (node_require host pluginPath) (CallRequire pluginPath));;
         let instance := PluginListener pluginPath listenerName in
         in_sys (call (node_new host instance) (CallNew instance));;
         registerEventListener (mkEntry listenerName LT_EVENT instance (Shared plugin))
       else
         log LError [Str "The listener "; Quoted listenerName; Str " is not supported!"]);;
      registerListeners pluginPath plugin rest
  end.

(** Lines 269-330: the body of the loop over the sorted plugin list. *)
Definition loadPlugin (pluginYamlFilePath : string) (plugin : PluginRef)
  : M (Process W) unit :=
  let* this := get_this in
  let* h := in_sys get_store in
  let pluginHome := pluginHome this in
  let descriptor : IChatPlugin := h !!! plugin in
  log LInfo [Str "Loading the plugin "; Str (package descriptor); Str " ..."];;
  let segments := Js.split "/" (package descriptor) in
  let pluginPath :=
    match segments with
    | [segment0; segment1] =>
        pluginHome +:+ path_sep host +:+ segment0 +:+ path_sep host +:+ segment1
    | _ => pluginHome +:+ path_sep host +:+ package descriptor
    end in
  let* installed := in_sys (read_total (fs_existsSync host pluginPath)) in
  if negb installed then
    log LError [Str "Can't load the plugin "; Str (package descriptor);
                Str " due to the plugin file path "; Quoted pluginPath;
                Str " does not exist!"]
  else
    let packageFilePath := pluginPath +:+ path_sep host +:+ "package.json" in
    let* packageName := in_sys (read (Util_getPackageName host packageFilePath)) in
    if negb (String.eqb (package descriptor) packageName) then
      log LError [Str "Can't load the plugin "; Str (package descriptor);
                  Str " due to the specified package name in "; Str pluginYamlFilePath;
                  Str " is not consistent with the real package name in ";
                  Str packageFilePath]
    else
      registerListeners pluginPath plugin (listeners descriptor);;
      log LDebug [Str "Loading plugin "; Str (package descriptor); Str " complete"];;
      let* this := get_this in
      set_plugins (plugins this ++ [plugin]).

Fixpoint loadEach (pluginYamlFilePath : string) (pluginList : list PluginRef)
  : M (Process W) unit :=
  match pluginList with
  | [] => ret tt
  | plugin :: rest =>
      loadPlugin pluginYamlFilePath plugin;;
      loadEach pluginYamlFilePath rest
  end.

(** Line 264: [pluginList.sort((a, b) => a.priority - b.priority)]. *)
Definition sortByPriority (h : DescriptorStore) (pluginList : list PluginRef)
  : list PluginRef :=
  Js.sort (fun a b => priority (h !!! a) - priority (h !!! b)) pluginList.

(** Lines 243-257: where plugin.yaml is; [None] when it is in neither place. *)
Definition locateManifest (pluginHome : string) : M (Process W) (option string) :=
  let pluginYamlFilePath := pluginHome +:+ path_sep host +:+ "plugin.yaml" in
  log LInfo [Str "Zowe Chat plugin home: "; Str pluginHome];;
  let* found := in_sys (read_total (fs_existsSync host pluginYamlFilePath)) in
  if negb found then
    let pluginYamlFilePath :=
      dirname host +:+ path_sep host +:+ ".." +:+ path_sep host +:+ "config"
      +:+ path_sep host +:+ "plugin.yaml" in
    let* found := in_sys (read_total (fs_existsSync host pluginYamlFilePath)) in
    if negb found then
      log LError [Str "Zowe Chat plugin configuration file plugin.yaml does not exist in ";
                  Str pluginHome; Str " and "; Str (dirname host); Str (path_sep host);
                  Str ".."; Str (path_sep host); Str "config !"];;
      log LError [Str "Skip loading plugins!"];;
      ret None
    else ret (Some pluginYamlFilePath)
  else ret (Some pluginYamlFilePath).

(** Lines 242-331: the [try] block of [loadPlugins]. *)
Definition loadPlugins_try : M (Process W) unit :=
  let* this := get_this in
  let* located := locateManifest (pluginHome this) in
  match located with
  | None => ret tt
  | Some pluginYamlFilePath =>
      let* content := in_sys (readYamlFile pluginYamlFilePath) in
      let* this := get_this in
      let* h := in_sys get_store in
      log LInfo [Str pluginYamlFilePath; Str ":";
                 Plugins (List.map (fun r => h !!! r) (plugins this))];;
      let* pluginList :=
        match content with
        | YamlPlugins l => in_sys (new_descriptors l)
        | YamlUndefined =>
            throw (TypeError "Cannot read properties of undefined (reading 'sort')")
        | YamlNull =>
            throw (TypeError "Cannot read properties of null (reading 'sort')")
        | YamlNotAnArray => throw (TypeError "pluginList.sort is not a function")
        end in
      let* h := in_sys get_store in
      let pluginList := sortByPriority h pluginList in
      log LDebug [Str "Plugins sorted by priority:";
                  Plugins (List.map (fun r => h !!! r) pluginList)];;
      loadEach pluginYamlFilePath pluginList
  end.

(** [loadPlugins()] *)
Definition loadPlugins : M (Process W) unit :=
  log LStart [Str "loadPlugins"];;
  finally
    (try_catch loadPlugins_try (fun error => log LError [Err error]))
    (log LEnd [Str "loadPlugins"]).

(** [new ChatBot(chatConfig, log)].  The creation of the configuration
    manager, the security manager, the messaging app, the bot options and the
    CommonBot is one call to the host. *)
Definition ChatBot_new (chatConfig : AppConfig) (s : Sys W)
  : Startup * Sys W * list Event :=
  let this :=
    mkChatBot chatConfig (ZOWE_CHAT_PLUGINS_DIR host) []
              (BotMessageListener_new chatConfig) (mkBotEventListener []) in
  let '(r, w) := init_capabilities host chatConfig (world s) in
  let s1 := mkSys (store s) w in
  let t1 := [Log LSilly [Str "Zowe Chat Config: "]; CallInit r] in
  match r with
  | InitExited code => (Exited code, s1, t1)
  | InitThrew e =>
      (Exited 1, s1, t1 ++ [Log LError [Str "Failed to create chat bot!"; Err e]])
  | InitDone =>
      let body : M (Process W) unit :=
        setBotListeners;;
        set_plugins [];;
        loadPlugins;;
        log LInfo [Str "Plugins initialized"] in
      match body (mkProcess this s1) with
      | (Returned _, p, t2) => (Running (self p), sys p, t1 ++ t2)
      | (Thrown e, p, t2) =>
          (Exited 1, sys p,
           t1 ++ t2 ++ [Log LError [Str "Failed to create chat bot!"; Err e]])
      end
  end.

End ChatBot.


(** ** [ChatBot.generateBotOpts] *)

Module BotOpts.

(** [appConfig.mattermost], and the [IMattermostOption] that the spread
    [{ ...appConfig.mattermost }] copies it to: the two keys the code looks
    at, and every other key as it is. *)
Record IMattermostOption := mkMattermostOption {
  protocol : string;
  tlsCertificate : string;
  mattermostOthers : gmap string string
}.

(** [appConfig.slack], as far as the code reads it. *)
Record SlackSection := mkSlackSection {
  slackBotUserName : string;
  slackSigningSecret : string;
  slackToken : string;
  socketMode_enabled : bool;
  socketMode_appToken : string;
  httpEndpoint_enabled : bool;
  httpEndpoint_basePath : string
}.

(** [ISlackOption] as lines 408-417 build it; [None] is [null]. *)
Record ISlackOption := mkSlackOption {
  botUserName : string;
  signingSecret : string;
  endpoints : string;
  receiver : option unit;
  token : string;
  logLevel : string;
  socketMode : bool;
  appToken : option string
}.

(** [appConfig.msteams], and the option made of it (lines 461-465). *)
Record IMsteamsOption := mkMsteamsOption {
  msteamsBotUserName : string;
  botId : string;
  botPassword : string
}.

Inductive ToolOption :=
| OptMattermost (option : IMattermostOption)
| OptSlack (option : ISlackOption)
| OptMsteams (option : IMsteamsOption).

(** [appConfig.app.chatToolType]: one of the three chat tools, or any other
    value. *)
Inductive ConfiguredTool :=
| KnownTool (tool : IChatToolType)
| OtherTool (value : string).

(** How [generateBotOpts] ends: with the options, or in [process.exit]. *)
Inductive Ending (A : Type) :=
| Finished (a : A)
| ProcessExit (code : Z).
Arguments Finished {A}.
Arguments ProcessExit {A}.

(** What [generateBotOpts] writes. *)
Inductive OptsEvent :=
| LogDebug (text : string)
| LogDebugConfig (tool : IChatToolType)
| ConsoleInfo (text : string)
| ConsoleInfoConfig (tool : IChatToolType)
| LogError (text : list LogPart)
| LogErrorStack (error : JsError).

Section GenerateBotOpts.
Context {W Server Application : Type} (host : Host W).

(** [fs.readFileSync(path, 'utf8')] and [messageApp.getApplication()]. *)
Context (fs_readFileSync : string -> W -> Outcome string).
Context (messageApp_getApplication : W -> Outcome Application).

(** The parts of [appConfig] that [generateBotOpts] reads. *)
Record BotConfig := mkBotConfig {
  app_chatToolType : ConfiguredTool;
  app_server : Server;
  app_log_level : string;
  mattermost : IMattermostOption;
  slack : SlackSection;
  msteams : IMsteamsOption
}.

Record IBotOption := mkBotOption {
  messagingApp_option : Server;
  messagingApp_app : Application;
  chatTool : IChatToolType;
  toolOption : ToolOption
}.

(** Lines 473-477: the [catch] block. *)
Definition failedToConfig (error : JsError) : list OptsEvent :=
  [LogError [Str "Failed to config the chat tool!"]; LogErrorStack error].

(** [{ messagingApp: { option: appConfig.app.server, app:
    messageApp.getApplication() }, chatTool: .., <tool>: option }] *)
Definition makeBotOpts (appConfig : BotConfig) (tool : IChatToolType)
    (option : ToolOption) (w : W) (t : list OptsEvent)
  : Ending IBotOption * list OptsEvent :=
  match messageApp_getApplication w with
  | Returned application =>
      (Finished (mkBotOption (app_server appConfig) application tool option), t)
  | Thrown error => (ProcessExit 5, t ++ failedToConfig error)
  end.

(** [generateBotOpts(appConfig, messageApp)] *)
Definition generateBotOpts (appConfig : BotConfig) (w : W)
  : Ending IBotOption * list OptsEvent :=
  match app_chatToolType appConfig with
  | KnownTool MATTERMOST =>
      let t := [LogDebug "mattermost configuration: "; LogDebugConfig MATTERMOST] in
      let option := mattermost appConfig in
      match makeBotOpts appConfig MATTERMOST (OptMattermost option) w t with
      | (Finished botOpts, t) =>
          if String.eqb (protocol (mattermost appConfig)) "https" then
            if fs_existsSync host (tlsCertificate (mattermost appConfig)) w then
              match fs_readFileSync (tlsCertificate (mattermost appConfig)) w with
              | Returned content =>
                  (Finished
                     (mkBotOption (messagingApp_option botOpts) (messagingApp_app botOpts)
                        (chatTool botOpts)
                        (OptMattermost
                           (mkMattermostOption (protocol option) content
                                               (mattermostOthers option)))), t)
              | Thrown error => (ProcessExit 5, t ++ failedToConfig error)
              end
            else
              (ProcessExit 4,
               t ++ [LogError [Str "The TLS certificate file ";
                               Str (tlsCertificate (mattermost appConfig));
                               Str " does not exist!"]])
          else (Finished botOpts, t)
      | ended => ended
      end
  | KnownTool SLACK =>
      let t := [ConsoleInfo "slack.configuration: "; ConsoleInfoConfig SLACK] in
      let option :=
        mkSlackOption (slackBotUserName (slack appConfig))
                      (slackSigningSecret (slack appConfig))
                      EmptyString None
                      (slackToken (slack appConfig))
                      (app_log_level appConfig)
                      true None in
      if negb (socketMode_enabled (slack appConfig))
         && httpEndpoint_enabled (slack appConfig)
      then
        let option :=
          mkSlackOption (botUserName option) (signingSecret option)
                        (httpEndpoint_basePath (slack appConfig)) None
                        (token option) (logLevel option) false (appToken option) in
        makeBotOpts appConfig SLACK (OptSlack option) w t
      else
        let option :=
          mkSlackOption (botUserName option) (signingSecret option)
                        (endpoints option) (receiver option)
                        (token option) (logLevel option) (socketMode option)
                        (Some (socketMode_appToken (slack appConfig))) in
        makeBotOpts appConfig SLACK (OptSlack option) w t
  | KnownTool MSTEAMS =>
      let t := [ConsoleInfo "msteams.yaml: "; ConsoleInfoConfig MSTEAMS] in
      makeBotOpts appConfig MSTEAMS
        (OptMsteams (mkMsteamsOption (msteamsBotUserName (msteams appConfig))
                                     (botId (msteams appConfig))
                                     (botPassword (msteams appConfig))))
        w t
  | OtherTool value =>
      (ProcessExit 5, [LogError [Str "Unsupported chat tool: "; Str value]])
  end.

End GenerateBotOpts.

End BotOpts.

(** ** The sign-in provider of the web interface

    [packages/chat-react-ui/src/auth/api/auth.ts], the exported
    [chatAuthProvider]. *)

Module AuthApi.

(** What the promise of [axios.post] is fulfilled with. *)
Record AxiosResponse := mkResponse {
  status : Z;
  data : string
}.

Inductive Logged :=
| LoggedResponse (response : AxiosResponse)
| LoggedError (error : JsError).

(** What the provider does that can be seen: the request, the lines on the
    console, and the calls of the callback it was given, each with what
    [chatAuthProvider.isAuthenticated] was when the call was made. *)
Inductive PageEvent :=
| AxiosPost (url : string) (user password : string)
| ConsoleLog (what : Logged)
| Called (arg : option bool) (authenticated : bool) (res : Outcome unit).

Section ChatAuthProvider.
Context {V : Type}.

(** The page: [chatAuthProvider.isAuthenticated], and everything else a
    callback can reach. *)
Record Page := mkPage {
  chat_isAuthenticated : bool;
  page : V
}.

Definition setAuthenticated (b : bool) (pg : Page) : Page :=
  mkPage b (page pg).

(** A call of the callback of the caller, which may do anything to the
    page and may raise. *)
Definition invoke (arg : option bool) (callback : Page -> Outcome unit * Page) (pg : Page)
  : Outcome unit * Page * list PageEvent :=
  let '(r, pg') := callback pg in
  (r, pg', [Called arg (chat_isAuthenticated pg) r]).

(** [signin(user, password, callback)] (lines 34-48) as far as it runs at
    once: the request is sent, and the handlers wait for it to settle. *)
Definition signin (user password : string) (pg : Page)
  : Outcome unit * Page * list PageEvent :=
  (Returned tt, pg, [AxiosPost "http://localhost:7701/api/v1/auth/login" user password]).

(** Lines 39-43: the handler of [then]. *)
Definition onFulfilled (callback : bool -> Page -> Outcome unit * Page)
    (response : AxiosResponse) (pg : Page) : Outcome unit * Page * list PageEvent :=
  let '(r, pg', t) := invoke (Some true) (callback true) (setAuthenticated true pg) in
  (r, pg', ConsoleLog (LoggedResponse response) :: t).

(** Lines 43-47: the handler of [catch]. *)
Definition onRejected (callback : bool -> Page -> Outcome unit * Page)
    (error : JsError) (pg : Page) : Outcome unit * Page * list PageEvent :=
  let '(r, pg', t) := invoke (Some false) (callback false) (setAuthenticated false pg) in
  (r, pg', ConsoleLog (LoggedError error) :: t).

(** The chain [post(..).then(..).catch(..)] of [signin] once the request has
    settled: [catch] also handles what the handler of [then] raises.
    [Thrown] is a rejection that nothing handles. *)
Definition signin_settled (callback : bool -> Page -> Outcome unit * Page)
    (settled : Outcome AxiosResponse) (pg : Page)
  : Outcome unit * Page * list PageEvent :=
  match settled with
  | Returned response =>
      match onFulfilled callback response pg with
      | (Thrown error, pg1, t1) =>
          let '(r, pg2, t2) := onRejected callback error pg1 in (r, pg2, t1 ++ t2)
      | fulfilled => fulfilled
      end
  | Thrown error => onRejected callback error pg
  end.

(** [signout(callback)] (lines 49-52). *)
Definition signout (callback : Page -> Outcome unit * Page) (pg : Page)
  : Outcome unit * Page * list PageEvent :=
  invoke None callback (setAuthenticated false pg).

End ChatAuthProvider.

End AuthApi.
(** * Vocabulary of the properties *)

(** ** Reading a trace *)

Record MatchCall := mkMatchCall {
  mc_listener : IChatListenerRegistryEntry;
  mc_arg : IChatContextData;
  mc_res : Outcome (bool * IChatContextData)
}.

Record ProcessCall := mkProcessCall {
  pc_listener : IChatListenerRegistryEntry;
  pc_arg : option IChatContextData;
  pc_res : Outcome (list IMessage * option IChatContextData)
}.

Record SendCall := mkSendCall {
  sc_target : option IChatContextData;
  sc_msgs : list IMessage;
  sc_res : Outcome unit
}.

Definition as_matchCall (ev : Event) : option MatchCall :=
  match ev with
  | CallMatchMessage l a r => Some (mkMatchCall l a r)
  | _ => None
  end.

Definition as_processCall (ev : Event) : option ProcessCall :=
  match ev with
  | CallProcessMessage l a r => Some (mkProcessCall l a r)
  | _ => None
  end.

Definition as_sendCall (ev : Event) : option SendCall :=
  match ev with
  | CallSend c m r => Some (mkSendCall c m r)
  | _ => None
  end.

(** The calls to listeners' [matchMessage] in a trace, in order. *)
Definition matchCalls (t : list Event) : list MatchCall := omap as_matchCall t.

(** The calls to listeners' [processMessage] in a trace, in order. *)
Definition processCalls (t : list Event) : list ProcessCall := omap as_processCall t.

(** The calls to the transport's [send] in a trace, in order. *)
Definition sendCalls (t : list Event) : list SendCall := omap as_sendCall t.

(** A listener answered [true]; [Some] of the listener and of the context as
    it left it. *)
Definition accepted (c : MatchCall) : option (IChatListenerRegistryEntry * IChatContextData) :=
  match mc_res c with
  | Returned (true, contextData) => Some (mc_listener c, contextData)
  | _ => None
  end.

Definition errorLogged (e : JsError) (t : list Event) : Prop :=
  In (Log LError [Err e]) t.


(** ** The match pass *)

(** The clone a listener is consulted on. *)
Definition cloneFor (h : DescriptorStore) (chatContextData : IChatContextData)
    (listener : IChatListenerRegistryEntry) : IChatContextData :=
  stampPlugin (cloneDeep h chatContextData) (chatPlugin listener).

(** The inbound text mentions the bot. *)
Definition addressed (this : BotMessageListener) (C : IChatContextData) : bool :=
  negb (Js.indexOf (payload_data (payload C)) ("@" +:+ botName this) =? -1).

(** ** The dispatch pass *)

(** A context with everything recorded in it. *)
Fixpoint contextSize (c : IChatContextData) : nat :=
  match c with
  | mkContext _ _ None => 1
  | mkContext _ _ (Some (mkExtra _ _ cs _)) =>
      S (match cs with
         | Some l => list_sum (List.map contextSize l)
         | None => 0
         end)
  end.

(** The message an unauthenticated sender gets (lines 149-152). *)
Definition loginPrompt (user : IUser) (redirect : string) : IMessage :=
  mkMessage PLAIN_TEXT
    ("Hello @" +:+ user_name user
     +:+ ", you are not currently logged in to the backend system. Please visit "
     +:+ redirect +:+ " to login").

(** What the security manager answers for the sender of a context. *)
Definition isAuthenticated {W} (host : Host W) (C : IChatContextData) (s : Sys W) : bool :=
  fst (security_isAuthenticated host C (world s)).

(** A call recorded in the trace raised. *)
Definition raised (ev : Event) : bool :=
  match ev with
  | CallMatchMessage _ _ r => is_thrown r
  | CallProcessMessage _ _ r => is_thrown r
  | CallSend _ _ r => is_thrown r
  | CallGetPrincipal _ r => is_thrown r
  | CallRequire _ r => is_thrown r
  | CallNew _ r => is_thrown r
  | CallInit (InitThrew _) => true
  | _ => false
  end.

(** No call of the trace raised. *)
Definition quiet (t : list Event) : Prop :=
  Forall (fun ev => raised ev = false) t.

(** ** The load pass *)

(** [picks] is taken from [l] going left to right, an element of [l] being
    taken any number of times before moving on. *)
Inductive drawn {A : Type} : list A -> list A -> Prop :=
| drawn_nil l : drawn [] l
| drawn_take x picks l : drawn picks (x :: l) -> drawn (x :: picks) (x :: l)
| drawn_skip picks y l : drawn picks l -> drawn picks (y :: l).

(** Ascending key, elements of equal key in the order [before]. *)
Definition byKeyThen {A : Type} (key : A -> Z) (before : A -> A -> Prop) (a b : A)
  : Prop :=
  key a < key b \/ (key a = key b /\ before a b).

(** Plugins in ascending priority, plugins of equal priority in ascending
    address: for the descriptors of a parsed manifest, in manifest order. *)
Definition byPriorityThenManifest (h : DescriptorStore) : PluginRef -> PluginRef -> Prop :=
  byKeyThen (fun r => priority (h !!! r)) lt.

(** The same for the plugins of a sequence of listeners, where a plugin
    comes once for each of its listeners. *)
Definition byPriorityThenAddress (h : DescriptorStore) : PluginRef -> PluginRef -> Prop :=
  byKeyThen (fun r => priority (h !!! r)) le.

(** A line logged at the error level. *)
Definition isErrorLog (ev : Event) : bool :=
  match ev with
  | Log LError _ => true
  | _ => false
  end.

(** Nothing was logged at the error level. *)
Definition noErrorLogged (t : list Event) : Prop :=
  Forall (fun ev => isErrorLog ev = false) t.

(** What a registry entry is known by: its name and its plugin. *)
Definition signature (e : IChatListenerRegistryEntry) : string * PluginHandle :=
  (listenerName e, chatPlugin e).

(** The message listeners that the descriptor of a plugin names, in the
    order of the descriptor. *)
Definition messageListenersOf (h : DescriptorStore) (plugin : PluginRef)
  : list (string * PluginHandle) :=
  List.map (fun listenerName => (listenerName, Shared plugin))
           (List.filter (fun listenerName => Js.endsWith listenerName "MessageListener")
                        (listeners (h !!! plugin))).

Section LoadVocabulary.
Context {W : Type}.

(** Between [p] and [p'] the message registry got [new] at its end; the
    name and the configuration of the message listener, the plugin home, the
    configuration of the bot and the descriptor store are as they were.  (The
    event registry and the list of the plugins loaded are not spoken of: see
    [registeredEvents] and [load_anatomy].) *)
Definition registered (p p' : Process W) (new : list IChatListenerRegistryEntry) : Prop :=
  chatListeners (botMessageListener (self p'))
  = chatListeners (botMessageListener (self p)) ++ new /\
  botName (botMessageListener (self p')) = botName (botMessageListener (self p)) /\
  config (botMessageListener (self p')) = config (botMessageListener (self p)) /\
  pluginHome (self p') = pluginHome (self p) /\
  appConfig (self p') = appConfig (self p) /\
  store (sys p') = store (sys p).

(** Between [p] and [p'] the descriptors [manifest] were allocated and the
    message registry got [new] at its end. *)
Definition loaded (p p' : Process W) (manifest : list IChatPlugin)
    (new : list IChatListenerRegistryEntry) : Prop :=
  chatListeners (botMessageListener (self p'))
  = chatListeners (botMessageListener (self p)) ++ new /\
  botName (botMessageListener (self p')) = botName (botMessageListener (self p)) /\
  config (botMessageListener (self p')) = config (botMessageListener (self p)) /\
  pluginHome (self p') = pluginHome (self p) /\
  appConfig (self p') = appConfig (self p) /\
  store (sys p') = store (sys p) ++ manifest.

(** Whatever way [m] ends, it has only appended to the message registry, and
    only entries that satisfy [ok]. *)
Definition registers {A} (m : M (Process W) A) (ok : IChatListenerRegistryEntry -> Prop)
  : Prop :=
  forall p out p' t, m p = (out, p', t) ->
    exists new, registered p p' new /\ Forall ok new.

(** [m] leaves the descriptor store as it is. *)
Definition keeps_store {A} (m : M (Sys W) A) : Prop :=
  forall s out s' t, m s = (out, s', t) -> store s' = store s.

End LoadVocabulary.

Section ManifestPaths.
Context {W : Type} (host : Host W).

(** plugin.yaml in the plugin home. *)
Definition homeManifest (home : string) : string :=
  home +:+ path_sep host +:+ "plugin.yaml".

(** plugin.yaml in the configuration folder of the chat server. *)
Definition builtinManifest : string :=
  dirname host +:+ path_sep host +:+ ".." +:+ path_sep host +:+ "config"
  +:+ path_sep host +:+ "plugin.yaml".

(** What [loadPlugins] logs when plugin.yaml is in neither place. *)
Definition skipLoadingTrace (home : string) : list Event :=
  [Log LStart [Str "loadPlugins"];
   Log LInfo [Str "Zowe Chat plugin home: "; Str home];
   Log LError [Str "Zowe Chat plugin configuration file plugin.yaml does not exist in ";
               Str home; Str " and "; Str (dirname host); Str (path_sep host);
               Str ".."; Str (path_sep host); Str "config !"];
   Log LError [Str "Skip loading plugins!"];
   Log LEnd [Str "loadPlugins"]].

End ManifestPaths.

(** ** The built-in listener *)

(** The descriptor [setBotListeners] makes up for the chat server itself. *)
Definition logoutPlugin : IChatPlugin :=
  mkPlugin "chat" "local" 1 1 ["LogoutMessageListener"].

(** The registry entry of the built-in listener, its descriptor at [r]. *)
Definition logoutEntry (r : PluginRef) : IChatListenerRegistryEntry :=
  mkEntry "LogoutListener" LT_MESSAGE LogoutMessageListener (Shared r).

(** ** Calls on the message listener over time *)

Inductive Op :=
| OpRegister (listenerEntry : IChatListenerRegistryEntry)
| OpMatch (chatContextData : IChatContextData)
| OpProcess (chatContextData : IChatContextData).

Section Serving.
Context {W : Type} (host : Host W).

(** One call, on the listener object and the system as they are. *)
Definition step (op : Op) (st : BotMessageListener * Sys W)
  : BotMessageListener * Sys W * list Event :=
  let '(this, s) := st in
  match op with
  | OpRegister listenerEntry =>
      match registerChatListener this listenerEntry s with
      | (Returned this', s', t) => (this', s', t)
      | (Thrown _, s', t) => (this, s', t)
      end
  | OpMatch chatContextData =>
      let '(_, s', t) := matchMessage host this chatContextData s in (this, s', t)
  | OpProcess chatContextData =>
      let '(_, s', t) := processMessage host this chatContextData s in (this, s', t)
  end.

Fixpoint run_ops (ops : list Op) (st : BotMessageListener * Sys W)
  : BotMessageListener * Sys W * list Event :=
  match ops with
  | [] => (st, [])
  | op :: rest =>
      let '(st1, t1) := step op st in
      let '(st2, t2) := run_ops rest st1 in
      (st2, t1 ++ t2)
  end.

End Serving.

(** The entries handed to [registerChatListener] in a sequence of calls. *)
Definition registrations (ops : list Op) : list IChatListenerRegistryEntry :=
  omap (fun op => match op with OpRegister e => Some e | _ => None end) ops.

(** ** Clones and what they share *)


(** The handle under [extraData.chatPlugin]. *)
Definition stampedPlugin (c : IChatContextData) : option PluginHandle :=
  match extraData c with
  | Some x => extra_chatPlugin x
  | None => None
  end.


(** ** Readings of the specification that the code is checked against *)

Section SpecificationReadings.
Context {W : Type} (host : Host W).

(** A listener, asked in the state [s], accepts the clone made for it. *)
Definition accepts (s : Sys W) (C : IChatContextData)
    (listener : IChatListenerRegistryEntry) : Prop :=
  exists contextData w,
    listener_matchMessage host (store s) (listenerInstance listener)
      (cloneFor (store s) C listener) (world s)
    = (Returned (true, contextData), w).

(** Matching, for any inbound context at all: [matchMessage] returns true
    exactly when a registered listener accepts its clone. *)
Definition match_iff_some_listener_accepts (this : BotMessageListener)
    (C : IChatContextData) (s : Sys W) : Prop :=
  (exists C', fst (fst (matchMessage host this C s)) = Returned (Some true, C'))
  <-> Exists (accepts s C) (chatListeners this).

(** The authentication gate with the login prompt addressed to the inbound
    context itself. *)
Definition login_prompt_to_inbound_context (this : BotMessageListener)
    (C : IChatContextData) (s : Sys W) : Prop :=
  isAuthenticated host C s = false ->
  let t := snd (processMessage host this C s) in
  processCalls t = [] /\
  exists url out,
    sendCalls t
    = [mkSendCall (Some C) [loginPrompt (chatting_user (chatting (context C))) url]
                  out].


(** A load pass that fails when plugin.yaml is in neither place. *)
Definition missing_manifest_raises (p : Process W) : Prop :=
  fs_existsSync host (homeManifest host (pluginHome (self p))) (world (sys p)) = false ->
  fs_existsSync host (builtinManifest host) (world (sys p)) = false ->
  exists e, fst (fst (loadPlugins host p)) = Thrown e.

(** A registry that the first match pass closes: after a [matchMessage], in
    whatever sequence of calls, [registerChatListener] leaves the registry as
    it is. *)
Definition registry_closed_by_first_match (this : BotMessageListener) (s : Sys W) : Prop :=
  forall before C after listenerEntry,
    let st := fst (run_ops host (before ++ OpMatch C :: after) (this, s)) in
    chatListeners (fst (fst (step host (OpRegister listenerEntry) st)))
    = chatListeners (fst st).

End SpecificationReadings.
(** * Vocabulary of the further properties *)

(** The keys of [extraData] that belong to the transport or to a plugin. *)
Definition customKeys (c : IChatContextData) : gmap string string :=
  match extraData c with
  | Some x => extra_custom x
  | None => ∅
  end.

(** The pool of contexts recorded on a context, if there is one. *)
Definition contextPool (c : IChatContextData) : option (list IChatContextData) :=
  match extraData c with
  | Some x => extra_contexts x
  | None => None
  end.

(** The calls of a dispatch pass to listeners and to the transport, in the
    order they were made. *)
Definition isDispatchCall (ev : Event) : bool :=
  match ev with
  | CallProcessMessage _ _ _ => true
  | CallSend _ _ _ => true
  | _ => false
  end.

Definition dispatchCalls (t : list Event) : list Event :=
  List.filter isDispatchCall t.

(** Listener calls and sends taking turns, a listener call first. *)
Fixpoint alternate (pcs : list ProcessCall) (scs : list SendCall) : list Event :=
  match pcs with
  | [] => []
  | p :: pcs' =>
      CallProcessMessage (pc_listener p) (pc_arg p) (pc_res p)
      :: match scs with
         | [] => []
         | c :: scs' =>
             CallSend (sc_target c) (sc_msgs c) (sc_res c) :: alternate pcs' scs'
         end
  end.

(** ** The load pass *)

(** The error line of a plugin that was skipped (lines 282 and 290). *)
Definition skipLogged (t : list Event) (package : string) : Prop :=
  exists rest, In (Log LError (Str "Can't load the plugin " :: Str package :: rest)) t.

(** The segments of a split string put together again. *)
Fixpoint joinSegments (sep : ascii) (segments : list string) : string :=
  match segments with
  | [] => EmptyString
  | [segment] => segment
  | segment :: rest => segment +:+ String sep (joinSegments sep rest)
  end.

Section LoadMoreVocabulary.
Context {W : Type} (host : Host W).

(** Lines 272-278: where a plugin is installed. *)
Definition pluginPathOf (pluginHome package : string) : string :=
  match Js.split "/" package with
  | [segment0; segment1] =>
      pluginHome +:+ path_sep host +:+ segment0 +:+ path_sep host +:+ segment1
  | _ => pluginHome +:+ path_sep host +:+ package
  end.

(** Lines 306-311: the registry entry made for a message listener of a
    plugin. *)
Definition messageEntry (pluginPath : string) (plugin : PluginRef) (listenerName : string)
  : IChatListenerRegistryEntry :=
  mkEntry listenerName LT_MESSAGE (PluginListener pluginPath listenerName) (Shared plugin).

(** The entries of all the message listeners that the descriptor of a plugin
    names, in the order of the descriptor. *)
Definition messageEntriesOf (pluginHome : string) (h : DescriptorStore) (plugin : PluginRef)
  : list IChatListenerRegistryEntry :=
  let descriptor := h !!! plugin in
  List.map (messageEntry (pluginPathOf pluginHome (package descriptor)) plugin)
           (List.filter (fun listenerName => Js.endsWith listenerName "MessageListener")
                        (listeners descriptor)).

(** Lines 300 and 312: a name that ends in MessageListener is taken for a
    message listener; of the other names, those that end in EventListener are
    taken for event listeners. *)
Definition isEventListenerName (listenerName : string) : bool :=
  negb (Js.endsWith listenerName "MessageListener")
  && Js.endsWith listenerName "EventListener".

(** Lines 318-323: the registry entry made for an event listener of a
    plugin. *)
Definition eventEntry (pluginPath : string) (plugin : PluginRef) (listenerName : string)
  : IChatListenerRegistryEntry :=
  mkEntry listenerName LT_EVENT (PluginListener pluginPath listenerName) (Shared plugin).

(** The entries of all the event listeners that the descriptor of a plugin
    names, in the order of the descriptor. *)
Definition eventEntriesOf (pluginHome : string) (h : DescriptorStore) (plugin : PluginRef)
  : list IChatListenerRegistryEntry :=
  let descriptor := h !!! plugin in
  List.map (eventEntry (pluginPathOf pluginHome (package descriptor)) plugin)
           (List.filter isEventListenerName (listeners descriptor)).

(** Between [p] and [p'] the event registry got [new] at its end. *)
Definition registeredEvents (p p' : Process W) (new : list IChatListenerRegistryEntry)
  : Prop :=
  eventListeners (botEventListener (self p'))
  = eventListeners (botEventListener (self p)) ++ new.

(** Whatever way [m] ends, it has only appended to the event registry, and
    only entries that satisfy [ok]. *)
Definition registersEvents {A} (m : M (Process W) A)
    (ok : IChatListenerRegistryEntry -> Prop) : Prop :=
  forall p out p' t, m p = (out, p', t) ->
    exists new, registeredEvents p p' new /\ Forall ok new.

(** Where [loadPlugins] finds plugin.yaml. *)
Definition locatedManifest (p : Process W) : option string :=
  if fs_existsSync host (homeManifest host (pluginHome (self p))) (world (sys p))
  then Some (homeManifest host (pluginHome (self p)))
  else if fs_existsSync host (builtinManifest host) (world (sys p))
       then Some (builtinManifest host)
       else None.

(** What a load pass leaves behind, in terms of the plugins it recorded:
    the message listeners of every recorded plugin, in the sorted order, and
    after them some of the message listeners of at most one more plugin.  A
    pass that ran to its end ([completed]) registered nothing partially, and
    every plugin it did not record it skipped with an error line. *)
Definition load_anatomy (p p' : Process W) (completed : Prop) (t : list Event)
    (manifest : list IChatPlugin) (new : list IChatListenerRegistryEntry)
    (loadedRefs : list PluginRef) (partial : list IChatListenerRegistryEntry) : Prop :=
  let h := store (sys p') in
  let pluginList := sortByPriority h (seq (length (store (sys p))) (length manifest)) in
  let entriesOf := messageEntriesOf (pluginHome (self p)) h in
  loaded p p' manifest new /\
  plugins (self p') = plugins (self p) ++ loadedRefs /\
  sublist loadedRefs pluginList /\
  new = List.flat_map entriesOf loadedRefs ++ partial /\
  (partial = [] \/ exists r, r ∈ pluginList /\ partial `prefix_of` entriesOf r) /\
  (completed ->
   partial = [] /\
   forall r, r ∈ pluginList -> r ∈ loadedRefs \/ skipLogged t (package (h !!! r))).

End LoadMoreVocabulary.


(** ** The options of the bot *)

(** An error line of [generateBotOpts]. *)
Definition isOptsError (ev : BotOpts.OptsEvent) : bool :=
  match ev with
  | BotOpts.LogError _ => true
  | BotOpts.LogErrorStack _ => true
  | _ => false
  end.

(** The option of a chat tool is of the kind of that tool. *)
Definition optionFor (tool : IChatToolType) (option : BotOpts.ToolOption) : bool :=
  match tool, option with
  | MATTERMOST, BotOpts.OptMattermost _ => true
  | SLACK, BotOpts.OptSlack _ => true
  | MSTEAMS, BotOpts.OptMsteams _ => true
  | _, _ => false
  end.

(** ** The sign-in provider *)

(** The calls of the callback in what the provider did: argument, what
    [isAuthenticated] was, and how the call ended. *)
Definition callbackCalls (t : list AuthApi.PageEvent)
  : list (option bool * bool * Outcome unit) :=
  omap (fun ev => match ev with
                  | AuthApi.Called arg authenticated res => Some (arg, authenticated, res)
                  | _ => None
                  end) t.

(** A callback that leaves [chatAuthProvider.isAuthenticated] alone. *)
Definition keepsAuthenticated {V A : Type}
    (callback : A -> @AuthApi.Page V -> Outcome unit * @AuthApi.Page V) : Prop :=
  forall a pg,
    AuthApi.chat_isAuthenticated (snd (callback a pg)) = AuthApi.chat_isAuthenticated pg.

(** * A chat server to try things on

    A host with a small file system, four installed plugins and one user
    logged in; used for the examples that follow the theorems. *)

Module Scenario.

Record World := mkWorld {
  files : list string;
  manifestYaml : YamlValue;
  packageNames : list (string * string);
  sessions : list string
}.

Definition contains (s sub : string) : bool :=
  negb (Js.indexOf s sub =? -1).

(** A listener notes the command it parsed in [extraData.command]. *)
Definition noteCommand (c : IChatContextData) : IChatContextData :=
  match extraData c with
  | Some x =>
      mkContext (payload c) (context c)
        (Some (mkExtra (extra_chatPlugin x) (extra_listeners x) (extra_contexts x)
                       (<["command" := payload_data (payload c)]> (extra_custom x))))
  | None => c
  end.

Fixpoint assoc (key : string) (l : list (string * string)) : option string :=
  match l with
  | [] => None
  | (k, v) :: rest => if String.eqb k key then Some v else assoc key rest
  end.

Definition host : Host World :=
  mkHost World
    (fun _ inst c w =>
       match inst with
       | LogoutMessageListener =>
           (Returned (contains (payload_data (payload c)) "logout", c), w)
       | PluginListener _ name =>
           if String.eqb name "FaultyMessageListener"
           then (Thrown (Error "matcher failed"), w)
           else if String.eqb name "SilentMessageListener"
                then (Returned (false, c), w)
                else (Returned (true, noteCommand c), w)
       end)
    (fun _ inst c w =>
       match inst with
       | LogoutMessageListener => (Returned ([mkMessage PLAIN_TEXT "Logged out"], c), w)
       | PluginListener _ name =>
           if String.eqb name "CrashMessageListener"
           then (Thrown (Error "handler failed"), w)
           else (Returned ([mkMessage PLAIN_TEXT name], c), w)
       end)
    (fun _ _ w => (Returned tt, w))
    (fun c w =>
       (existsb (String.eqb (user_name (chatting_user (chatting (context c))))) (sessions w), w))
    (fun _ w => (Returned tt, w))
    (fun user w => ("https://chat.example/login/" +:+ user_id user, w))
    (fun _ w => (InitDone, w))
    (fun path w => existsb (String.eqb path) (files w))
    (fun _ w => Returned (manifestYaml w))
    (fun path w =>
       match assoc path (packageNames w) with
       | Some name => Returned name
       | None => Returned EmptyString
       end)
    (fun _ w => (Returned tt, w))
    (fun _ w => (Returned tt, w))
    "/"
    "/opt/chat/dist/bot"
    "/opt/chat/plugins".

(** plugin.yaml: priorities 3, 1, 4, 1. *)
Definition manifest : list IChatPlugin :=
  [mkPlugin "alpha" "local" 1 3 ["CrashMessageListener"];
   mkPlugin "bravo" "local" 1 1 ["BravoMessageListener"; "SilentMessageListener"];
   mkPlugin "charlie" "local" 1 4 ["CharlieMessageListener"; "CharlieEventListener"];
   mkPlugin "@zowe/delta" "local" 1 1 ["DeltaMessageListener"; "Helper"]].

Definition installed : World :=
  mkWorld
    ["/opt/chat/plugins/plugin.yaml"; "/opt/chat/plugins/alpha";
     "/opt/chat/plugins/bravo"; "/opt/chat/plugins/charlie";
     "/opt/chat/plugins/@zowe/delta"]
    (YamlPlugins manifest)
    [("/opt/chat/plugins/alpha/package.json", "alpha");
     ("/opt/chat/plugins/bravo/package.json", "bravo");
     ("/opt/chat/plugins/charlie/package.json", "charlie");
     ("/opt/chat/plugins/@zowe/delta/package.json", "@zowe/delta")]
    ["alice"].

(** The same machine with a plugin.yaml that names no listener of an
    unknown kind. *)
Definition tidyManifest : list IChatPlugin :=
  [mkPlugin "alpha" "local" 1 3 ["CrashMessageListener"];
   mkPlugin "bravo" "local" 1 1 ["BravoMessageListener"; "SilentMessageListener"];
   mkPlugin "charlie" "local" 1 4 ["CharlieMessageListener"; "CharlieEventListener"];
   mkPlugin "@zowe/delta" "local" 1 1 ["DeltaMessageListener"]].

Definition tidy : World :=
  mkWorld (files installed) (YamlPlugins tidyManifest) (packageNames installed)
          (sessions installed).

(** The same machine without any plugin.yaml. *)
Definition bare : World := mkWorld [] YamlNotAnArray [] ["alice"].

Definition chatConfig (limit : Z) : AppConfig :=
  mkConfig MATTERMOST limit "zowe" "zowe-teams" "zowe-slack".

(** The process before [new ChatBot]. *)
Definition boot (w : World) : Sys World := mkSys [] w.

(** A bot under construction, before [setBotListeners]. *)
Definition fresh (limit : Z) (w : World) : Process World :=
  mkProcess
    (mkChatBot (chatConfig limit) (ZOWE_CHAT_PLUGINS_DIR host) []
               (BotMessageListener_new (chatConfig limit)) (mkBotEventListener []))
    (boot w).

(** The message listener and the system once the bot has started. *)
Definition served (limit : Z) : BotMessageListener * Sys World :=
  match ChatBot_new host (chatConfig limit) (boot installed) with
  | (Running bot, s, _) => (botMessageListener bot, s)
  | (Exited _, s, _) => (BotMessageListener_new (chatConfig limit), s)
  end.

Definition message (sender text : string) : IChatContextData :=
  mkContext (mkPayload PT_MESSAGE text)
            (mkChatContext (mkChatting (mkUser ("id-" +:+ sender) sender) "town-square"))
            None.

(** The inbound context once [matchMessage] has seen it. *)
Definition matched (limit : Z) (C : IChatContextData) : IChatContextData :=
  match matchMessage host (fst (served limit)) C (snd (served limit)) with
  | (Returned (_, C'), _, _) => C'
  | (Thrown _, _, _) => C
  end.

(** A listener whose [matchMessage] raises, registered last. *)
Definition faultyEntry : IChatListenerRegistryEntry :=
  mkEntry "FaultyMessageListener" LT_MESSAGE
          (PluginListener "/opt/chat/plugins/bravo" "FaultyMessageListener") (Shared 2%nat).

Definition withFaulty (limit : Z) : BotMessageListener * Sys World :=
  fst (step host (OpRegister faultyEntry) (served limit)).


End Scenario.

(** * More of the sample chat server

    Contexts, hosts and configurations for the examples of the further
    properties. *)

Module Fixtures.
Import Scenario.

(** An event that mentions the bot. *)
Definition buttonClick : IChatContextData :=
  mkContext (mkPayload PT_EVENT "@zowe clicked")
            (mkChatContext (mkChatting (mkUser "id-alice" "alice") "town-square"))
            None.

(** A context on which a match pass has recorded that nothing matched. *)
Definition unmatched (sender : string) : IChatContextData :=
  mkContext (mkPayload PT_MESSAGE "@zowe nothing")
            (mkChatContext (mkChatting (mkUser ("id-" +:+ sender) sender) "town-square"))
            (Some (mkExtra None (Some []) (Some []) ∅)).

(** The sample host with a security manager that cannot find a principal. *)
Definition strictHost : Host World :=
  mkHost World
    (listener_matchMessage host) (listener_processMessage host) (bot_send host)
    (security_isAuthenticated host)
    (fun _ w => (Thrown (Error "no principal"), w))
    (webapp_generateChallenge host) (init_capabilities host) (fs_existsSync host)
    (yaml_load host) (Util_getPackageName host) (node_require host) (node_new host)
    (path_sep host) (dirname host) (ZOWE_CHAT_PLUGINS_DIR host).

(** The sample machine with the plugin charlie not installed. *)
Definition partly : World :=
  mkWorld
    ["/opt/chat/plugins/plugin.yaml"; "/opt/chat/plugins/alpha";
     "/opt/chat/plugins/bravo"; "/opt/chat/plugins/@zowe/delta"]
    (manifestYaml installed) (packageNames installed) (sessions installed).

(** The sample machine with an empty plugin.yaml. *)
Definition broken : World :=
  mkWorld (files installed) YamlUndefined (packageNames installed) (sessions installed).

(** The files of the sample machine, read. *)
Definition readFileSync (path : string) (w : World) : Outcome string :=
  if existsb (String.eqb path) (files w)
  then Returned ("content of " +:+ path)
  else Thrown (Error ("ENOENT: no such file or directory, open " +:+ path)).

Definition getApplication (w : World) : Outcome string := Returned "express".

Definition slackSection (socketMode httpEndpoint : bool) : BotOpts.SlackSection :=
  BotOpts.mkSlackSection "zowe-slack" "secret" "xoxb" socketMode "xapp" httpEndpoint
                         "/api/v1/slack".

(** A configuration for [generateBotOpts]: the server options are a port. *)
Definition botConfig (tool : IChatToolType) (protocol : string)
    (socketMode httpEndpoint : bool) : @BotOpts.BotConfig Z :=
  BotOpts.mkBotConfig (BotOpts.KnownTool tool) 7701 "info"
    (BotOpts.mkMattermostOption protocol "/opt/chat/plugins/plugin.yaml"
                                {["hostName" := "mm.example"]})
    (slackSection socketMode httpEndpoint)
    (BotOpts.mkMsteamsOption "zowe-teams" "id" "password").

(** A page that notes what its callbacks were told. *)
Definition notes (told : bool) (pg : @AuthApi.Page (list bool))
  : Outcome unit * @AuthApi.Page (list bool) :=
  (Returned tt, AuthApi.mkPage (AuthApi.chat_isAuthenticated pg) (AuthApi.page pg ++ [told])).

Definition leaves (_ : unit) (pg : @AuthApi.Page (list bool))
  : Outcome unit * @AuthApi.Page (list bool) :=
  (Returned tt, pg).

End Fixtures.
(** * Lemmas and theorems *)

(** Nested induction over contexts: the contexts recorded inside
    [extraData.contexts] satisfy the property as well. *)
Lemma IChatContextData_nested_ind (P : IChatContextData -> Prop) :
  (forall p k, P (mkContext p k None)) ->
  (forall p k pl ls cu, P (mkContext p k (Some (mkExtra pl ls None cu)))) ->
  (forall p k pl ls cs cu,
      Forall P cs -> P (mkContext p k (Some (mkExtra pl ls (Some cs) cu)))) ->
  forall c, P c.
Proof.
  intros Hnone Hflat Hrec. fix IH 1.
  intros [p k [[pl ls [cs|] cu]|]]; [ | apply Hflat | apply Hnone].
  apply Hrec. induction cs as [|c cs IHcs]; constructor; [apply IH | exact IHcs].
Qed.

(** ** Reading a trace *)

Lemma matchCalls_app t1 t2 : matchCalls (t1 ++ t2) = matchCalls t1 ++ matchCalls t2.
Proof. apply omap_app. Qed.

Lemma processCalls_app t1 t2 : processCalls (t1 ++ t2) = processCalls t1 ++ processCalls t2.
Proof. apply omap_app. Qed.

Lemma sendCalls_app t1 t2 : sendCalls (t1 ++ t2) = sendCalls t1 ++ sendCalls t2.
Proof. apply omap_app. Qed.

Lemma errorLogged_app_r e t1 t2 : errorLogged e t2 -> errorLogged e (t1 ++ t2).
Proof. unfold errorLogged. rewrite in_app_iff. auto. Qed.

Lemma errorLogged_app_l e t1 t2 : errorLogged e t1 -> errorLogged e (t1 ++ t2).
Proof. unfold errorLogged. rewrite in_app_iff. auto. Qed.

(** ** The monad, step by step *)

Section MonadLemmas.
Context {St : Type}.

Lemma bind_inv {A B} (m : M St A) (k : A -> M St B) s out s' t :
  bind m k s = (out, s', t) ->
  (exists a s1 t1 t2,
      m s = (Returned a, s1, t1) /\ k a s1 = (out, s', t2) /\ t = t1 ++ t2)
  \/ (exists e, m s = (Thrown e, s', t) /\ out = Thrown e).
Proof.
  unfold bind. destruct (m s) as [[[a|e] s1] t1].
  - destruct (k a s1) as [[r s2] t2] eqn:Hk. intros [= <- <- <-].
    left. exists a, s1, t1, t2. auto.
  - intros [= <- <- <-]. right. exists e. auto.
Qed.

End MonadLemmas.

(** ** The matching loop *)

Section MatchLoop.
Context {W : Type} (host : Host W).

(** One turn of the loop. *)
Lemma findMatched_cons listener rest C listeners contexts (s : Sys W) :
  findMatched host (listener :: rest) C listeners contexts s =
  match listener_matchMessage host (store s) (listenerInstance listener)
          (cloneFor (store s) C listener) (world s) with
  | (Returned (matched, contextData'), w) =>
      let '(r, s2, t2) :=
        findMatched host rest C
          (if matched then listeners ++ [listener] else listeners)
          (if matched then contexts ++ [contextData'] else contexts)
          (mkSys (store s) w) in
      (r, s2,
       CallMatchMessage listener (cloneFor (store s) C listener)
                        (Returned (matched, contextData')) :: t2)
  | (Thrown e, w) =>
      (Thrown e, mkSys (store s) w,
       [CallMatchMessage listener (cloneFor (store s) C listener) (Thrown e)])
  end.
Proof.
  cbn. unfold bind, call_matchMessage, get_store, call, cloneFor. cbn.
  destruct (listener_matchMessage _ _ _ _ _) as [[[[] c']|e] w]; cbn;
    try destruct (findMatched _ _ _ _ _ _) as [[? ?] ?]; reflexivity.
Qed.

Lemma matchCalls_cons_call l a r t :
  matchCalls (CallMatchMessage l a r :: t) = mkMatchCall l a r :: matchCalls t.
Proof. reflexivity. Qed.

(** What the loop has done when it ends, normally or not. *)
Lemma findMatched_run registered :
  forall C listeners contexts (s : Sys W) out s' t,
    findMatched host registered C listeners contexts s = (out, s', t) ->
    store s' = store s /\
    t = List.map (fun c => CallMatchMessage (mc_listener c) (mc_arg c) (mc_res c))
                 (matchCalls t) /\
    Forall (fun c => mc_arg c = cloneFor (store s) C (mc_listener c)) (matchCalls t) /\
    match out with
    | Returned (listeners', contexts') =>
        List.map mc_listener (matchCalls t) = registered /\
        Forall (fun c => is_thrown (mc_res c) = false) (matchCalls t) /\
        listeners' = listeners ++ List.map fst (omap accepted (matchCalls t)) /\
        contexts' = contexts ++ List.map snd (omap accepted (matchCalls t))
    | Thrown e =>
        exists calls l a,
          matchCalls t = calls ++ [mkMatchCall l a (Thrown e)] /\
          Forall (fun c => is_thrown (mc_res c) = false) calls /\
          List.map mc_listener (matchCalls t) = take (S (length calls)) registered
    end.
Proof.
  induction registered as [|listener rest IH]; intros C ls cs s out s' t Hrun.
  - cbn in Hrun. injection Hrun as <- <- <-. cbn. rewrite !app_nil_r.
    repeat split; constructor.
  - rewrite findMatched_cons in Hrun.
    destruct (listener_matchMessage _ _ _ _ _) as [[[matched c']|e] w].
    + destruct (findMatched _ _ _ _ _ _) as [[o s2] t2] eqn:Hrest.
      injection Hrun as <- <- <-.
      apply IH in Hrest. cbn [store] in Hrest.
      destruct Hrest as (Hst & Ht & Hargs & Hout).
      rewrite matchCalls_cons_call.
      split; [exact Hst|]. split; [cbn [List.map mc_listener mc_arg mc_res]; f_equal; exact Ht|].
      split; [constructor; [reflexivity | exact Hargs]|].
      destruct o as [[ls' cs']|e].
      * destruct Hout as (Hreg & Hq & Hls & Hcs).
        split; [cbn; f_equal; exact Hreg|].
        split; [constructor; [reflexivity|exact Hq]|].
        subst ls' cs'. cbn [omap list_omap]. unfold accepted at 1 3. cbn [mc_res mc_listener].
        destruct matched; cbn; rewrite <- ?app_assoc; auto.
      * destruct Hout as (calls & l & a & Hcalls & Hq & Hreg).
        eexists (_ :: calls), l, a. rewrite Hcalls. split; [reflexivity|].
        split; [constructor; [reflexivity | exact Hq]|].
        rewrite Hcalls in Hreg. cbn. f_equal. exact Hreg.
    + injection Hrun as <- <- <-. rewrite matchCalls_cons_call.
      split; [reflexivity|]. split; [reflexivity|].
      split; [constructor; [reflexivity | constructor]|].
      exists [], listener, (cloneFor (store s) C listener).
      cbn. repeat split. constructor.
Qed.

End MatchLoop.

Section MatchMessage.
Context {W : Type} (host : Host W).

(** [matchMessage], path by path. *)
Lemma matchMessage_run this C (s : Sys W) :
  matchMessage host this C s =
  if addressed this C then
    match payload_type (payload C) with
    | PT_MESSAGE =>
        match findMatched host (chatListeners this) C [] [] s with
        | (Returned (listeners, contexts), s1, t1) =>
            (Returned (Some (0 <? length listeners)%nat, setPools C listeners contexts), s1,
             Log LStart [Str "matchMessage"] :: t1
             ++ [Log LInfo [Num (Z.of_nat (length listeners)); Str " of ";
                            Num (Z.of_nat (length (chatListeners this)));
                            Str " registered listeners can handle the message!"];
                 Log LDebug [Str "Matched listeners:"; Entries listeners];
                 Log LEnd [Str "matchMessage"]])
        | (Thrown e, s1, t1) =>
            (Returned (None, C), s1,
             Log LStart [Str "matchMessage"] :: t1
             ++ [Log LError [Err e]; Log LEnd [Str "matchMessage"]])
        end
    | PT_EVENT =>
        (Returned (Some false, setPools C [] []), s,
         [Log LStart [Str "matchMessage"];
          Log LError [Str "Wrong payload type: "; PayloadKind PT_EVENT];
          Log LInfo [Num 0; Str " of "; Num (Z.of_nat (length (chatListeners this)));
                     Str " registered listeners can handle the message!"];
          Log LDebug [Str "Matched listeners:"; Entries []];
          Log LEnd [Str "matchMessage"]])
    end
  else
    (Returned (Some false, C), s,
     [Log LStart [Str "matchMessage"];
      Log LDebug [Str "Received message is not for @"; Str (botName this);
                  Str ", ignoring."];
      Log LEnd [Str "matchMessage"]]).
Proof.
  unfold matchMessage, addressed.
  destruct (Js.indexOf _ _ =? -1); cbn [negb]; [reflexivity|].
  destruct (payload_type (payload C)); [|reflexivity].
  unfold bind, finally, try_catch, log, emit, ret. 
  destruct (findMatched host (chatListeners this) C [] [] s) as [[[[ls cs]|e] s1] t1]; cbn.
  - rewrite <- !app_assoc. reflexivity.
  - rewrite <- !app_assoc. reflexivity.
Qed.

Lemma accepted_sublist (calls : list MatchCall) :
  sublist (List.map fst (omap accepted calls)) (List.map mc_listener calls).
Proof.
  induction calls as [|c calls IH]; [constructor|].
  cbn. unfold accepted at 1. destruct (mc_res c) as [[[] c']|e]; cbn.
  - apply sublist_skip, IH.
  - apply sublist_cons, IH.
  - apply sublist_cons, IH.
Qed.

(** C1 (as amended).  A context whose text does not mention the bot is not
    matched: [matchMessage] returns false, consults no listener and leaves
    the context alone.  For a context that is addressed to the bot and is a
    plain message, and a pass in which no listener raises: every registered
    listener is consulted exactly once, in registration order, each on its own
    clone of the inbound context; [matchMessage] returns true exactly when
    one of them answered true; and the pools recorded on the inbound context
    are the listeners that answered true, in registration order, each with
    its clone as the listener left it. *)
Theorem matchMessage_addressed_matches :
  forall this C (s : Sys W) out s' t,
    matchMessage host this C s = (out, s', t) ->
    (addressed this C = false ->
     out = Returned (Some false, C) /\ matchCalls t = []) /\
    (addressed this C = true ->
     payload_type (payload C) = PT_MESSAGE ->
     Forall (fun c => is_thrown (mc_res c) = false) (matchCalls t) ->
     let calls := matchCalls t in
     let matched := omap accepted calls in
     List.map mc_listener calls = chatListeners this /\
     Forall (fun c => mc_arg c = cloneFor (store s) C (mc_listener c)) calls /\
     sublist (List.map fst matched) (chatListeners this) /\
     exists result,
       out = Returned (Some result,
                       setPools C (List.map fst matched) (List.map snd matched)) /\
       (result = true <->
        Exists (fun c => exists contextData, mc_res c = Returned (true, contextData))
               calls)).
Proof.
  intros this C s out s' t Hrun. split.
  { intros Haddr. rewrite matchMessage_run, Haddr in Hrun.
    injection Hrun as <- <- <-. split; reflexivity. }
  intros Haddr Hmsg Hquiet. cbv zeta.
  rewrite matchMessage_run, Haddr, Hmsg in Hrun.
  destruct (findMatched host (chatListeners this) C [] [] s) as [[o s1] t1] eqn:Hloop.
  apply findMatched_run in Hloop. destruct Hloop as (_ & _ & Hargs & Hout).
  assert (Hcalls : matchCalls t = matchCalls t1).
  { destruct o as [[ls cs]|e]; injection Hrun as <- <- <-;
      change (Log ?l ?x :: ?t) with ([Log l x] ++ t);
      rewrite !matchCalls_app; cbn; rewrite app_nil_r; reflexivity. }
  rewrite Hcalls in Hquiet |- *.
  destruct o as [[ls cs]|e].
  - destruct Hout as (Hreg & _ & Hls & Hcs). cbn in Hls, Hcs.
    injection Hrun as <- <- <-.
    split; [exact Hreg|]. split; [exact Hargs|].
    split; [rewrite <- Hreg; apply accepted_sublist|].
    exists (0 <? length ls)%nat. rewrite Hls, Hcs. split; [reflexivity|].
    rewrite Exists_exists. split.
    + intros Hpos. apply Nat.ltb_lt in Hpos.
      destruct (omap accepted (matchCalls t1)) as [|[l c'] rest] eqn:Hacc;
        [cbn in Hpos; lia|].
      assert (Hin : (l, c') ∈ omap accepted (matchCalls t1))
        by (rewrite Hacc; apply list_elem_of_here).
      apply list_elem_of_omap in Hin. destruct Hin as (c & Hc & Hacc').
      exists c. split; [exact Hc|].
      unfold accepted in Hacc'. destruct (mc_res c) as [[[] c'']|e]; try discriminate.
      eauto.
    + intros (c & Hc & c' & Hres). apply Nat.ltb_lt.
      assert (Hin : (mc_listener c, c') ∈ omap accepted (matchCalls t1)).
      { apply list_elem_of_omap. exists c. split; [exact Hc|].
        unfold accepted. rewrite Hres. reflexivity. }
      destruct (omap accepted (matchCalls t1)); [inversion Hin | cbn; lia].
  - exfalso. destruct Hout as (cs & l & a & Heq & _).
    rewrite Heq in Hquiet. apply Forall_app in Hquiet.
    destruct Hquiet as [_ Hlast]. inversion Hlast as [|? ? Hbad]. discriminate.
Qed.

(** C9.  When a listener's [matchMessage] raises, the pass ends there: the
    error is logged, [matchMessage] itself returns (with [undefined]), and the
    inbound context is left exactly as it came in, so nothing of what the
    earlier listeners matched is recorded on it. *)
Theorem matchMessage_raise_loses_matches :
  forall this C (s : Sys W) out s' t k c e,
    matchMessage host this C s = (out, s', t) ->
    matchCalls t !! k = Some c ->
    mc_res c = Thrown e ->
    out = Returned (None, C) /\
    errorLogged e t /\
    length (matchCalls t) = S k.
Proof.
  intros this C s out s' t k c e Hrun Hk Hres.
  rewrite matchMessage_run in Hrun.
  destruct (addressed this C);
    [|injection Hrun as <- <- <-; cbn in Hk; rewrite lookup_nil in Hk; discriminate].
  destruct (payload_type (payload C));
    [|injection Hrun as <- <- <-; cbn in Hk; rewrite lookup_nil in Hk; discriminate].
  destruct (findMatched host (chatListeners this) C [] [] s) as [[o s1] t1] eqn:Hloop.
  apply findMatched_run in Hloop. destruct Hloop as (_ & _ & _ & Hout).
  assert (Hcalls : matchCalls t = matchCalls t1).
  { destruct o as [[ls cs]|e']; injection Hrun as <- <- <-;
      change (Log ?l ?x :: ?t) with ([Log l x] ++ t);
      rewrite !matchCalls_app; cbn; rewrite app_nil_r; reflexivity. }
  rewrite Hcalls in Hk |- *.
  destruct o as [[ls cs]|e'].
  - exfalso. destruct Hout as (_ & Hquiet & _).
    rewrite Forall_lookup in Hquiet. specialize (Hquiet k c Hk).
    rewrite Hres in Hquiet. discriminate.
  - destruct Hout as (calls & l & a & Heq & Hquiet & _).
    rewrite Heq in Hk |- *.
    destruct (decide (k < length calls)%nat) as [Hlt|Hge].
    + exfalso. rewrite lookup_app_l in Hk by exact Hlt.
      rewrite Forall_lookup in Hquiet. specialize (Hquiet k c Hk).
      rewrite Hres in Hquiet. discriminate.
    + rewrite lookup_app_r in Hk by lia.
      destruct (k - length calls)%nat as [|n] eqn:Hn; [|cbn in Hk; discriminate].
      cbn in Hk. injection Hk as <-. cbn in Hres. injection Hres as ->.
      injection Hrun as <- <- <-.
      split; [reflexivity|]. split.
      * unfold errorLogged. cbn. right. rewrite in_app_iff. right. left. reflexivity.
      * rewrite length_app. cbn. lia.
Qed.

End MatchMessage.
(** ** The dispatch pass *)

Section Dispatch.
Context {W : Type} (host : Host W).

(** One turn of the dispatch loop. *)
Lemma processLoop_S n i matchedListeners listenerContexts (s : Sys W) :
  processLoop host (S n) i matchedListeners listenerContexts s =
  match matchedListeners !! i with
  | None =>
      (Thrown (TypeError "Cannot read properties of undefined (reading 'listenerInstance')"),
       s, [])
  | Some listener =>
      match listenerContexts with
      | None =>
          (Thrown (TypeError ("Cannot read properties of undefined (reading '"
                              +:+ Js.toString i +:+ "')")), s, [])
      | Some contexts =>
          match listener_processMessage host (store s) (listenerInstance listener)
                  (contexts !! i) (world s) with
          | (Thrown e, w) =>
              (Thrown e, mkSys (store s) w,
               [CallProcessMessage listener (contexts !! i) (Thrown e)])
          | (Returned (msgs, contextData'), w) =>
              match bot_send host contextData' msgs w with
              | (Thrown e, w2) =>
                  (Thrown e, mkSys (store s) w2,
                   [CallProcessMessage listener (contexts !! i)
                                       (Returned (msgs, contextData'));
                    Log LDebug [Str "Message sent to channel: "; Messages msgs];
                    CallSend contextData' msgs (Thrown e)])
              | (Returned u, w2) =>
                  let '(r, s3, t3) :=
                    processLoop host n (S i) matchedListeners listenerContexts
                                (mkSys (store s) w2) in
                  (r, s3,
                   CallProcessMessage listener (contexts !! i)
                                      (Returned (msgs, contextData'))
                   :: Log LDebug [Str "Message sent to channel: "; Messages msgs]
                   :: CallSend contextData' msgs (Returned u) :: t3)
              end
          end
      end
  end.
Proof.
  cbn [processLoop]. unfold bind at 1.
  destruct (matchedListeners !! i) as [listener|]; [|reflexivity].
  unfold ret at 1. cbn. unfold bind at 1.
  destruct listenerContexts as [contexts|]; [|reflexivity].
  unfold ret at 1. cbn.
  unfold bind, call_processMessage, call_send, call, get_store, log, emit. cbn.
  destruct (listener_processMessage _ _ _ _ _) as [[[msgs c']|e] w]; cbn; [|reflexivity].
  destruct (bot_send _ _ _ _) as [[u|e] w2]; cbn; [|reflexivity].
  destruct (processLoop _ _ _ _ _ _) as [[r s3] t3]. reflexivity.
Qed.

Lemma processCalls_cons_process l a r t :
  processCalls (CallProcessMessage l a r :: t) = mkProcessCall l a r :: processCalls t.
Proof. reflexivity. Qed.

Lemma processCalls_cons_log lv x t : processCalls (Log lv x :: t) = processCalls t.
Proof. reflexivity. Qed.

Lemma processCalls_cons_send c m r t : processCalls (CallSend c m r :: t) = processCalls t.
Proof. reflexivity. Qed.

Lemma sendCalls_cons_process l a r t :
  sendCalls (CallProcessMessage l a r :: t) = sendCalls t.
Proof. reflexivity. Qed.

Lemma sendCalls_cons_log lv x t : sendCalls (Log lv x :: t) = sendCalls t.
Proof. reflexivity. Qed.

Lemma sendCalls_cons_send c m r t :
  sendCalls (CallSend c m r :: t) = mkSendCall c m r :: sendCalls t.
Proof. reflexivity. Qed.

(** What the dispatch loop has done when it ends, normally or not:
    - the listeners called are consecutive matched listeners from [i] on,
      each on the context of its index, and at most [n] of them;
    - each send carries what the listener of the same turn returned;
    - a call that raises is the last one, and its error is the loop's;
    - with contexts at hand, enough listeners and no call raising, the loop
      runs all [n] turns. *)
Lemma processLoop_run n :
  forall i ls cs (s : Sys W) out s' t,
    processLoop host n i ls cs s = (out, s', t) ->
    let pcs := processCalls t in
    let scs := sendCalls t in
    List.map pc_listener pcs = take (length pcs) (drop i ls) /\
    (length pcs <= n)%nat /\
    (length scs <= length pcs)%nat /\
    (forall j c, pcs !! j = Some c ->
       exists contexts, cs = Some contexts /\ pc_arg c = contexts !! (i + j)%nat) /\
    (forall j c, scs !! j = Some c ->
       exists p msgs a, pcs !! j = Some p /\ pc_res p = Returned (msgs, a) /\
                        sc_target c = a /\ sc_msgs c = msgs) /\
    (forall k c e, pcs !! k = Some c -> pc_res c = Thrown e ->
       out = Thrown e /\ length pcs = S k /\ length scs = k) /\
    (forall k c e, scs !! k = Some c -> sc_res c = Thrown e ->
       out = Thrown e /\ length pcs = S k /\ length scs = S k) /\
    (is_Some cs -> (i + n <= length ls)%nat ->
     Forall (fun c => is_thrown (pc_res c) = false) pcs ->
     Forall (fun c => is_thrown (sc_res c) = false) scs ->
     out = Returned tt /\ length pcs = n /\ length scs = n).
Proof.
  induction n as [|n IH]; intros i ls cs s out s' t Hrun; cbv zeta.
  - cbn in Hrun. injection Hrun as <- <- <-. cbn.
    refine (conj _ (conj _ (conj _ (conj _ (conj _ (conj _ (conj _ _)))))));
      try reflexivity; try lia; try (intros; discriminate).
    intros. repeat split; lia.
  - rewrite processLoop_S in Hrun.
    destruct (ls !! i) as [listener|] eqn:Hl.
    2:{ injection Hrun as <- <- <-. cbn.
        refine (conj _ (conj _ (conj _ (conj _ (conj _ (conj _ (conj _ _)))))));
          try reflexivity; try lia; try (intros; discriminate).
        intros _ Hlen. apply lookup_ge_None in Hl. lia. }
    destruct cs as [contexts|].
    2:{ injection Hrun as <- <- <-. cbn.
        refine (conj _ (conj _ (conj _ (conj _ (conj _ (conj _ (conj _ _)))))));
          try reflexivity; try lia; try (intros; discriminate).
        intros [? ?]. discriminate. }
    destruct (listener_processMessage _ _ _ _ _) as [[[msgs c']|e] w].
    2:{ injection Hrun as <- <- <-.
        rewrite processCalls_cons_process, sendCalls_cons_process. cbn.
        rewrite (drop_S _ _ _ Hl). cbn.
        refine (conj _ (conj _ (conj _ (conj _ (conj _ (conj _ (conj _ _)))))));
          try reflexivity; try lia; try (intros; discriminate).
        - intros [|j] c Hc; [|discriminate]. injection Hc as <-.
          exists contexts. rewrite Nat.add_0_r. auto.
        - intros [|k] c e' Hc Hres; [|discriminate]. injection Hc as <-.
          cbn in Hres. injection Hres as <-. auto.
        - intros _ _ Hq _. inversion Hq; discriminate. }
    destruct (bot_send _ _ _ _) as [[u|e] w2].
    2:{ injection Hrun as <- <- <-.
        rewrite processCalls_cons_process, sendCalls_cons_process.
        rewrite processCalls_cons_log, sendCalls_cons_log.
        rewrite processCalls_cons_send, sendCalls_cons_send. cbn.
        rewrite (drop_S _ _ _ Hl). cbn.
        refine (conj _ (conj _ (conj _ (conj _ (conj _ (conj _ (conj _ _)))))));
          try reflexivity; try lia; try (intros; discriminate).
        - intros [|j] c Hc; [|discriminate]. injection Hc as <-.
          exists contexts. rewrite Nat.add_0_r. auto.
        - intros [|j] c Hc; [|discriminate]. injection Hc as <-.
          eexists _, msgs, c'. cbn. auto.
        - intros [|k] c e' Hc Hres; [|discriminate]. injection Hc as <-. discriminate.
        - intros [|k] c e' Hc Hres; [|discriminate]. injection Hc as <-.
          cbn in Hres. injection Hres as <-. auto.
        - intros _ _ _ Hq. inversion Hq; discriminate. }
    destruct (processLoop _ _ _ _ _ _) as [[r s3] t3] eqn:Hrest.
    injection Hrun as <- <- <-.
    apply IH in Hrest. cbv zeta in Hrest.
    destruct Hrest as (Hls & Hn & Hsp & Hargs & Hsends & Hpthrow & Hsthrow & Hdone).
    rewrite processCalls_cons_process, sendCalls_cons_process.
    rewrite processCalls_cons_log, sendCalls_cons_log.
    rewrite processCalls_cons_send, sendCalls_cons_send.
    cbn [length List.map pc_listener].
    rewrite (drop_S _ _ _ Hl). cbn [take].
    split; [f_equal; exact Hls|].
    split; [lia|]. split; [lia|].
    split.
    { intros [|j] c Hc.
      - injection Hc as <-. exists contexts. rewrite Nat.add_0_r. auto.
      - cbn in Hc. destruct (Hargs j c Hc) as (cs' & Hcs & Harg).
        exists cs'. split; [exact Hcs|]. rewrite Harg. f_equal. lia. }
    split.
    { intros [|j] c Hc.
      - injection Hc as <-. eexists _, msgs, c'. cbn. auto.
      - cbn in Hc. exact (Hsends j c Hc). }
    split.
    { intros [|k] c e Hc Hres.
      - injection Hc as <-. discriminate.
      - cbn in Hc. destruct (Hpthrow k c e Hc Hres) as (-> & Hp & Hs).
        repeat split; lia. }
    split.
    { intros [|k] c e Hc Hres.
      - injection Hc as <-. discriminate.
      - cbn in Hc. destruct (Hsthrow k c e Hc Hres) as (-> & Hp & Hs).
        repeat split; lia. }
    intros Hcs Hlen Hpq Hsq.
    inversion Hpq as [|? ? _ Hpq']. inversion Hsq as [|? ? _ Hsq']. subst.
    destruct (Hdone Hcs ltac:(lia) Hpq' Hsq') as (-> & Hp & Hs).
    repeat split; lia.
Qed.

(** [processMessage], path by path. *)
Lemma processMessage_run this C (s : Sys W) :
  processMessage host this C s =
  let user := chatting_user (chatting (context C)) in
  let '(authenticated, w1) := security_isAuthenticated host C (world s) in
  let t0 := [Log LStart [Str "processMessage"]; CallIsAuthenticated C authenticated] in
  if authenticated then
    let '(p, w2) := security_getPrincipal host C w1 in
    let s2 := mkSys (store s) w2 in
    let t1 := t0 ++ [CallGetPrincipal C p] in
    match p with
    | Thrown e =>
        (Returned tt, s2, t1 ++ [Log LError [Err e]; Log LEnd [Str "processMessage"]])
    | Returned _ =>
        match extraData C with
        | None =>
            (Returned tt, s2,
             t1 ++ [Log LError [Err (TypeError
                      "Cannot read properties of undefined (reading 'listeners')")];
                    Log LEnd [Str "processMessage"]])
        | Some x =>
            let t2 := t1 ++ [Log LInfo [Str "pluginLimit: ";
                                         Num (pluginLimit (config this))]] in
            match extra_listeners x with
            | None =>
                (Returned tt, s2,
                 t2 ++ [Log LError [Err (TypeError
                          "Cannot read properties of undefined (reading 'length')")];
                        Log LEnd [Str "processMessage"]])
            | Some ls =>
                let n := effectiveLimit (pluginLimit (config this)) (length ls) in
                let '(r, s3, t3) :=
                  processLoop host (Z.to_nat n) 0 ls (extra_contexts x) s2 in
                (Returned tt, s3,
                 t2 ++ [Log LInfo [Num n; Str " of "; Num (Z.of_nat (length ls));
                          Str " matched listeners will response to the matched message!"]]
                 ++ t3
                 ++ match r with
                    | Returned _ => []
                    | Thrown e => [Log LError [Err e]]
                    end
                 ++ [Log LEnd [Str "processMessage"]])
            end
        end
    end
  else
    let '(redirect, w2) := webapp_generateChallenge host user w1 in
    let s2 := mkSys (store s) w2 in
    let t1 := t0 ++ [CallGenerateChallenge user redirect;
                     Log LDebug [Str "Creating challenge link "; Str redirect;
                                 Str " for user "; Str (user_name user)]] in
    match extraData C with
    | None =>
        (Thrown (TypeError "Cannot read properties of undefined (reading 'contexts')"),
         s2, t1)
    | Some x =>
        match extra_contexts x with
        | None =>
            (Thrown (TypeError "Cannot read properties of undefined (reading '0')"),
             s2, t1)
        | Some contexts =>
            let '(r, w3) := bot_send host (contexts !! 0%nat) [loginPrompt user redirect] w2 in
            (r, mkSys (store s) w3,
             t1 ++ [CallSend (contexts !! 0%nat) [loginPrompt user redirect] r]
             ++ match r with
                | Returned _ => [Log LEnd [Str "processMessage"]]
                | Thrown _ => []
                end)
        end
    end.
Proof.
  unfold processMessage, loginPrompt.
  unfold bind at 1. unfold log at 1, emit at 1. cbn.
  unfold bind at 1. unfold call_total at 1. cbn.
  destruct (security_isAuthenticated host C (world s)) as [[] w1]; cbn.
  - unfold finally, try_catch. unfold bind at 1. unfold call at 1. cbn.
    destruct (security_getPrincipal host C w1) as [[u|e] w2]; cbn; [|reflexivity].
    destruct (extraData C) as [x|]; cbn; [|reflexivity].
    destruct (extra_listeners x) as [ls|]; cbn; [|reflexivity].
    unfold bind, log, emit. cbn.
    destruct (processLoop _ _ _ _ _ _) as [[[[]|e] s3] t3]; cbn;
      rewrite <- ?app_assoc; reflexivity.
  - unfold bind at 1. unfold call_total at 1. cbn.
    destruct (webapp_generateChallenge _ _ _) as [redirect w2]; cbn.
    unfold firstContext.
    destruct (extraData C) as [x|]; cbn; [|reflexivity].
    destruct (extra_contexts x) as [cs|]; cbn; [|reflexivity].
    unfold bind, call_send, call, log, emit. cbn.
    destruct (bot_send _ _ _ _) as [[[]|e] w3]; cbn; reflexivity.
Qed.

Lemma processCalls_cons ev t :
  processCalls (ev :: t)
  = match as_processCall ev with
    | Some c => c :: processCalls t
    | None => processCalls t
    end.
Proof. reflexivity. Qed.

Lemma sendCalls_cons ev t :
  sendCalls (ev :: t)
  = match as_sendCall ev with
    | Some c => c :: sendCalls t
    | None => sendCalls t
    end.
Proof. reflexivity. Qed.

Lemma quiet_cons ev t : quiet (ev :: t) <-> raised ev = false /\ quiet t.
Proof.
  unfold quiet. split.
  - intros H. inversion H. auto.
  - intros [H1 H2]. constructor; assumption.
Qed.

Ltac trace_norm :=
  repeat first [ rewrite processCalls_cons | rewrite sendCalls_cons
               | rewrite processCalls_app | rewrite sendCalls_app ];
  cbn [as_processCall as_sendCall].

Lemma quiet_processCalls t :
  quiet t -> Forall (fun c => is_thrown (pc_res c) = false) (processCalls t).
Proof.
  unfold quiet, processCalls. induction 1 as [|ev t Hev _ IH]; [constructor|].
  destruct ev; cbn; try exact IH. constructor; [exact Hev | exact IH].
Qed.

Lemma quiet_sendCalls t :
  quiet t -> Forall (fun c => is_thrown (sc_res c) = false) (sendCalls t).
Proof.
  unfold quiet, sendCalls. induction 1 as [|ev t Hev _ IH]; [constructor|].
  destruct ev; cbn; try exact IH. constructor; [exact Hev | exact IH].
Qed.

Lemma quiet_app t1 t2 : quiet (t1 ++ t2) <-> quiet t1 /\ quiet t2.
Proof. apply Forall_app. Qed.

Lemma effectiveLimit_min pluginLimit matchCount :
  effectiveLimit pluginLimit matchCount =
  if pluginLimit <? 0 then Z.of_nat matchCount
  else Z.min pluginLimit (Z.of_nat matchCount).
Proof.
  unfold effectiveLimit.
  destruct (Z.ltb_spec pluginLimit 0); cbn; [reflexivity|].
  destruct (Z.gtb_spec pluginLimit (Z.of_nat matchCount)); lia.
Qed.

Lemma effectiveLimit_range pluginLimit matchCount :
  0 <= effectiveLimit pluginLimit matchCount <= Z.of_nat matchCount.
Proof. rewrite effectiveLimit_min. destruct (Z.ltb_spec pluginLimit 0); lia. Qed.

(** The listener calls of an authenticated dispatch pass are those of its
    loop. *)
Lemma processMessage_authenticated_run this C (s : Sys W) out s' t x matched :
  processMessage host this C s = (out, s', t) ->
  isAuthenticated host C s = true ->
  extraData C = Some x ->
  extra_listeners x = Some matched ->
  out = Returned tt /\
  ((exists e, In (CallGetPrincipal C (Thrown e)) t /\ processCalls t = [] /\ sendCalls t = [])
   \/
   exists w r s3 t3,
     processLoop host
       (Z.to_nat (effectiveLimit (pluginLimit (config this)) (length matched))) 0
       matched (extra_contexts x) (mkSys (store s) w) = (r, s3, t3) /\
     processCalls t = processCalls t3 /\
     sendCalls t = sendCalls t3 /\
     (quiet t -> quiet t3) /\
     (forall e, r = Thrown e -> errorLogged e t)).
Proof.
  intros Hrun Hauth Hx Hls. rewrite processMessage_run in Hrun.
  unfold isAuthenticated in Hauth. cbv zeta in Hrun.
  destruct (security_isAuthenticated host C (world s)) as [a w1]. cbn in Hauth. subst a.
  destruct (security_getPrincipal host C w1) as [[u|e] w2].
  - rewrite Hx, Hls in Hrun.
    destruct (processLoop _ _ _ _ _ _) as [[r s3] t3] eqn:Hloop.
    injection Hrun as <- <- <-. split; [reflexivity|]. right.
    exists w2, r, s3, t3. split; [exact Hloop|].
    trace_norm.
    split; [destruct r; cbn; rewrite ?app_nil_r; reflexivity|].
    split; [destruct r; cbn; rewrite ?app_nil_r; reflexivity|].
    split.
    + intros Hq. repeat (apply quiet_cons in Hq; destruct Hq as [_ Hq]).
      apply quiet_app in Hq. destruct Hq as [Hq _]. exact Hq.
    + intros e ->. unfold errorLogged. cbn. rewrite !in_app_iff. cbn. tauto.
  - injection Hrun as <- <- <-. split; [reflexivity|]. left. exists e.
    split; [|split; reflexivity]. cbn. tauto.
Qed.

(** No listener is called for a sender who is not authenticated. *)
Lemma processMessage_unauthenticated_calls this C (s : Sys W) out s' t :
  processMessage host this C s = (out, s', t) ->
  isAuthenticated host C s = false ->
  processCalls t = [].
Proof.
  intros Hrun Hauth. rewrite processMessage_run in Hrun. unfold isAuthenticated in Hauth.
  cbv zeta in Hrun.
  destruct (security_isAuthenticated host C (world s)) as [a w1]. cbn in Hauth. subst a.
  destruct (webapp_generateChallenge _ _ _) as [redirect w2].
  destruct (extraData C) as [x|]; [|injection Hrun as <- <- <-; reflexivity].
  destruct (extra_contexts x) as [cs|]; [|injection Hrun as <- <- <-; reflexivity].
  destruct (bot_send _ _ _ _) as [[u|e'] w3]; injection Hrun as <- <- <-; reflexivity.
Qed.

(** C2.  In a dispatch pass the listeners whose [processMessage] is called
    are, whatever happens, the matched listeners from the first on, in match
    order, and no more of them than the effective limit.  For an
    authenticated sender and a pass in which no call raises they are exactly
    the first [min(pluginLimit, matchCount)] matched listeners when
    [pluginLimit >= 0], and all the matched listeners when [pluginLimit < 0];
    each is called on the context recorded for it.  With five matched
    listeners, a limit of -1 gives five calls, 2 gives the first two and 10
    gives five. *)
Theorem dispatch_respects_pluginLimit :
  forall this C (s : Sys W) out s' t x matched contexts,
    processMessage host this C s = (out, s', t) ->
    extraData C = Some x ->
    extra_listeners x = Some matched ->
    extra_contexts x = Some contexts ->
    let pluginLimit := pluginLimit (config this) in
    let matchCount := length matched in
    let called := List.map pc_listener (processCalls t) in
    (called = take (length called) matched /\
     Z.of_nat (length called) <= effectiveLimit pluginLimit matchCount) /\
    (isAuthenticated host C s = true ->
     quiet t ->
     (0 <= pluginLimit ->
      called = take (Z.to_nat (Z.min pluginLimit (Z.of_nat matchCount))) matched) /\
     (pluginLimit < 0 -> called = matched) /\
     (forall i c, processCalls t !! i = Some c -> pc_arg c = contexts !! i) /\
     (matchCount = 5%nat ->
      (pluginLimit = -1 -> length called = 5%nat) /\
      (pluginLimit = 2 -> called = take 2 matched) /\
      (pluginLimit = 10 -> length called = 5%nat))).
Proof.
  intros this C s out s' t x matched contexts Hrun Hx Hls Hcs limit count called.
  pose proof (effectiveLimit_range limit count) as Hrange.
  destruct (isAuthenticated host C s) eqn:Hauth.
  2:{ assert (Hnone : called = [])
        by (subst called; rewrite (processMessage_unauthenticated_calls _ _ _ _ _ _ Hrun Hauth);
            reflexivity).
      rewrite Hnone. cbn. split; [split; [reflexivity|lia]|discriminate]. }
  destruct (processMessage_authenticated_run _ _ _ _ _ _ _ _ Hrun Hauth Hx Hls)
    as (_ & [(e & He & Hnone & _) | (w & r & s3 & t3 & Hloop & Hp & Hs & Hq & _)]).
  { assert (Hcalled : called = []) by (subst called; rewrite Hnone; reflexivity).
    rewrite Hcalled. cbn. split; [split; [reflexivity|lia]|].
    intros _ Hquiet. exfalso. unfold quiet in Hquiet. rewrite Forall_forall in Hquiet.
    apply (proj2 (list_elem_of_In _ _)) in He.
    specialize (Hquiet _ He). discriminate. }
  apply processLoop_run in Hloop. cbv zeta in Hloop.
  destruct Hloop as (Hmap & Hn & _ & Hargs & _ & _ & _ & Hdone).
  fold limit count in Hdone, Hn. rewrite drop_0 in Hmap. rewrite <- Hp in Hmap, Hargs, Hn.
  fold called in Hmap. rewrite <- (length_map pc_listener) in Hmap, Hn. fold called in Hmap, Hn.
  split; [split; [exact Hmap|lia]|].
  intros _ Hquiet. specialize (Hq Hquiet).
  destruct Hdone as (_ & Hlen & _).
  { rewrite Hcs. eauto. }
  { cbn. lia. }
  { apply quiet_processCalls, Hq. }
  { apply quiet_sendCalls, Hq. }
  rewrite <- Hp, <- (length_map pc_listener) in Hlen. fold called in Hlen.
  rewrite Hlen in Hmap.
  assert (Hneg : limit < 0 -> called = matched).
  { intros Hl. rewrite Hmap, effectiveLimit_min.
    destruct (Z.ltb_spec limit 0); [|lia].
    rewrite Nat2Z.id. apply firstn_all. }
  assert (Hpos : 0 <= limit ->
                 called = take (Z.to_nat (Z.min limit (Z.of_nat count))) matched).
  { intros Hl. rewrite Hmap, effectiveLimit_min.
    destruct (Z.ltb_spec limit 0); [lia|]. reflexivity. }
  split; [exact Hpos|]. split; [exact Hneg|]. split.
  - intros i c Hi. destruct (Hargs i c Hi) as (cs' & Hcs' & Harg).
    rewrite Hcs in Hcs'. injection Hcs' as <-. exact Harg.
  - intros Hfive. split; [|split]; intros Hl.
    + rewrite (Hneg ltac:(lia)). exact Hfive.
    + rewrite (Hpos ltac:(lia)), Hl, Hfive. reflexivity.
    + rewrite (Hpos ltac:(lia)), Hl, Hfive.
      rewrite length_take. fold count. rewrite Hfive. reflexivity.
Qed.

(** C4.  If, in a dispatch pass, the listener at index [k] of the matched
    listeners raises in [processMessage], or the send of its reply raises,
    then no listener after it is called, the error is logged, and
    [processMessage] itself completes (the promise resolves).  The index [k]
    is below the effective limit. *)
Theorem dispatch_fail_stop :
  forall this C (s : Sys W) out s' t x matched k c e,
    processMessage host this C s = (out, s', t) ->
    extraData C = Some x ->
    extra_listeners x = Some matched ->
    processCalls t !! k = Some c ->
    (pc_res c = Thrown e \/
     exists sc, sendCalls t !! k = Some sc /\ sc_res sc = Thrown e) ->
    matched !! k = Some (pc_listener c) /\
    Z.of_nat k < effectiveLimit (pluginLimit (config this)) (length matched) /\
    length (processCalls t) = S k /\
    errorLogged e t /\
    out = Returned tt.
Proof.
  intros this C s out s' t x matched k c e Hrun Hx Hls Hk Hraise.
  destruct (isAuthenticated host C s) eqn:Hauth.
  2:{ exfalso.
      rewrite (processMessage_unauthenticated_calls _ _ _ _ _ _ Hrun Hauth) in Hk.
      discriminate Hk. }
  destruct (processMessage_authenticated_run _ _ _ _ _ _ _ _ Hrun Hauth Hx Hls)
    as (Hout & [(e' & _ & Hnone & _) | (w & r & s3 & t3 & Hloop & Hp & Hs & _ & Hlog)]).
  { rewrite Hnone in Hk. discriminate. }
  apply processLoop_run in Hloop. cbv zeta in Hloop.
  destruct Hloop as (Hmap & Hn & _ & _ & _ & Hpthrow & Hsthrow & _).
  rewrite <- Hp, <- Hs in *. rewrite drop_0 in Hmap.
  assert (Hlt : (k < length (processCalls t))%nat) by (eapply lookup_lt_Some; eauto).
  split.
  { assert (Hm : List.map pc_listener (processCalls t) !! k = Some (pc_listener c))
      by (rewrite list_lookup_fmap, Hk; reflexivity).
    rewrite Hmap, lookup_take_lt in Hm by exact Hlt. exact Hm. }
  pose proof (effectiveLimit_range (pluginLimit (config this)) (length matched)).
  split; [lia|].
  destruct Hraise as [Hres | (sc & Hsc & Hres)].
  - destruct (Hpthrow k c e Hk Hres) as (-> & Hlen & _). auto.
  - destruct (Hsthrow k sc e Hsc Hres) as (-> & Hlen & _). auto.
Qed.

(** A context recorded in the pools of another is not that other one. *)
Lemma recorded_context_differs (C : IChatContextData) x contexts c :
  extraData C = Some x ->
  extra_contexts x = Some contexts ->
  c ∈ contexts ->
  c <> C.
Proof.
  intros Hx Hcs Hin Heq.
  assert (Hlt : (contextSize c < contextSize C)%nat).
  { destruct C as [p k e]. cbn in Hx. subst e. destruct x as [pl ls cs cu].
    cbn in Hcs. subst cs. cbn [contextSize].
    clear Heq. unfold list_sum.
    induction Hin as [c l | c d l Hin IH]; rewrite map_cons; cbn [fold_right]; lia. }
  rewrite Heq in Hlt. lia.
Qed.

(** A context for which [matchMessage] returned true carries its pools: as
    many contexts as listeners, and at least one. *)
Lemma matchMessage_true_carries_pools this C (s : Sys W) C' s' t :
  matchMessage host this C s = (Returned (Some true, C'), s', t) ->
  exists x listener listeners first others,
    extraData C' = Some x /\
    extra_listeners x = Some (listener :: listeners) /\
    extra_contexts x = Some (first :: others) /\
    length listeners = length others.
Proof.
  rewrite matchMessage_run.
  destruct (addressed this C); [|discriminate].
  destruct (payload_type (payload C)); [|discriminate].
  destruct (findMatched _ _ _ _ _ _) as [[[[ls cs]|e] s1] t1] eqn:Hloop; [|discriminate].
  apply findMatched_run in Hloop. destruct Hloop as (_ & _ & _ & _ & _ & Hls & Hcs).
  cbn in Hls, Hcs. intros [= Hpos <- _ _].
  destruct (omap accepted (matchCalls t1)) as [|[l c] rest]; subst ls cs;
    [discriminate|].
  unfold setPools. destruct (extraData C) as [x|]; cbn.
  - eexists _, l, (List.map fst rest), c, (List.map snd rest).
    cbn. rewrite !length_map. auto.
  - eexists _, l, (List.map fst rest), c, (List.map snd rest).
    cbn. rewrite !length_map. auto.
Qed.

(** C3 (as amended).  For a sender who is not authenticated and a dispatched
    context (one that carries the contexts of its match), no listener's
    [processMessage] is called and exactly one message is sent: the
    plain-text login prompt with the generated challenge link, addressed to
    the first context of the match, that is, to the first matched listener's
    clone, which is not the inbound context.  [processMessage] ends as that
    send ends. *)
Theorem unauthenticated_gets_login_prompt :
  forall this C (s : Sys W) out s' t x first others,
    processMessage host this C s = (out, s', t) ->
    isAuthenticated host C s = false ->
    extraData C = Some x ->
    extra_contexts x = Some (first :: others) ->
    processCalls t = [] /\
    first <> C /\
    exists url,
      In (CallGenerateChallenge (chatting_user (chatting (context C))) url) t /\
      sendCalls t
      = [mkSendCall (Some first)
                    [loginPrompt (chatting_user (chatting (context C))) url] out] /\
      msg_type (loginPrompt (chatting_user (chatting (context C))) url) = PLAIN_TEXT.
Proof.
  intros this C s out s' t x first others Hrun Hauth Hx Hcs.
  split; [exact (processMessage_unauthenticated_calls _ _ _ _ _ _ Hrun Hauth)|].
  split; [eapply recorded_context_differs; eauto; apply list_elem_of_here|].
  rewrite processMessage_run in Hrun. unfold isAuthenticated in Hauth. cbv zeta in Hrun.
  destruct (security_isAuthenticated host C (world s)) as [a w1]. cbn in Hauth. subst a.
  destruct (webapp_generateChallenge _ _ _) as [redirect w2].
  rewrite Hx, Hcs in Hrun. cbn in Hrun.
  destruct (bot_send _ _ _ _) as [[[]|e] w3]; injection Hrun as <- <- <-;
    exists redirect; cbn; auto.
Qed.

End Dispatch.
(** ** Sorting by a numeric key *)

Section SortByKey.
Context {A : Type} (key : A -> Z).

Local Abbreviation compareFn := (fun a b : A => key a - key b).

Lemma sort_insert_Permutation x l :
  Permutation (Js.sort_insert compareFn x l) (x :: l).
Proof.
  induction l as [|y l IH]; cbn; [reflexivity|].
  destruct (key y - key x <? 0); [|reflexivity].
  rewrite IH. apply perm_swap.
Qed.

(** The sorted array has the elements of the array. *)
Lemma sort_Permutation l : Permutation (Js.sort compareFn l) l.
Proof.
  induction l as [|x l IH]; cbn; [reflexivity|].
  rewrite sort_insert_Permutation. constructor. exact IH.
Qed.

(** Sorting keeps, for every key, the elements of that key in the order
    they had. *)
Lemma sort_insert_filter v x l :
  List.filter (fun y => key y =? v) (Js.sort_insert compareFn x l)
  = List.filter (fun y => key y =? v) (x :: l).
Proof.
  induction l as [|y l IH]; [reflexivity|].
  cbn [Js.sort_insert]. cbv beta.
  destruct (Z.ltb_spec (key y - key x) 0) as [Hlt|Hge]; [|reflexivity].
  cbn [List.filter] in *. rewrite IH.
  destruct (Z.eqb_spec (key x) v) as [Hx|Hx]; [|reflexivity].
  destruct (Z.eqb_spec (key y) v) as [Hy|Hy]; [lia|reflexivity].
Qed.

Lemma sort_stable v l :
  List.filter (fun y => key y =? v) (Js.sort compareFn l)
  = List.filter (fun y => key y =? v) l.
Proof.
  induction l as [|x l IH]; [reflexivity|].
  cbn [Js.sort]. rewrite sort_insert_filter. cbn [List.filter]. rewrite IH. reflexivity.
Qed.

(** If the array was in the order [before], the sorted array is in ascending
    key order, elements of equal key still in the order [before]. *)
Lemma sort_insert_byKeyThen before x l :
  StronglySorted (byKeyThen key before) l ->
  Forall (before x) l ->
  StronglySorted (byKeyThen key before) (Js.sort_insert compareFn x l).
Proof.
  induction 1 as [|y l Hl IH Hy]; intros Hx; cbn [Js.sort_insert].
  - repeat constructor.
  - inversion Hx as [|? ? Hxy Hxl]; subst. cbv beta.
    destruct (Z.ltb_spec (key y - key x) 0) as [Hlt|Hge].
    + constructor; [apply IH, Hxl|].
      rewrite sort_insert_Permutation. constructor; [left; lia | exact Hy].
    + constructor; [constructor; assumption|].
      constructor.
      * unfold byKeyThen. destruct (Z.eq_dec (key x) (key y)); [right; auto | left; lia].
      * rewrite Forall_forall in Hy, Hxl |- *. intros z Hz.
        specialize (Hy z Hz). specialize (Hxl z Hz). unfold byKeyThen in *.
        destruct (Z.eq_dec (key x) (key z)); [right; auto | left; lia].
Qed.

Lemma sort_byKeyThen before l :
  StronglySorted before l ->
  StronglySorted (byKeyThen key before) (Js.sort compareFn l).
Proof.
  induction 1 as [|x l Hl IH Hx]; cbn [Js.sort]; [constructor|].
  apply sort_insert_byKeyThen; [exact IH|].
  rewrite sort_Permutation. exact Hx.
Qed.

End SortByKey.

(** ** The load pass *)

Section Load.
Context {W : Type} (host : Host W).

Lemma registered_refl (p : Process W) : registered p p [].
Proof. unfold registered. rewrite app_nil_r. auto 10. Qed.

Lemma registered_trans (p p1 p2 : Process W) n1 n2 :
  registered p p1 n1 -> registered p1 p2 n2 -> registered p p2 (n1 ++ n2).
Proof.
  unfold registered. intros (H1 & H2 & H3 & H4 & H5 & H6) (G1 & G2 & G3 & G4 & G5 & G6).
  rewrite G1, H1, app_assoc. repeat split; congruence.
Qed.

(** *** Computations that leave the store alone *)

Lemma keeps_store_ret {A} (a : A) : keeps_store (W:=W) (ret a).
Proof. intros s out s' t [= <- <- <-]. reflexivity. Qed.

Lemma keeps_store_throw {A} e : keeps_store (W:=W) (A:=A) (throw e).
Proof. intros s out s' t [= <- <- <-]. reflexivity. Qed.

Lemma keeps_store_log lv x : keeps_store (W:=W) (log lv x).
Proof. intros s out s' t [= <- <- <-]. reflexivity. Qed.

Lemma keeps_store_get_store : keeps_store (W:=W) get_store.
Proof. intros s out s' t [= <- <- <-]. reflexivity. Qed.

Lemma keeps_store_call {A} (f : W -> Outcome A * W) ev : keeps_store (call f ev).
Proof.
  intros s out s' t. unfold call. destruct (f (world s)). intros [= <- <- <-]. reflexivity.
Qed.

Lemma keeps_store_read {A} (f : W -> Outcome A) : keeps_store (read f).
Proof. intros s out s' t [= <- <- <-]. reflexivity. Qed.

Lemma keeps_store_read_total {A} (f : W -> A) : keeps_store (read_total f).
Proof. intros s out s' t [= <- <- <-]. reflexivity. Qed.

Lemma keeps_store_bind {A B} (m : M (Sys W) A) (k : A -> M (Sys W) B) :
  keeps_store m -> (forall a, keeps_store (k a)) -> keeps_store (bind m k).
Proof.
  intros Hm Hk s out s' t Hrun. apply bind_inv in Hrun.
  destruct Hrun as [(a & s1 & t1 & t2 & H1 & H2 & _) | (e & H1 & _)].
  - apply Hm in H1. apply Hk in H2. congruence.
  - apply Hm in H1. exact H1.
Qed.

Lemma keeps_store_try_catch {A} (m : M (Sys W) A) (k : JsError -> M (Sys W) A) :
  keeps_store m -> (forall e, keeps_store (k e)) -> keeps_store (try_catch m k).
Proof.
  intros Hm Hk s out s' t. unfold try_catch.
  destruct (m s) as [[[a|e] s1] t1] eqn:H1.
  - intros [= <- <- <-]. eapply Hm, H1.
  - destruct (k e s1) as [[r s2] t2] eqn:H2. intros [= <- <- <-].
    apply Hm in H1. apply Hk in H2. congruence.
Qed.

Lemma keeps_store_registerChatListener this entry :
  keeps_store (W:=W) (registerChatListener this entry).
Proof. intros s out s' t [= <- <- <-]. reflexivity. Qed.

Lemma keeps_store_readYamlFile filePath : keeps_store (readYamlFile host filePath).
Proof.
  unfold readYamlFile. apply keeps_store_bind; [apply keeps_store_read_total|].
  intros found. destruct found; cbn [negb].
  - apply keeps_store_try_catch; [apply keeps_store_read|].
    intros e. repeat (apply keeps_store_bind; [apply keeps_store_log|]; intros _).
    apply keeps_store_throw.
  - apply keeps_store_bind; [apply keeps_store_log|]. intros _. apply keeps_store_throw.
Qed.

(** *** Computations that only append to the message registry *)

Lemma registers_ret {A} (a : A) ok : registers (W:=W) (ret a) ok.
Proof. intros p out p' t [= <- <- <-]. exists []. split; [apply registered_refl|constructor]. Qed.

Lemma registers_throw {A} e ok : registers (W:=W) (A:=A) (throw e) ok.
Proof. intros p out p' t [= <- <- <-]. exists []. split; [apply registered_refl|constructor]. Qed.

Lemma registers_log lv x ok : registers (W:=W) (log lv x) ok.
Proof. intros p out p' t [= <- <- <-]. exists []. split; [apply registered_refl|constructor]. Qed.

Lemma registers_get_this ok : registers (W:=W) get_this ok.
Proof. intros p out p' t [= <- <- <-]. exists []. split; [apply registered_refl|constructor]. Qed.

Lemma registers_in_sys {A} (m : M (Sys W) A) ok :
  keeps_store m -> registers (in_sys m) ok.
Proof.
  intros Hm p out p' t. unfold in_sys.
  destruct (m (sys p)) as [[r s] t1] eqn:H1. intros [= <- <- <-].
  apply Hm in H1. exists []. split; [|constructor].
  unfold registered. cbn. rewrite app_nil_r. auto 10.
Qed.

Lemma registers_bind {A B} (m : M (Process W) A) (k : A -> M (Process W) B) ok :
  registers m ok -> (forall a, registers (k a) ok) -> registers (bind m k) ok.
Proof.
  intros Hm Hk p out p' t Hrun. apply bind_inv in Hrun.
  destruct Hrun as [(a & p1 & t1 & t2 & H1 & H2 & _) | (e & H1 & _)].
  - apply Hm in H1. apply Hk in H2.
    destruct H1 as (n1 & Hr1 & Hok1). destruct H2 as (n2 & Hr2 & Hok2).
    exists (n1 ++ n2). split; [eapply registered_trans; eassumption|].
    apply Forall_app. auto.
  - apply Hm in H1. exact H1.
Qed.

Lemma registers_try_catch {A} (m : M (Process W) A) (k : JsError -> M (Process W) A) ok :
  registers m ok -> (forall e, registers (k e) ok) -> registers (try_catch m k) ok.
Proof.
  intros Hm Hk p out p' t. unfold try_catch.
  destruct (m p) as [[[a|e] p1] t1] eqn:H1.
  - intros [= <- <- <-]. eapply Hm, H1.
  - destruct (k e p1) as [[r p2] t2] eqn:H2. intros [= <- <- <-].
    apply Hm in H1. apply Hk in H2.
    destruct H1 as (n1 & Hr1 & Hok1). destruct H2 as (n2 & Hr2 & Hok2).
    exists (n1 ++ n2). split; [eapply registered_trans; eassumption|].
    apply Forall_app. auto.
Qed.

Lemma registers_finally {A} (m : M (Process W) A) (fin : M (Process W) unit) ok :
  registers m ok -> registers fin ok -> registers (finally m fin) ok.
Proof.
  intros Hm Hf p out p' t. unfold finally.
  destruct (m p) as [[r p1] t1] eqn:H1.
  destruct (fin p1) as [[[u|e] p2] t2] eqn:H2; intros [= <- <- <-];
    apply Hm in H1; apply Hf in H2;
    destruct H1 as (n1 & Hr1 & Hok1); destruct H2 as (n2 & Hr2 & Hok2);
    (exists (n1 ++ n2); split; [eapply registered_trans; eassumption|]);
    apply Forall_app; auto.
Qed.

Lemma registers_set_plugins l ok : registers (W:=W) (set_plugins l) ok.
Proof.
  intros p out p' t [= <- <- <-]. exists []. split; [|constructor].
  unfold registered. cbn. rewrite app_nil_r. auto 10.
Qed.

Lemma registers_registerEventListener entry ok :
  registers (W:=W) (registerEventListener entry) ok.
Proof.
  intros p out p' t [= <- <- <-]. exists []. split; [|constructor].
  unfold registered. cbn. rewrite app_nil_r. auto 10.
Qed.

Lemma registerMessageListener_run entry (p : Process W) :
  exists p' t,
    registerMessageListener entry p = (Returned tt, p', t) /\
    registered p p' [entry].
Proof.
  eexists _, _. split; [reflexivity|]. unfold registered. cbn. auto 10.
Qed.

Lemma registers_registerMessageListener entry (ok : IChatListenerRegistryEntry -> Prop) :
  ok entry -> registers (W:=W) (registerMessageListener entry) ok.
Proof.
  intros Hok p out p' t Hrun.
  destruct (registerMessageListener_run entry p) as (p1 & t1 & H1 & Hr).
  rewrite H1 in Hrun. injection Hrun as <- <- <-.
  exists [entry]. split; [exact Hr|]. constructor; [exact Hok|constructor].
Qed.

(** The listeners of one plugin are registered under that plugin. *)
Lemma registers_registerListeners pluginPath plugin names :
  registers (registerListeners host pluginPath plugin names)
            (fun e => chatPlugin e = Shared plugin).
Proof.
  induction names as [|listenerName rest IH]; cbn [registerListeners].
  - apply registers_ret.
  - apply registers_bind; [|intros _; exact IH].
    destruct (Js.endsWith listenerName "MessageListener").
    + apply registers_bind; [apply registers_in_sys, keeps_store_call|]. intros _.
      apply registers_bind; [apply registers_log|]. intros _.
      apply registers_bind; [apply registers_in_sys, keeps_store_call|]. intros _.
      apply registers_registerMessageListener. reflexivity.
    + destruct (Js.endsWith listenerName "EventListener").
      * apply registers_bind; [apply registers_in_sys, keeps_store_call|]. intros _.
        apply registers_bind; [apply registers_in_sys, keeps_store_call|]. intros _.
        apply registers_registerEventListener.
      * apply registers_log.
Qed.

Lemma registers_loadPlugin pluginYamlFilePath plugin :
  registers (loadPlugin host pluginYamlFilePath plugin)
            (fun e => chatPlugin e = Shared plugin).
Proof.
  unfold loadPlugin.
  apply registers_bind; [apply registers_get_this|]. intros this.
  apply registers_bind; [apply registers_in_sys, keeps_store_get_store|]. intros h.
  apply registers_bind; [apply registers_log|]. intros _.
  apply registers_bind; [apply registers_in_sys, keeps_store_read_total|]. intros installed.
  destruct installed; cbn [negb]; [|apply registers_log].
  apply registers_bind; [apply registers_in_sys, keeps_store_read|]. intros packageName.
  destruct (String.eqb _ _); cbn [negb]; [|apply registers_log].
  apply registers_bind; [apply registers_registerListeners|]. intros _.
  apply registers_bind; [apply registers_log|]. intros _.
  apply registers_bind; [apply registers_get_this|]. intros this'.
  apply registers_set_plugins.
Qed.

(** *** Runs that log no error *)

Lemma in_sys_registered {A} (m : M (Sys W) A) (p : Process W) out p' t :
  keeps_store m -> in_sys m p = (out, p', t) -> registered p p' [].
Proof.
  intros Hm. unfold in_sys. destruct (m (sys p)) as [[r s] t1] eqn:H1.
  intros [= <- <- <-]. apply Hm in H1.
  unfold registered. cbn. rewrite app_nil_r. auto 10.
Qed.

(** When nothing is raised and no error is logged, every name of the
    descriptor that ends in MessageListener is registered, once, in the
    order of the descriptor. *)
Lemma registerListeners_clean pluginPath plugin names :
  forall (p : Process W) u p' t,
    registerListeners host pluginPath plugin names p = (Returned u, p', t) ->
    noErrorLogged t ->
    exists new,
      registered p p' new /\
      List.map signature new
      = List.map (fun listenerName => (listenerName, Shared plugin))
                 (List.filter (fun listenerName => Js.endsWith listenerName "MessageListener")
                              names).
Proof.
  induction names as [|listenerName rest IH]; intros p u p' t Hrun Hclean.
  - injection Hrun as _ <- _. exists []. split; [apply registered_refl|reflexivity].
  - cbn [registerListeners] in Hrun. apply bind_inv in Hrun.
    destruct Hrun as [(u1 & p1 & t1 & t2 & H1 & H2 & ->) | (e & _ & Habs)];
      [|discriminate Habs].
    apply Forall_app in Hclean. destruct Hclean as [Hc1 Hc2].
    destruct (IH _ _ _ _ H2 Hc2) as (n2 & Hr2 & Hs2).
    cbn [List.filter].
    destruct (Js.endsWith listenerName "MessageListener") eqn:Hmsg.
    + unfold bind, in_sys, call, log, emit in H1.
      destruct (node_require host pluginPath (world (sys p))) as [[[]|e] w1];
        [|discriminate H1].
      cbn in H1.
      destruct (node_new host (PluginListener pluginPath listenerName) w1) as [[[]|e] w2];
        [|discriminate H1].
      cbn in H1. injection H1 as _ <- _.
      eexists (_ :: n2). split.
      * change (?x :: n2) with ([x] ++ n2). eapply registered_trans; [|exact Hr2].
        unfold registered. cbn. auto 10.
      * cbn. rewrite Hs2. reflexivity.
    + destruct (Js.endsWith listenerName "EventListener").
      * unfold bind, in_sys, call, log, emit in H1.
        destruct (node_require host pluginPath (world (sys p))) as [[[]|e] w1];
          [|discriminate H1].
        cbn in H1.
        destruct (node_new host (PluginListener pluginPath listenerName) w1) as [[[]|e] w2];
          [|discriminate H1].
        cbn in H1. injection H1 as _ <- _.
        exists n2. split; [|exact Hs2].
        change n2 with ([] ++ n2). eapply registered_trans; [|exact Hr2].
        unfold registered. cbn. rewrite app_nil_r. auto 10.
      * injection H1 as _ _ <-. inversion Hc1 as [|? ? Habs _]. discriminate Habs.
Qed.

(** *** Plugins one after the other *)

(** One step of a run that returned: the first computation returned too. *)
Ltac returned_step Hrun Hclean a p1 H1 Hc1 :=
  let Habs := fresh "Habs" in
  apply bind_inv in Hrun;
  destruct Hrun as [(a & p1 & ? & ? & H1 & Hrun & ->) | (? & _ & Habs)];
  [apply Forall_app in Hclean; destruct Hclean as [Hc1 Hclean] | discriminate Habs].

Lemma error_line_not_clean level text (t : list Event) :
  noErrorLogged (Log level text :: t) -> level <> LError.
Proof. intros H ->. inversion H as [|? ? Habs _]. discriminate Habs. Qed.

(** A plugin that is loaded without an error gets all its message listeners
    registered. *)
Lemma loadPlugin_clean pluginYamlFilePath plugin :
  forall (p : Process W) u p' t,
    loadPlugin host pluginYamlFilePath plugin p = (Returned u, p', t) ->
    noErrorLogged t ->
    exists new,
      registered p p' new /\
      List.map signature new = messageListenersOf (store (sys p)) plugin.
Proof.
  intros [this [h w]] u p' t Hrun Hclean. unfold loadPlugin in Hrun.
  returned_step Hrun Hclean this1 p1 H1 Ca. injection H1 as <- <- <-.
  returned_step Hrun Hclean h1 p1 H1 Cb. injection H1 as <- <- <-.
  returned_step Hrun Hclean u1 p1 H1 Cc. injection H1 as _ <- _.
  returned_step Hrun Hclean installed p1 H1 Cd. injection H1 as <- <- _.
  cbn [self sys store world pluginHome] in Hrun.
  destruct (fs_existsSync host _ w); cbn [negb] in Hrun.
  2:{ injection Hrun as _ _ <-. exfalso. eapply error_line_not_clean; eauto. }
  returned_step Hrun Hclean packageName p1 H1 Ce.
  unfold in_sys, read in H1. cbn in H1. injection H1 as _ <- _.
  destruct (String.eqb _ _); cbn [negb] in Hrun.
  2:{ injection Hrun as _ _ <-. exfalso. eapply error_line_not_clean; eauto. }
  returned_step Hrun Hclean u2 p1 H1 Hc2.
  apply registerListeners_clean in H1; [|exact Hc2].
  destruct H1 as (new & Hreg & Hsig). exists new. split; [|exact Hsig].
  returned_step Hrun Hclean u3 p2 H1 Cf. injection H1 as _ <- _.
  returned_step Hrun Hclean this2 p2 H1 Cg. injection H1 as <- <- _.
  injection Hrun as _ <- _.
  rewrite <- (app_nil_r new). eapply registered_trans; [exact Hreg|].
  unfold registered. cbn. rewrite app_nil_r. auto 10.
Qed.

(** A loop over the plugin list that logs no error registers the message
    listeners of every plugin of the list, plugin after plugin. *)
Lemma loadEach_clean pluginYamlFilePath pluginList :
  forall (p : Process W) u p' t,
    loadEach host pluginYamlFilePath pluginList p = (Returned u, p', t) ->
    noErrorLogged t ->
    exists new,
      registered p p' new /\
      List.map signature new
      = List.flat_map (messageListenersOf (store (sys p))) pluginList.
Proof.
  induction pluginList as [|plugin rest IH]; intros p u p' t Hrun Hclean.
  - injection Hrun as _ <- _. exists []. split; [apply registered_refl|reflexivity].
  - cbn [loadEach] in Hrun.
    returned_step Hrun Hclean u1 p1 H1 Hc1.
    apply loadPlugin_clean in H1; [|exact Hc1]. destruct H1 as (n1 & Hr1 & Hs1).
    apply IH in Hrun; [|exact Hclean]. destruct Hrun as (n2 & Hr2 & Hs2).
    exists (n1 ++ n2). split; [eapply registered_trans; eassumption|].
    destruct Hr1 as (_ & _ & _ & _ & _ & Hstore).
    cbn [List.flat_map]. rewrite map_app, Hs1, Hs2, Hstore. reflexivity.
Qed.


Lemma drawn_repeat {A} (x : A) k picks l :
  drawn picks l -> drawn (repeat x k ++ picks) (x :: l).
Proof.
  intros H. induction k as [|k IH]; cbn.
  - apply drawn_skip, H.
  - apply drawn_take, IH.
Qed.

Lemma drawn_elem_of {A} (picks l : list A) :
  drawn picks l -> Forall (fun x => x ∈ l) picks.
Proof.
  induction 1 as [l | x picks l _ IH | picks y l _ IH].
  - constructor.
  - constructor; [apply list_elem_of_here | exact IH].
  - eapply Forall_impl; [exact IH|]. intros x Hx. apply list_elem_of_further, Hx.
Qed.

(** Drawing from a strictly ordered list gives a list in the same order,
    up to repetitions. *)
Lemma drawn_StronglySorted {A} (R : A -> A -> Prop) (picks l : list A) :
  StronglySorted R l -> drawn picks l ->
  StronglySorted (fun a b => a = b \/ R a b) picks.
Proof.
  intros Hl Hd. induction Hd as [l | x picks l Hd IH | picks y l Hd IH].
  - constructor.
  - constructor; [apply IH, Hl|].
    apply drawn_elem_of in Hd. inversion Hl as [|? ? _ Hx]; subst.
    eapply Forall_impl; [exact Hd|]. cbn. intros z Hz.
    apply elem_of_cons in Hz. destruct Hz as [->|Hz]; [left; reflexivity|].
    right. rewrite Forall_forall in Hx. apply Hx, Hz.
  - apply IH. inversion Hl; assumption.
Qed.

Lemma Forall_chatPlugin_repeat plugin (new : list IChatListenerRegistryEntry) :
  Forall (fun e => chatPlugin e = Shared plugin) new ->
  List.map chatPlugin new = List.map Shared (repeat plugin (length new)).
Proof.
  induction 1 as [|e new He _ IH]; [reflexivity|]. cbn. rewrite He, IH. reflexivity.
Qed.

(** The loop registers listeners plugin by plugin, in the order of the list
    it is given. *)
Lemma loadEach_drawn pluginYamlFilePath pluginList :
  forall (p : Process W) out p' t,
    loadEach host pluginYamlFilePath pluginList p = (out, p', t) ->
    exists new refs,
      registered p p' new /\
      List.map chatPlugin new = List.map Shared refs /\
      drawn refs pluginList.
Proof.
  induction pluginList as [|plugin rest IH]; intros p out p' t Hrun.
  - injection Hrun as <- <- <-. exists [], []. split; [apply registered_refl|].
    split; [reflexivity|constructor].
  - cbn [loadEach] in Hrun. apply bind_inv in Hrun.
    destruct Hrun as [(a & p1 & t1 & t2 & H1 & H2 & _) | (e & H1 & _)].
    + apply registers_loadPlugin in H1. destruct H1 as (n1 & Hr1 & Hok1).
      apply IH in H2. destruct H2 as (n2 & refs2 & Hr2 & Hmap2 & Hd2).
      exists (n1 ++ n2), (repeat plugin (length n1) ++ refs2).
      split; [eapply registered_trans; eassumption|].
      split; [rewrite !map_app, Hmap2, (Forall_chatPlugin_repeat _ _ Hok1); reflexivity|].
      apply drawn_repeat, Hd2.
    + apply registers_loadPlugin in H1. destruct H1 as (n1 & Hr1 & Hok1).
      exists n1, (repeat plugin (length n1) ++ []).
      split; [exact Hr1|].
      split; [rewrite app_nil_r; apply Forall_chatPlugin_repeat, Hok1|].
      apply drawn_repeat. constructor.
Qed.

(** *** Finding and reading the manifest *)

Lemma locateManifest_run home (p : Process W) :
  locateManifest host home p =
  if fs_existsSync host (homeManifest host home) (world (sys p)) then
    (Returned (Some (homeManifest host home)), p,
     [Log LInfo [Str "Zowe Chat plugin home: "; Str home]])
  else if fs_existsSync host (builtinManifest host) (world (sys p)) then
    (Returned (Some (builtinManifest host)), p,
     [Log LInfo [Str "Zowe Chat plugin home: "; Str home]])
  else
    (Returned None, p,
     [Log LInfo [Str "Zowe Chat plugin home: "; Str home];
      Log LError [Str "Zowe Chat plugin configuration file plugin.yaml does not exist in ";
                  Str home; Str " and "; Str (dirname host); Str (path_sep host);
                  Str ".."; Str (path_sep host); Str "config !"];
      Log LError [Str "Skip loading plugins!"]]).
Proof.
  destruct p as [this [h w]]. unfold locateManifest, homeManifest, builtinManifest.
  unfold bind, in_sys, read_total, log, emit, ret. cbn.
  destruct (fs_existsSync host _ w); cbn; [reflexivity|].
  destruct (fs_existsSync host _ w); cbn; reflexivity.
Qed.

Lemma registered_loaded (p p' : Process W) new :
  registered p p' new <-> loaded p p' [] new.
Proof. unfold registered, loaded. rewrite app_nil_r. tauto. Qed.

(** What the [try] block of [loadPlugins] leaves behind, however it ends:
    the descriptors of the manifest (if it got that far) and, at the end of
    the message registry, listeners drawn from the sorted plugin list. *)
Lemma loadPlugins_try_run (p : Process W) out p' t :
  loadPlugins_try host p = (out, p', t) ->
  exists manifest new refs,
    loaded p p' manifest new /\
    List.map chatPlugin new = List.map Shared refs /\
    drawn refs (sortByPriority (store (sys p'))
                               (seq (length (store (sys p))) (length manifest))).
Proof.
  intros Hrun.
  assert (Hnothing : forall q, q = p' -> p = q ->
            exists manifest new refs,
              loaded p p' manifest new /\
              List.map chatPlugin new = List.map Shared refs /\
              drawn refs (sortByPriority (store (sys p'))
                            (seq (length (store (sys p))) (length manifest)))).
  { intros q -> ->. exists [], [], []. split; [apply registered_loaded, registered_refl|].
    split; [reflexivity|constructor]. }
  unfold loadPlugins_try in Hrun.
  apply bind_inv in Hrun. destruct Hrun as [(this & p1 & ? & ? & H1 & Hrun & _) | (? & H1 & _)];
    [|discriminate]. injection H1 as <- <- <-.
  apply bind_inv in Hrun. rewrite locateManifest_run in Hrun.
  destruct Hrun as [(located & p1 & ? & ? & H1 & Hrun & _) | (? & H1 & _)].
  2:{ repeat destruct (fs_existsSync _ _ _); discriminate. }
  assert (Hp1 : p1 = p) by (repeat destruct (fs_existsSync _ _ _); congruence). subst p1.
  clear H1. destruct located as [pluginYamlFilePath|].
  2:{ injection Hrun as <- <- <-. eapply Hnothing; reflexivity. }
  apply bind_inv in Hrun.
  destruct Hrun as [(content & p1 & ? & ? & H1 & Hrun & _) | (? & H1 & _)].
  2:{ unfold in_sys in H1. destruct (readYamlFile _ _ _) as [[r s1] tt1] eqn:Hread.
      injection H1 as _ <- _. apply keeps_store_readYamlFile in Hread.
      exists [], [], []. split; [|split; [reflexivity|constructor]].
      unfold loaded. cbn. rewrite !app_nil_r. auto 10. }
  assert (Hp1 : self p1 = self p /\ store (sys p1) = store (sys p)).
  { unfold in_sys in H1. destruct (readYamlFile _ _ _) as [[r s1] tt1] eqn:Hread.
    injection H1 as _ <- _. apply keeps_store_readYamlFile in Hread. auto. }
  clear H1. destruct Hp1 as [Hself1 Hstore1].
  apply bind_inv in Hrun. destruct Hrun as [(this1 & p2 & ? & ? & H1 & Hrun & _) | (? & H1 & _)];
    [|discriminate]. injection H1 as <- <- <-.
  apply bind_inv in Hrun. destruct Hrun as [(h & p2 & ? & ? & H1 & Hrun & _) | (? & H1 & _)];
    [|discriminate]. injection H1 as <- <- <-.
  apply bind_inv in Hrun. destruct Hrun as [(u & p2 & ? & ? & H1 & Hrun & _) | (? & H1 & _)];
    [|discriminate]. injection H1 as <- <- <-.
  change {| self := self p1; sys := {| store := store (sys p1); world := world (sys p1) |} |}
    with (mkProcess (self p1) (mkSys (store (sys p1)) (world (sys p1)))) in Hrun.
  apply bind_inv in Hrun.
  destruct Hrun as [(pluginList & p2 & ? & ? & H1 & Hrun & _) | (? & H1 & _)].
  2:{ destruct content as [l| | |]; [discriminate H1| | |];
        (injection H1 as <- <- <-;
         exists [], [], []; (split; [|split; [reflexivity|constructor]]);
         unfold loaded; cbn; rewrite Hself1, Hstore1, !app_nil_r; auto 10). }
  destruct content as [manifest| | |];
    [|discriminate H1|discriminate H1|discriminate H1].
  injection H1 as <- <- <-.
  apply bind_inv in Hrun. destruct Hrun as [(h' & p2 & t5 & t5' & H1 & Hrun & _) | (e & H1 & _)];
    [|discriminate]. injection H1 as <- <- <-.
  apply bind_inv in Hrun. destruct Hrun as [(u' & p2 & t6 & t6' & H1 & Hrun & _) | (e & H1 & _)];
    [|discriminate]. injection H1 as <- <- <-.
  apply loadEach_drawn in Hrun. destruct Hrun as (new & refs & Hreg & Hmap & Hdrawn).
  cbn in Hreg, Hdrawn.
  exists manifest, new, refs.
  destruct Hreg as (R1 & R2 & R3 & R4 & R5 & R6). cbn in R1, R2, R3, R4, R5, R6.
  split; [|split; [exact Hmap|]].
  - unfold loaded. rewrite R1, R2, R3, R4, R5, R6, Hself1, Hstore1. auto 10.
  - rewrite R6, <- Hstore1. exact Hdrawn.
Qed.

(** [loadPlugins] around its [try] block. *)
Lemma loadPlugins_run (p : Process W) :
  loadPlugins host p =
  let '(r, p1, t1) := loadPlugins_try host p in
  (Returned tt, p1,
   Log LStart [Str "loadPlugins"] :: t1
   ++ match r with
      | Returned _ => []
      | Thrown e => [Log LError [Err e]]
      end
   ++ [Log LEnd [Str "loadPlugins"]]).
Proof.
  unfold loadPlugins, bind, finally, try_catch, log, emit. cbv beta iota.
  destruct (loadPlugins_try host p) as [[[[]|e] p1] t1]; cbn;
    rewrite <- ?app_assoc; reflexivity.
Qed.

(** A load pass never raises; see [loadPlugins_try_run] for what it leaves
    behind. *)
Lemma loadPlugins_outcome (p : Process W) out p' t :
  loadPlugins host p = (out, p', t) ->
  out = Returned tt /\
  exists manifest new refs,
    loaded p p' manifest new /\
    List.map chatPlugin new = List.map Shared refs /\
    drawn refs (sortByPriority (store (sys p'))
                               (seq (length (store (sys p))) (length manifest))).
Proof.
  rewrite loadPlugins_run.
  destruct (loadPlugins_try host p) as [[r p1] t1] eqn:Htry.
  intros [= <- <- <-]. split; [reflexivity|].
  apply loadPlugins_try_run in Htry. exact Htry.
Qed.

(** The [try] block when it returns and no error was logged: plugin.yaml
    was found and holds a list of plugins, their descriptors were allocated
    in manifest order, and the message listeners of every one of them were
    registered, plugin after plugin in the sorted order. *)
Lemma loadPlugins_try_clean (p : Process W) u p' t :
  loadPlugins_try host p = (Returned u, p', t) ->
  noErrorLogged t ->
  exists pluginYamlFilePath manifest new,
    (pluginYamlFilePath = homeManifest host (pluginHome (self p)) \/
     pluginYamlFilePath = builtinManifest host) /\
    yaml_load host pluginYamlFilePath (world (sys p)) = Returned (YamlPlugins manifest) /\
    loaded p p' manifest new /\
    List.map signature new
    = List.flat_map (messageListenersOf (store (sys p')))
        (sortByPriority (store (sys p'))
           (seq (length (store (sys p))) (length manifest))).
Proof.
  destruct p as [this [h w]]. intros Hrun Hclean. unfold loadPlugins_try in Hrun.
  returned_step Hrun Hclean this1 p1 H1 Ca. injection H1 as <- <- <-.
  returned_step Hrun Hclean located p1 H1 Cb.
  rewrite locateManifest_run in H1. cbn [self sys world pluginHome] in H1.
  assert (Hlocated : exists pluginYamlFilePath,
             located = Some pluginYamlFilePath /\
             (pluginYamlFilePath = homeManifest host (pluginHome this) \/
              pluginYamlFilePath = builtinManifest host) /\
             p1 = mkProcess this (mkSys h w)).
  { destruct (fs_existsSync host (homeManifest host (pluginHome this)) w).
    - injection H1 as <- <- _. eauto.
    - destruct (fs_existsSync host (builtinManifest host) w).
      + injection H1 as <- <- _. eauto.
      + injection H1 as _ _ <-. exfalso.
        inversion Cb as [|? ? _ Cb']. eapply error_line_not_clean; eauto. }
  clear H1. destruct Hlocated as (pluginYamlFilePath & -> & Hpath & ->).
  returned_step Hrun Hclean content p1 H1 Cc.
  assert (Hread : yaml_load host pluginYamlFilePath w = Returned content /\
                  p1 = mkProcess this (mkSys h w)).
  { unfold in_sys, readYamlFile, bind, read_total, try_catch, read, log, emit, throw in H1.
    cbn in H1. destruct (fs_existsSync host pluginYamlFilePath w); cbn in H1;
      [|discriminate H1].
    destruct (yaml_load host pluginYamlFilePath w) as [c|e]; cbn in H1; [|discriminate H1].
    injection H1 as <- <- _. auto. }
  clear H1. destruct Hread as (Hyaml & ->).
  returned_step Hrun Hclean this1 p1 H1 Cd. injection H1 as <- <- _.
  returned_step Hrun Hclean h1 p1 H1 Ce. injection H1 as <- <- _.
  returned_step Hrun Hclean u1 p1 H1 Cf. injection H1 as _ <- _.
  returned_step Hrun Hclean pluginList p1 H1 Cg.
  destruct content as [manifest| | |];
    [|discriminate H1|discriminate H1|discriminate H1].
  injection H1 as <- <- _.
  returned_step Hrun Hclean h2 p1 H1 Ch. injection H1 as <- <- _.
  returned_step Hrun Hclean u2 p1 H1 Ci. injection H1 as _ <- _.
  apply loadEach_clean in Hrun; [|exact Hclean]. destruct Hrun as (new & Hreg & Hsig).
  cbn in Hreg, Hsig.
  exists pluginYamlFilePath, manifest, new.
  split; [exact Hpath|]. split; [exact Hyaml|].
  destruct Hreg as (R1 & R2 & R3 & R4 & R5 & R6). cbn in R1, R2, R3, R4, R5, R6.
  split.
  - unfold loaded. cbn. auto 10.
  - cbn. rewrite R6. exact Hsig.
Qed.

(** The same for [loadPlugins]: a pass that logs no error has loaded every
    plugin of the manifest. *)
Lemma loadPlugins_clean (p : Process W) out p' t :
  loadPlugins host p = (out, p', t) ->
  noErrorLogged t ->
  exists pluginYamlFilePath manifest new,
    (pluginYamlFilePath = homeManifest host (pluginHome (self p)) \/
     pluginYamlFilePath = builtinManifest host) /\
    yaml_load host pluginYamlFilePath (world (sys p)) = Returned (YamlPlugins manifest) /\
    loaded p p' manifest new /\
    List.map signature new
    = List.flat_map (messageListenersOf (store (sys p')))
        (sortByPriority (store (sys p'))
           (seq (length (store (sys p))) (length manifest))).
Proof.
  rewrite loadPlugins_run.
  destruct (loadPlugins_try host p) as [[r p1] t1] eqn:Htry.
  intros [= _ <- <-] Hclean.
  inversion Hclean as [|? ? _ Hclean']. apply Forall_app in Hclean'.
  destruct Hclean' as [Hc1 Hc2]. apply Forall_app in Hc2. destruct Hc2 as [Hc2 _].
  destruct r as [u|e].
  - eapply loadPlugins_try_clean; eassumption.
  - exfalso. eapply error_line_not_clean; eauto.
Qed.

Lemma lookup_total_app_length (h l : list IChatPlugin) i :
  (h ++ l) !!! (length h + i)%nat = l !!! i.
Proof.
  rewrite !list_lookup_total_alt, lookup_app_r by lia.
  replace (length h + i - length h)%nat with i by lia. reflexivity.
Qed.

(** Manifest priorities 3, 1, 4, 1 are loaded second, fourth, first, third
    plugin. *)
Lemma sortByPriority_3141 (h : DescriptorStore) a b c d :
  priority a = 3 -> priority b = 1 -> priority c = 4 -> priority d = 1 ->
  sortByPriority (h ++ [a; b; c; d]) (seq (length h) 4)
  = [length h + 1; length h + 3; length h; length h + 2]%nat.
Proof.
  intros Ha Hb Hc Hd. unfold sortByPriority. cbn [seq].
  replace (S (S (S (length h)))) with (length h + 3)%nat by lia.
  replace (S (S (length h))) with (length h + 2)%nat by lia.
  replace (S (length h)) with (length h + 1)%nat by lia.
  replace (length h) with (length h + 0)%nat at 1 by lia.
  cbn [Js.sort].
  repeat (cbn [Js.sort_insert]; rewrite ?lookup_total_app_length;
          cbn [lookup_total list_lookup_total]; rewrite ?Ha, ?Hb, ?Hc, ?Hd;
          match goal with
          | |- context [?x - ?y <? 0] =>
              let b := eval vm_compute in (x - y <? 0) in
              lazymatch b with
              | true => change (x - y <? 0) with true
              | false => change (x - y <? 0) with false
              end; cbv iota
          end).
  rewrite Nat.add_0_r. reflexivity.
Qed.

Lemma StronglySorted_impl {A} (R R' : A -> A -> Prop) l :
  (forall a b, R a b -> R' a b) -> StronglySorted R l -> StronglySorted R' l.
Proof.
  intros HR. induction 1 as [|x l _ IH Hx]; constructor; [exact IH|].
  eapply Forall_impl; [exact Hx|]. auto.
Qed.

Lemma StronglySorted_seq base n : StronglySorted lt (seq base n).
Proof.
  revert base. induction n as [|n IH]; intros base; cbn; constructor; [apply IH|].
  apply Forall_forall. intros x Hx. apply list_elem_of_In, in_seq in Hx. lia.
Qed.

(** *** The event registry *)

Lemma registeredEvents_refl (p : Process W) : registeredEvents p p [].
Proof. unfold registeredEvents. rewrite app_nil_r. reflexivity. Qed.

Lemma registeredEvents_trans (p p1 p2 : Process W) n1 n2 :
  registeredEvents p p1 n1 -> registeredEvents p1 p2 n2 ->
  registeredEvents p p2 (n1 ++ n2).
Proof. unfold registeredEvents. intros H1 H2. rewrite H2, H1, app_assoc. reflexivity. Qed.

Lemma registeredEvents_same (p p' : Process W) :
  botEventListener (self p') = botEventListener (self p) -> registeredEvents p p' [].
Proof. unfold registeredEvents. intros ->. rewrite app_nil_r. reflexivity. Qed.

Lemma registersEvents_same {A} (m : M (Process W) A) ok :
  (forall p out p' t, m p = (out, p', t) ->
                      botEventListener (self p') = botEventListener (self p)) ->
  registersEvents m ok.
Proof.
  intros Hm p out p' t Hrun. exists [].
  split; [apply registeredEvents_same; eapply Hm, Hrun | constructor].
Qed.

Lemma registersEvents_ret {A} (a : A) ok : registersEvents (W:=W) (ret a) ok.
Proof. apply registersEvents_same. intros p out p' t [= _ <- _]. reflexivity. Qed.

Lemma registersEvents_log lv x ok : registersEvents (W:=W) (log lv x) ok.
Proof. apply registersEvents_same. intros p out p' t [= _ <- _]. reflexivity. Qed.

Lemma registersEvents_get_this ok : registersEvents (W:=W) get_this ok.
Proof. apply registersEvents_same. intros p out p' t [= _ <- _]. reflexivity. Qed.

Lemma registersEvents_in_sys {A} (m : M (Sys W) A) ok : registersEvents (in_sys m) ok.
Proof.
  apply registersEvents_same. intros p out p' t. unfold in_sys.
  destruct (m (sys p)) as [[r s] t1]. intros [= _ <- _]. reflexivity.
Qed.

Lemma registersEvents_bind {A B} (m : M (Process W) A) (k : A -> M (Process W) B) ok :
  registersEvents m ok -> (forall a, registersEvents (k a) ok) ->
  registersEvents (bind m k) ok.
Proof.
  intros Hm Hk p out p' t Hrun. apply bind_inv in Hrun.
  destruct Hrun as [(a & p1 & t1 & t2 & H1 & H2 & _) | (e & H1 & _)].
  - apply Hm in H1. apply Hk in H2.
    destruct H1 as (n1 & Hr1 & Hok1). destruct H2 as (n2 & Hr2 & Hok2).
    exists (n1 ++ n2). split; [eapply registeredEvents_trans; eassumption|].
    apply Forall_app. auto.
  - apply Hm in H1. exact H1.
Qed.

Lemma registersEvents_set_plugins l ok : registersEvents (W:=W) (set_plugins l) ok.
Proof. apply registersEvents_same. intros p out p' t [= _ <- _]. reflexivity. Qed.

Lemma registersEvents_registerMessageListener entry ok :
  registersEvents (W:=W) (registerMessageListener entry) ok.
Proof. apply registersEvents_same. intros p out p' t [= _ <- _]. reflexivity. Qed.

Lemma registersEvents_registerEventListener entry (ok : IChatListenerRegistryEntry -> Prop) :
  ok entry -> registersEvents (W:=W) (registerEventListener entry) ok.
Proof.
  intros Hok p out p' t [= _ <- _]. exists [entry].
  split; [reflexivity|]. constructor; [exact Hok|constructor].
Qed.

(** The event listeners of one plugin are registered under that plugin, as
    event listeners. *)
Lemma registersEvents_registerListeners pluginPath plugin names :
  registersEvents (registerListeners host pluginPath plugin names)
                  (fun e => chatPlugin e = Shared plugin /\ listenerType e = LT_EVENT).
Proof.
  induction names as [|listenerName rest IH]; cbn [registerListeners].
  - apply registersEvents_ret.
  - apply registersEvents_bind; [|intros _; exact IH].
    destruct (Js.endsWith listenerName "MessageListener").
    + apply registersEvents_bind; [apply registersEvents_in_sys|]. intros _.
      apply registersEvents_bind; [apply registersEvents_log|]. intros _.
      apply registersEvents_bind; [apply registersEvents_in_sys|]. intros _.
      apply registersEvents_registerMessageListener.
    + destruct (Js.endsWith listenerName "EventListener").
      * apply registersEvents_bind; [apply registersEvents_in_sys|]. intros _.
        apply registersEvents_bind; [apply registersEvents_in_sys|]. intros _.
        apply registersEvents_registerEventListener. split; reflexivity.
      * apply registersEvents_log.
Qed.

Lemma registersEvents_loadPlugin pluginYamlFilePath plugin :
  registersEvents (loadPlugin host pluginYamlFilePath plugin)
                  (fun e => chatPlugin e = Shared plugin /\ listenerType e = LT_EVENT).
Proof.
  unfold loadPlugin.
  apply registersEvents_bind; [apply registersEvents_get_this|]. intros this.
  apply registersEvents_bind; [apply registersEvents_in_sys|]. intros h.
  apply registersEvents_bind; [apply registersEvents_log|]. intros _.
  apply registersEvents_bind; [apply registersEvents_in_sys|]. intros installed.
  destruct installed; cbn [negb]; [|apply registersEvents_log].
  apply registersEvents_bind; [apply registersEvents_in_sys|]. intros packageName.
  destruct (String.eqb _ _); cbn [negb]; [|apply registersEvents_log].
  apply registersEvents_bind; [apply registersEvents_registerListeners|]. intros _.
  apply registersEvents_bind; [apply registersEvents_log|]. intros _.
  apply registersEvents_bind; [apply registersEvents_get_this|]. intros this'.
  apply registersEvents_set_plugins.
Qed.

(** The loop registers event listeners plugin by plugin, in the order of the
    list it is given, whatever way it ends. *)
Lemma loadEach_events_drawn pluginYamlFilePath pluginList :
  forall (p : Process W) out p' t,
    loadEach host pluginYamlFilePath pluginList p = (out, p', t) ->
    exists new refs,
      registeredEvents p p' new /\
      Forall (fun e => listenerType e = LT_EVENT) new /\
      List.map chatPlugin new = List.map Shared refs /\
      drawn refs pluginList.
Proof.
  assert (Hone : forall plugin (n1 : list IChatListenerRegistryEntry),
            Forall (fun e => chatPlugin e = Shared plugin /\ listenerType e = LT_EVENT) n1 ->
            Forall (fun e => listenerType e = LT_EVENT) n1 /\
            List.map chatPlugin n1 = List.map Shared (repeat plugin (length n1))).
  { intros plugin n1 Hok. split.
    - eapply Forall_impl; [exact Hok|]. cbn. tauto.
    - apply Forall_chatPlugin_repeat. eapply Forall_impl; [exact Hok|]. cbn. tauto. }
  induction pluginList as [|plugin rest IH]; intros p out p' t Hrun.
  - injection Hrun as <- <- <-. exists [], []. split; [apply registeredEvents_refl|].
    split; [constructor|]. split; [reflexivity|constructor].
  - cbn [loadEach] in Hrun. apply bind_inv in Hrun.
    destruct Hrun as [(a & p1 & t1 & t2 & H1 & H2 & _) | (e & H1 & _)].
    + apply registersEvents_loadPlugin in H1. destruct H1 as (n1 & Hr1 & Hok1).
      apply Hone in Hok1. destruct Hok1 as [Hty1 Hmap1].
      apply IH in H2. destruct H2 as (n2 & refs2 & Hr2 & Hty2 & Hmap2 & Hd2).
      exists (n1 ++ n2), (repeat plugin (length n1) ++ refs2).
      split; [eapply registeredEvents_trans; eassumption|].
      split; [apply Forall_app; auto|].
      split; [rewrite !map_app, Hmap2, Hmap1; reflexivity|].
      apply drawn_repeat, Hd2.
    + apply registersEvents_loadPlugin in H1. destruct H1 as (n1 & Hr1 & Hok1).
      apply Hone in Hok1. destruct Hok1 as [Hty1 Hmap1].
      exists n1, (repeat plugin (length n1) ++ []).
      split; [exact Hr1|]. split; [exact Hty1|].
      split; [rewrite app_nil_r; exact Hmap1|].
      apply drawn_repeat. constructor.
Qed.

(** When the loop over the names of a descriptor returns, every name that
    stands for an event listener has been registered, once, in the order of
    the descriptor. *)
Lemma registerListeners_events pluginPath plugin names :
  forall (p : Process W) u p' t,
    registerListeners host pluginPath plugin names p = (Returned u, p', t) ->
    registeredEvents p p'
      (List.map (eventEntry pluginPath plugin) (List.filter isEventListenerName names)).
Proof.
  induction names as [|listenerName rest IH]; intros p u p' t Hrun.
  - injection Hrun as _ <- _. apply registeredEvents_refl.
  - cbn [registerListeners] in Hrun. apply bind_inv in Hrun.
    destruct Hrun as [(u1 & p1 & t1 & t2 & H1 & H2 & _) | (e & _ & Habs)];
      [|discriminate Habs].
    apply IH in H2. cbn [List.filter]. unfold isEventListenerName at 1.
    destruct (Js.endsWith listenerName "MessageListener") eqn:Hmsg; cbn [negb andb].
    + unfold bind, in_sys, call, log, emit in H1.
      destruct (node_require host pluginPath (world (sys p))) as [[[]|e] w1];
        [|discriminate H1].
      cbn in H1.
      destruct (node_new host (PluginListener pluginPath listenerName) w1) as [[[]|e] w2];
        [|discriminate H1].
      cbn in H1. injection H1 as _ <- _.
      change (List.map ?f ?l) with ([] ++ List.map f l).
      eapply registeredEvents_trans; [|exact H2].
      apply registeredEvents_same. reflexivity.
    + destruct (Js.endsWith listenerName "EventListener").
      * unfold bind, in_sys, call, log, emit in H1.
        destruct (node_require host pluginPath (world (sys p))) as [[[]|e] w1];
          [|discriminate H1].
        cbn in H1.
        destruct (node_new host (PluginListener pluginPath listenerName) w1) as [[[]|e] w2];
          [|discriminate H1].
        cbn in H1. injection H1 as _ <- _.
        cbn [List.map]. change (?x :: ?l) with ([x] ++ l).
        eapply registeredEvents_trans; [|exact H2].
        unfold registeredEvents. reflexivity.
      * injection H1 as _ <- _. exact H2.
Qed.

(** A plugin that is loaded without an error gets all its event listeners
    registered. *)
Lemma loadPlugin_events_clean pluginYamlFilePath plugin :
  forall (p : Process W) u p' t,
    loadPlugin host pluginYamlFilePath plugin p = (Returned u, p', t) ->
    noErrorLogged t ->
    registeredEvents p p'
      (eventEntriesOf host (pluginHome (self p)) (store (sys p)) plugin).
Proof.
  intros [this [h w]] u p' t Hrun Hclean. unfold loadPlugin in Hrun.
  returned_step Hrun Hclean this1 p1 H1 Ca. injection H1 as <- <- <-.
  returned_step Hrun Hclean h1 p1 H1 Cb. injection H1 as <- <- <-.
  returned_step Hrun Hclean u1 p1 H1 Cc. injection H1 as _ <- _.
  returned_step Hrun Hclean installed p1 H1 Cd. injection H1 as <- <- _.
  cbn [self sys store world pluginHome] in Hrun.
  fold (pluginPathOf host (pluginHome this) (package (h !!! plugin))) in Hrun.
  destruct (fs_existsSync host _ w); cbn [negb] in Hrun.
  2:{ injection Hrun as _ _ <-. exfalso. eapply error_line_not_clean; eauto. }
  returned_step Hrun Hclean packageName p1 H1 Ce.
  unfold in_sys, read in H1. cbn in H1. injection H1 as _ <- _.
  destruct (String.eqb _ _); cbn [negb] in Hrun.
  2:{ injection Hrun as _ _ <-. exfalso. eapply error_line_not_clean; eauto. }
  returned_step Hrun Hclean u2 p1 H1 Hc2.
  apply registerListeners_events in H1.
  returned_step Hrun Hclean u3 p2 H1' Cf. injection H1' as _ <- _.
  returned_step Hrun Hclean this2 p2 H1' Cg. injection H1' as <- <- _.
  injection Hrun as _ <- _.
  unfold eventEntriesOf. cbn [self sys store pluginHome].
  rewrite <- (app_nil_r (List.map _ _)).
  eapply registeredEvents_trans; [exact H1|].
  apply registeredEvents_same. reflexivity.
Qed.

(** A loop over the plugin list that logs no error registers the event
    listeners of every plugin of the list, plugin after plugin. *)
Lemma loadEach_events_clean pluginYamlFilePath pluginList :
  forall (p : Process W) u p' t,
    loadEach host pluginYamlFilePath pluginList p = (Returned u, p', t) ->
    noErrorLogged t ->
    registeredEvents p p'
      (List.flat_map (eventEntriesOf host (pluginHome (self p)) (store (sys p)))
                     pluginList).
Proof.
  induction pluginList as [|plugin rest IH]; intros p u p' t Hrun Hclean.
  - injection Hrun as _ <- _. apply registeredEvents_refl.
  - cbn [loadEach] in Hrun.
    returned_step Hrun Hclean u1 p1 H1 Hc1.
    pose proof (registers_loadPlugin _ _ _ _ _ _ H1) as (n1 & Hr1 & _).
    destruct Hr1 as (_ & _ & _ & Hhome & _ & Hstore).
    apply loadPlugin_events_clean in H1; [|exact Hc1].
    apply IH in Hrun; [|exact Hclean]. rewrite Hhome, Hstore in Hrun.
    cbn [List.flat_map]. eapply registeredEvents_trans; eassumption.
Qed.

(** The [try] block of [loadPlugins] comes to nothing, or to the loop over
    the sorted descriptors of the manifest. *)
Lemma loadPlugins_try_split (p : Process W) out p' t :
  loadPlugins_try host p = (out, p', t) ->
  (self p' = self p /\ store (sys p') = store (sys p)) \/
  exists pluginYamlFilePath manifest p0 t0 t1,
    self p0 = self p /\
    store (sys p0) = store (sys p) ++ manifest /\
    loadEach host pluginYamlFilePath
      (sortByPriority (store (sys p0)) (seq (length (store (sys p))) (length manifest))) p0
    = (out, p', t1) /\
    t = t0 ++ t1.
Proof.
  intros Hrun. unfold loadPlugins_try in Hrun.
  apply bind_inv in Hrun.
  destruct Hrun as [(this & p1 & ? & ? & H1 & Hrun & ->) | (? & H1 & _)];
    [|discriminate H1]. injection H1 as <- <- <-.
  apply bind_inv in Hrun. rewrite locateManifest_run in Hrun.
  destruct Hrun as [(located & p1 & ? & ? & H1 & Hrun & ->) | (? & H1 & _)].
  2:{ repeat destruct (fs_existsSync _ _ _); discriminate H1. }
  assert (Hp1 : p1 = p) by (repeat destruct (fs_existsSync _ _ _); congruence). subst p1.
  clear H1. destruct located as [pluginYamlFilePath|].
  2:{ injection Hrun as _ <- _. left. auto. }
  apply bind_inv in Hrun.
  destruct Hrun as [(content & p1 & ? & ? & H1 & Hrun & ->) | (? & H1 & _)].
  2:{ unfold in_sys in H1. destruct (readYamlFile _ _ _) as [[r s1] tt1] eqn:Hread.
      injection H1 as _ <- _. apply keeps_store_readYamlFile in Hread. left. auto. }
  assert (Hp1 : self p1 = self p /\ store (sys p1) = store (sys p)).
  { unfold in_sys in H1. destruct (readYamlFile _ _ _) as [[r s1] tt1] eqn:Hread.
    injection H1 as _ <- _. apply keeps_store_readYamlFile in Hread. auto. }
  clear H1. destruct Hp1 as [Hself1 Hstore1].
  apply bind_inv in Hrun.
  destruct Hrun as [(this1 & p2 & ? & ? & H1 & Hrun & ->) | (? & H1 & _)];
    [|discriminate H1]. injection H1 as <- <- <-.
  apply bind_inv in Hrun.
  destruct Hrun as [(h & p2 & ? & ? & H1 & Hrun & ->) | (? & H1 & _)];
    [|discriminate H1]. injection H1 as <- <- <-.
  apply bind_inv in Hrun.
  destruct Hrun as [(u & p2 & ? & ? & H1 & Hrun & ->) | (? & H1 & _)];
    [|discriminate H1]. injection H1 as _ <- <-.
  change {| self := self p1; sys := {| store := store (sys p1); world := world (sys p1) |} |}
    with (mkProcess (self p1) (mkSys (store (sys p1)) (world (sys p1)))) in Hrun.
  apply bind_inv in Hrun.
  destruct Hrun as [(pluginList & p2 & ? & ? & H1 & Hrun & ->) | (? & H1 & _)].
  2:{ destruct content as [l| | |]; [discriminate H1| | |];
        injection H1 as _ <- _; left; auto. }
  destruct content as [manifest| | |];
    [|discriminate H1|discriminate H1|discriminate H1].
  injection H1 as <- <- <-.
  apply bind_inv in Hrun.
  destruct Hrun as [(h' & p2 & ? & ? & H1 & Hrun & ->) | (e & H1 & _)];
    [|discriminate H1]. injection H1 as <- <- <-.
  apply bind_inv in Hrun.
  destruct Hrun as [(u' & p2 & ? & ? & H1 & Hrun & ->) | (e & H1 & _)];
    [|discriminate H1]. injection H1 as _ <- <-.
  cbn [self sys store] in Hrun.
  right.
  exists pluginYamlFilePath, manifest,
         (mkProcess (self p1) (mkSys (store (sys p1) ++ manifest) (world (sys p1)))).
  eexists _, _.
  split; [|split; [|split; [rewrite <- Hstore1; exact Hrun|]]].
  - exact Hself1.
  - cbn. rewrite Hstore1. reflexivity.
  - rewrite !app_assoc. reflexivity.
Qed.

(** What a load pass leaves in the event registry: listeners drawn, plugin by
    plugin, from the sorted plugin list, whatever way the pass ends; and, if
    it logs no error, the event listeners of every plugin of that list. *)
Lemma loadPlugins_events (p : Process W) out p' t :
  loadPlugins host p = (out, p', t) ->
  exists manifest new refs,
    store (sys p') = store (sys p) ++ manifest /\
    registeredEvents p p' new /\
    Forall (fun e => listenerType e = LT_EVENT) new /\
    List.map chatPlugin new = List.map Shared refs /\
    let h := store (sys p') in
    let pluginList := sortByPriority h (seq (length (store (sys p))) (length manifest)) in
    drawn refs pluginList /\
    (noErrorLogged t ->
     new = List.flat_map (eventEntriesOf host (pluginHome (self p)) h) pluginList).
Proof.
  rewrite loadPlugins_run.
  destruct (loadPlugins_try host p) as [[r p1] tr] eqn:Htry.
  intros [= _ <- <-].
  apply loadPlugins_try_split in Htry.
  destruct Htry as [(Hself & Hstore)
                   | (path & manifest & p0 & t0 & t1 & Hself & Hstore & Hloop & ->)].
  - exists [], [], []. split; [rewrite Hstore, app_nil_r; reflexivity|].
    split; [apply registeredEvents_same; rewrite Hself; reflexivity|].
    split; [constructor|]. split; [reflexivity|]. cbv zeta.
    split; [constructor|]. intros _. reflexivity.
  - pose proof (loadEach_drawn _ _ _ _ _ _ Hloop) as (n & _ & Hreg & _).
    destruct Hreg as (_ & _ & _ & _ & _ & Hstore1).
    pose proof (loadEach_events_drawn _ _ _ _ _ _ Hloop)
      as (new & refs & Hnew & Hty & Hmap & Hdrawn).
    assert (Hp0 : forall l, registeredEvents p0 p1 l -> registeredEvents p p1 l).
    { unfold registeredEvents. rewrite Hself. auto. }
    exists manifest, new, refs.
    split; [rewrite Hstore1; exact Hstore|].
    split; [apply Hp0, Hnew|]. split; [exact Hty|]. split; [exact Hmap|].
    cbv zeta. rewrite Hstore1.
    split; [exact Hdrawn|].
    intros Hclean. inversion Hclean as [|? ? _ Hclean']. apply Forall_app in Hclean'.
    destruct Hclean' as [Hc1 Hc2]. apply Forall_app in Hc2. destruct Hc2 as [Hc2 _].
    apply Forall_app in Hc1. destruct Hc1 as [_ Hc1].
    destruct r as [u|e]; [|exfalso; eapply error_line_not_clean; eauto].
    apply loadEach_events_clean in Hloop; [|exact Hc1]. rewrite Hself in Hloop.
    unfold registeredEvents in Hnew, Hloop. rewrite Hnew in Hloop.
    apply app_inv_head in Hloop. exact Hloop.
Qed.

(** C5.  A load pass never raises.  It allocates the descriptors of the
    manifest in manifest order and registers listeners plugin by plugin from
    the plugin list sorted by priority: what it appends to the message
    registry and what it appends to the event registry (all of it of the
    event kind) is drawn, each in turn, from that list.  The list holds every
    plugin of the manifest once, in ascending priority, plugins of equal
    priority in manifest order; so the listeners registered are, in either
    registry, in ascending priority of their plugins, those of equal priority
    in manifest order.  For priorities 3, 1, 4, 1 the plugins are taken
    second, fourth, first, third.  A pass that logs no error has read the
    manifest from plugin.yaml and has registered the message listeners and
    the event listeners of every plugin of the sorted list, plugin after
    plugin, each registry holding them in the order of the descriptors. *)
Theorem loadPlugins_registers_by_priority :
  forall (p : Process W),
    let '(out, p', t) := loadPlugins host p in
    out = Returned tt /\
    exists manifest new refs newEvents eventRefs,
      loaded p p' manifest new /\
      List.map chatPlugin new = List.map Shared refs /\
      registeredEvents p p' newEvents /\
      Forall (fun e => listenerType e = LT_EVENT) newEvents /\
      List.map chatPlugin newEvents = List.map Shared eventRefs /\
      let h := store (sys p') in
      let base := length (store (sys p)) in
      let pluginList := sortByPriority h (seq base (length manifest)) in
      drawn refs pluginList /\
      drawn eventRefs pluginList /\
      Permutation pluginList (seq base (length manifest)) /\
      StronglySorted (byPriorityThenManifest h) pluginList /\
      StronglySorted (byPriorityThenAddress h) refs /\
      StronglySorted (byPriorityThenAddress h) eventRefs /\
      (List.map priority manifest = [3; 1; 4; 1] ->
       pluginList = [base + 1; base + 3; base; base + 2]%nat) /\
      (noErrorLogged t ->
       List.map signature new = List.flat_map (messageListenersOf h) pluginList /\
       newEvents
       = List.flat_map (eventEntriesOf host (pluginHome (self p)) h) pluginList /\
       exists pluginYamlFilePath,
         (pluginYamlFilePath = homeManifest host (pluginHome (self p)) \/
          pluginYamlFilePath = builtinManifest host) /\
         yaml_load host pluginYamlFilePath (world (sys p))
         = Returned (YamlPlugins manifest)).
Proof.
  intros p. destruct (loadPlugins host p) as [[out p'] t] eqn:Hrun.
  pose proof (loadPlugins_clean _ _ _ _ Hrun) as Hclean.
  pose proof (loadPlugins_events _ _ _ _ Hrun)
    as (manifestE & newEvents & eventRefs & HstoreE & HregE & Hkind & HmapE & HE).
  cbv zeta in HE. destruct HE as (HdrawnE & HcleanE).
  apply loadPlugins_outcome in Hrun.
  destruct Hrun as (-> & manifest & new & refs & Hloaded & Hmap & Hdrawn).
  assert (manifestE = manifest) as ->.
  { destruct Hloaded as (_ & _ & _ & _ & _ & Hstore). rewrite Hstore in HstoreE.
    apply app_inv_head in HstoreE. congruence. }
  split; [reflexivity|].
  exists manifest, new, refs, newEvents, eventRefs.
  split; [exact Hloaded|]. split; [exact Hmap|]. split; [exact HregE|].
  split; [exact Hkind|]. split; [exact HmapE|].
  cbv zeta. split; [exact Hdrawn|]. split; [exact HdrawnE|].
  split; [apply sort_Permutation|].
  assert (Hsorted : StronglySorted (byPriorityThenManifest (store (sys p')))
            (sortByPriority (store (sys p'))
               (seq (length (store (sys p))) (length manifest)))).
  { apply sort_byKeyThen, StronglySorted_seq. }
  assert (Horder : forall picks,
            drawn picks (sortByPriority (store (sys p'))
                           (seq (length (store (sys p))) (length manifest))) ->
            StronglySorted (byPriorityThenAddress (store (sys p'))) picks).
  { intros picks Hpicks.
    eapply StronglySorted_impl; [|eapply drawn_StronglySorted; eassumption].
    intros a b [->|[Hlt|[Heq Hab]]].
    - right. split; [reflexivity|lia].
    - left. exact Hlt.
    - right. split; [exact Heq|lia]. }
  split; [exact Hsorted|]. split; [apply Horder, Hdrawn|].
  split; [apply Horder, HdrawnE|]. split.
  - intros Hprio. destruct Hloaded as (_ & _ & _ & _ & _ & ->).
    destruct manifest as [|a [|b [|c [|d [|? ?]]]]]; try discriminate Hprio.
    injection Hprio as Ha Hb Hc Hd. apply sortByPriority_3141; assumption.
  - intros Hquiet.
    destruct (Hclean Hquiet) as (path & manifest' & new' & Hpath & Hyaml & Hloaded' & Hsig).
    destruct Hloaded as (L1 & _ & _ & _ & _ & L6).
    destruct Hloaded' as (L1' & _ & _ & _ & _ & L6').
    rewrite L1 in L1'. apply app_inv_head in L1'. subst new'.
    rewrite L6 in L6'. apply app_inv_head in L6'. subst manifest'.
    split; [exact Hsig|]. split; [exact (HcleanE Hquiet)|]. exists path. auto.
Qed.

(** C7 (as amended).  When plugin.yaml is neither in the plugin home nor in
    the configuration folder of the chat server, the load pass logs that it
    skips loading plugins and returns normally: nothing is raised, nothing is
    registered, the bot and the store are as they were. *)
Theorem loadPlugins_without_manifest :
  forall (p : Process W),
    fs_existsSync host (homeManifest host (pluginHome (self p))) (world (sys p)) = false ->
    fs_existsSync host (builtinManifest host) (world (sys p)) = false ->
    loadPlugins host p = (Returned tt, p, skipLoadingTrace host (pluginHome (self p))).
Proof.
  intros p Hhome Hbuiltin. rewrite loadPlugins_run.
  unfold loadPlugins_try. unfold bind at 1. unfold get_this at 1. cbn.
  unfold bind at 1. rewrite locateManifest_run, Hhome, Hbuiltin. reflexivity.
Qed.

End Load.
(** ** Startup and the serving phase *)

Section Serving.
Context {W : Type} (host : Host W).

Lemma processLoop_keeps_store n :
  forall i ls cs (s : Sys W) out s' t,
    processLoop host n i ls cs s = (out, s', t) -> store s' = store s.
Proof.
  induction n as [|n IH]; intros i ls cs s out s' t Hrun.
  - injection Hrun as <- <- <-. reflexivity.
  - rewrite processLoop_S in Hrun.
    destruct (ls !! i); [|injection Hrun as <- <- <-; reflexivity].
    destruct cs; [|injection Hrun as <- <- <-; reflexivity].
    destruct (listener_processMessage _ _ _ _ _) as [[[msgs c']|e] w];
      [|injection Hrun as <- <- <-; reflexivity].
    destruct (bot_send _ _ _ _) as [[u|e] w2];
      [|injection Hrun as <- <- <-; reflexivity].
    destruct (processLoop _ _ _ _ _ _) as [[r s3] t3] eqn:Hrest.
    injection Hrun as <- <- <-. apply IH in Hrest. exact Hrest.
Qed.

Lemma processMessage_keeps_store this C (s : Sys W) out s' t :
  processMessage host this C s = (out, s', t) -> store s' = store s.
Proof.
  rewrite processMessage_run. cbv zeta.
  destruct (security_isAuthenticated host C (world s)) as [[] w1].
  - destruct (security_getPrincipal host C w1) as [[u|e] w2];
      [|intros [= <- <- <-]; reflexivity].
    destruct (extraData C) as [x|]; [|intros [= <- <- <-]; reflexivity].
    destruct (extra_listeners x) as [ls|]; [|intros [= <- <- <-]; reflexivity].
    destruct (processLoop _ _ _ _ _ _) as [[r s3] t3] eqn:Hloop.
    intros [= <- <- <-]. apply processLoop_keeps_store in Hloop. exact Hloop.
  - destruct (webapp_generateChallenge _ _ _) as [redirect w2].
    destruct (extraData C) as [x|]; [|intros [= <- <- <-]; reflexivity].
    destruct (extra_contexts x) as [cs|]; [|intros [= <- <- <-]; reflexivity].
    destruct (bot_send _ _ _ _) as [[u|e] w3]; intros [= <- <- <-]; reflexivity.
Qed.

Lemma matchMessage_keeps_store this C (s : Sys W) out s' t :
  matchMessage host this C s = (out, s', t) -> store s' = store s.
Proof.
  rewrite matchMessage_run.
  destruct (addressed this C); [|intros [= <- <- <-]; reflexivity].
  destruct (payload_type (payload C)); [|intros [= <- <- <-]; reflexivity].
  destruct (findMatched _ _ _ _ _ _) as [[o s1] t1] eqn:Hloop.
  apply findMatched_run in Hloop. destruct Hloop as (Hst & _).
  destruct o as [[ls cs]|e]; intros [= <- <- <-]; exact Hst.
Qed.

(** Every call of a listener in a match pass is on the clone made for that
    listener, and the listeners called are the registered ones from the
    first on. *)
Lemma matchMessage_calls this C (s : Sys W) out s' t :
  matchMessage host this C s = (out, s', t) ->
  Forall (fun c => mc_arg c = cloneFor (store s) C (mc_listener c)) (matchCalls t) /\
  List.map mc_listener (matchCalls t)
  = take (length (matchCalls t)) (chatListeners this) /\
  (addressed this C = true -> payload_type (payload C) = PT_MESSAGE ->
   chatListeners this <> [] -> matchCalls t <> []).
Proof.
  rewrite matchMessage_run.
  destruct (addressed this C);
    [|intros [= <- <- <-]; cbn; repeat split; [constructor|discriminate]].
  destruct (payload_type (payload C));
    [|intros [= <- <- <-]; cbn; repeat split; [constructor|discriminate]].
  destruct (findMatched _ _ _ _ _ _) as [[o s1] t1] eqn:Hloop.
  apply findMatched_run in Hloop. destruct Hloop as (_ & _ & Hargs & Hout).
  intros Hrun.
  assert (Hcalls : matchCalls t = matchCalls t1).
  { destruct o as [[ls cs]|e]; injection Hrun as <- <- <-;
      change (Log ?l ?x :: ?t) with ([Log l x] ++ t);
      rewrite !matchCalls_app; cbn; rewrite app_nil_r; reflexivity. }
  rewrite Hcalls. split; [exact Hargs|].
  destruct o as [[ls cs]|e].
  - destruct Hout as (Hreg & _). split.
    + rewrite <- Hreg. rewrite <- (length_map mc_listener (matchCalls t1)), firstn_all.
      reflexivity.
    + intros _ _ Hne Hnil. rewrite Hnil in Hreg. cbn in Hreg. congruence.
  - destruct Hout as (calls & l & a & Heq & _ & Hreg). split.
    + rewrite Hreg, Heq, length_app. cbn. f_equal. lia.
    + intros _ _ _ Hnil. rewrite Heq in Hnil. destruct calls; discriminate.
Qed.

Lemma step_registry op this (s : Sys W) :
  let '(this', s', t) := step host op (this, s) in
  chatListeners this' = chatListeners this ++ registrations [op] /\
  botName this' = botName this /\ config this' = config this /\
  store s' = store s.
Proof.
  destruct op as [e|C|C]; unfold step.
  - cbn. auto.
  - destruct (matchMessage host this C s) as [[o s'] t] eqn:Hrun.
    apply matchMessage_keeps_store in Hrun. cbn. rewrite app_nil_r. auto.
  - destruct (processMessage host this C s) as [[o s'] t] eqn:Hrun.
    apply processMessage_keeps_store in Hrun. cbn. rewrite app_nil_r. auto.
Qed.

Lemma run_ops_registry ops :
  forall this (s : Sys W),
    let '(this', s', t) := run_ops host ops (this, s) in
    chatListeners this' = chatListeners this ++ registrations ops /\
    botName this' = botName this /\ config this' = config this /\
    store s' = store s.
Proof.
  induction ops as [|op ops IH]; intros this s.
  - cbn. rewrite app_nil_r. auto.
  - cbn [run_ops]. pose proof (step_registry op this s) as Hstep.
    destruct (step host op (this, s)) as [[this1 s1] t1].
    specialize (IH this1 s1).
    destruct (run_ops host ops (this1, s1)) as [[this2 s2] t2].
    destruct Hstep as (H1 & H2 & H3 & H4). destruct IH as (G1 & G2 & G3 & G4).
    change (op :: ops) with ([op] ++ ops).
    unfold registrations in *. rewrite omap_app, G1, H1, app_assoc.
    repeat split; congruence.
Qed.

(** C8 (as amended).  The registry is append-only and has no phase:
    whatever calls were made before, [matchMessage] among them, a call of
    [registerChatListener] puts its entry at the end of the registry, and no
    other call changes the registry.  After any sequence of calls the
    registry is what it was, followed by the entries registered, in order. *)
Theorem registry_append_only :
  forall ops this (s : Sys W),
    chatListeners (fst (fst (run_ops host ops (this, s))))
    = chatListeners this ++ registrations ops.
Proof.
  intros ops this s. pose proof (run_ops_registry ops this s) as H.
  destruct (run_ops host ops (this, s)) as [[this' s'] t]. cbn. apply H.
Qed.

(** [setBotListeners], when it returns, has allocated the descriptor of the
    chat server and registered the built-in listener under it. *)
Lemma setBotListeners_run (p : Process W) out p' t :
  setBotListeners host p = (out, p', t) ->
  out = Returned tt ->
  loaded p p' [logoutPlugin] [logoutEntry (length (store (sys p)))].
Proof.
  unfold setBotListeners, bind, in_sys, call, new_descriptor, alloc, log, emit,
    registerMessageListener, registerChatListener, set_botMessageListener, get_this,
    set_this, get_store, ret. cbn.
  destruct (node_new host LogoutMessageListener (world (sys p))) as [[u|e] w]; cbn.
  - intros [= <- <- <-] _. unfold loaded. cbn. auto 10.
  - intros [= <- <- <-]. discriminate.
Qed.

(** What a started bot looks like. *)
Lemma ChatBot_new_running chatConfig (s : Sys W) bot s1 t1 :
  ChatBot_new host chatConfig s = (Running bot, s1, t1) ->
  exists manifest new,
    chatListeners (botMessageListener bot) = logoutEntry (length (store s)) :: new /\
    store s1 = store s ++ logoutPlugin :: manifest.
Proof.
  unfold ChatBot_new.
  destruct (init_capabilities host chatConfig (world s)) as [[|e|code] w];
    [|discriminate|discriminate].
  match goal with
  | |- context [match ?body ?p0 with _ => _ end] =>
      destruct (body p0) as [[[u|e] p3] t2] eqn:Hbody
  end; [|discriminate].
  intros [= <- <- <-].
  apply bind_inv in Hbody.
  destruct Hbody as [([] & p1 & ? & ? & Hset & Hbody & _) | (? & _ & ?)]; [|discriminate].
  apply setBotListeners_run in Hset; [|reflexivity].
  apply bind_inv in Hbody.
  destruct Hbody as [(? & p2 & ? & ? & Hplugins & Hbody & _) | (? & _ & ?)]; [|discriminate].
  injection Hplugins as <- <-.
  apply bind_inv in Hbody.
  destruct Hbody as [(? & p2 & ? & ? & Hload & Hbody & _) | (? & _ & ?)]; [|discriminate].
  injection Hbody as <- <-.
  apply loadPlugins_outcome in Hload.
  destruct Hload as (_ & manifest & new & refs & Hloaded & _).
  exists manifest, new.
  destruct Hset as (S1 & _ & _ & _ & _ & S6).
  destruct Hloaded as (L1 & _ & _ & _ & _ & L6).
  cbn in S1, S6, L1, L6. rewrite L1, S1, L6, S6, <- app_assoc. auto.
Qed.

(** C10.  In a bot that has started, the first entry of the message registry
    is the built-in LogoutListener, whose descriptor (package chat, priority
    1) was allocated at startup.  That stays so after any sequence of calls
    on the message listener, and in every match pass that consults listeners
    at all the first one consulted is the LogoutListener; a pass on a plain
    message addressed to the bot does consult it. *)
Theorem logout_listener_first :
  forall chatConfig (s : Sys W) bot s1 t1,
    ChatBot_new host chatConfig s = (Running bot, s1, t1) ->
    let logout := logoutEntry (length (store s)) in
    package logoutPlugin = "chat" /\ priority logoutPlugin = 1 /\
    forall ops,
      let '(this, s2, _) := run_ops host ops (botMessageListener bot, s1) in
      chatListeners this !! 0%nat = Some logout /\
      deref (store s2) (chatPlugin logout) = logoutPlugin /\
      forall C,
        let '(_, _, t) := matchMessage host this C s2 in
        (forall call, matchCalls t !! 0%nat = Some call -> mc_listener call = logout) /\
        (addressed this C = true -> payload_type (payload C) = PT_MESSAGE ->
         is_Some (matchCalls t !! 0%nat)).
Proof.
  intros chatConfig s bot s1 t1 Hnew logout.
  split; [reflexivity|]. split; [reflexivity|].
  apply ChatBot_new_running in Hnew. destruct Hnew as (manifest & new & Hreg & Hstore).
  intros ops. pose proof (run_ops_registry ops (botMessageListener bot) s1) as Hops.
  destruct (run_ops host ops (botMessageListener bot, s1)) as [[this s2] t2].
  destruct Hops as (Hls & _ & _ & Hst).
  assert (Hfirst : chatListeners this !! 0%nat = Some logout)
    by (rewrite Hls, Hreg; reflexivity).
  split; [exact Hfirst|]. split.
  { subst logout.
    change (deref (store s2) (chatPlugin (logoutEntry (length (store s)))))
      with (store s2 !!! length (store s)).
    rewrite Hst, Hstore.
    transitivity ((store s ++ logoutPlugin :: manifest) !!! (length (store s) + 0)%nat);
      [f_equal; lia | apply lookup_total_app_length]. }
  intros C. destruct (matchMessage host this C s2) as [[o s3] t] eqn:Hrun.
  apply matchMessage_calls in Hrun. destruct Hrun as (_ & Hmap & Hsome). split.
  - intros call Hcall.
    assert (Hm : List.map mc_listener (matchCalls t) !! 0%nat = Some (mc_listener call))
      by (rewrite list_lookup_fmap, Hcall; reflexivity).
    rewrite Hmap, lookup_take_lt in Hm by (apply lookup_lt_Some in Hcall; exact Hcall).
    rewrite Hfirst in Hm. congruence.
  - intros Haddr Hmsg. specialize (Hsome Haddr Hmsg).
    destruct (matchCalls t) as [|c cs]; [|eauto].
    exfalso. apply Hsome; [|reflexivity]. intros Hnil. rewrite Hnil in Hfirst. discriminate.
Qed.

End Serving.
(** ** Clones and what they share *)




Section Clones.
Context {W : Type} (host : Host W).


End Clones.
(** * Further properties of the code *)

(** ** The match pass: edges and frame *)

Section MatchMore.
Context {W : Type} (host : Host W).

(** The listener calls of a pass over an addressed plain message are those
    of its loop. *)
Lemma matchMessage_loop this C (s : Sys W) :
  addressed this C = true ->
  payload_type (payload C) = PT_MESSAGE ->
  exists o s1 t1 tail,
    findMatched host (chatListeners this) C [] [] s = (o, s1, t1) /\
    matchMessage host this C s
    = (match o with
       | Returned (ls, cs) => Returned (Some (0 <? length ls)%nat, setPools C ls cs)
       | Thrown e => Returned (None, C)
       end, s1, Log LStart [Str "matchMessage"] :: t1 ++ tail) /\
    matchCalls (Log LStart [Str "matchMessage"] :: t1 ++ tail) = matchCalls t1 /\
    last tail = Some (Log LEnd [Str "matchMessage"]).
Proof.
  intros Haddr Hmsg. rewrite matchMessage_run, Haddr, Hmsg.
  destruct (findMatched host (chatListeners this) C [] [] s) as [[[[ls cs]|e] s1] t1].
  - eexists _, _, _, _. split; [reflexivity|]. split; [reflexivity|].
    split; [|reflexivity].
    change (Log ?l ?x :: ?t) with ([Log l x] ++ t).
    rewrite !matchCalls_app. cbn. rewrite app_nil_r. reflexivity.
  - eexists _, _, _, _. split; [reflexivity|]. split; [reflexivity|].
    split; [|reflexivity].
    change (Log ?l ?x :: ?t) with ([Log l x] ++ t).
    rewrite !matchCalls_app. cbn. rewrite app_nil_r. reflexivity.
Qed.

(** X1.  A payload that is addressed to the bot but is not a plain message is
    turned down without asking any listener: the wrong payload type is logged
    as an error, [matchMessage] returns false, and the inbound context gets
    empty pools. *)
Theorem matchMessage_wrong_payload_type :
  forall this C (s : Sys W),
    addressed this C = true ->
    payload_type (payload C) <> PT_MESSAGE ->
    let '(out, s', t) := matchMessage host this C s in
    out = Returned (Some false, setPools C [] []) /\
    s' = s /\
    matchCalls t = [] /\
    In (Log LError [Str "Wrong payload type: "; PayloadKind (payload_type (payload C))]) t.
Proof.
  intros this C s Haddr Htype. rewrite matchMessage_run, Haddr.
  destruct (payload_type (payload C)); [congruence|].
  split; [reflexivity|]. split; [reflexivity|]. split; [reflexivity|].
  cbn. tauto.
Qed.

(** X2.  [matchMessage] never raises, whatever the listeners do, and its
    start and end are always logged.  It returns [undefined] instead of a
    boolean exactly when a listener raised. *)
Theorem matchMessage_never_raises :
  forall this C (s : Sys W),
    let '(out, _, t) := matchMessage host this C s in
    exists result C',
      out = Returned (result, C') /\
      (result = None <-> Exists (fun c => is_thrown (mc_res c) = true) (matchCalls t)) /\
      head t = Some (Log LStart [Str "matchMessage"]) /\
      last t = Some (Log LEnd [Str "matchMessage"]).
Proof.
  intros this C s.
  destruct (addressed this C) eqn:Haddr.
  2:{ rewrite matchMessage_run, Haddr. eexists _, _. split; [reflexivity|].
      split; [|split; reflexivity]. cbn. split; [discriminate|]. intros H. inversion H. }
  destruct (payload_type (payload C)) eqn:Hmsg.
  2:{ rewrite matchMessage_run, Haddr, Hmsg. eexists _, _. split; [reflexivity|].
      split; [|split; reflexivity]. cbn. split; [discriminate|]. intros H. inversion H. }
  destruct (matchMessage_loop this C s Haddr Hmsg)
    as (o & s1 & t1 & tail & Hloop & -> & Hcalls & Hlast).
  rewrite Hcalls. apply findMatched_run in Hloop. destruct Hloop as (_ & _ & _ & Hout).
  assert (Hend : last (Log LStart [Str "matchMessage"] :: t1 ++ tail)
                 = Some (Log LEnd [Str "matchMessage"])).
  { change (Log LStart [Str "matchMessage"] :: t1 ++ tail)
      with ((Log LStart [Str "matchMessage"] :: t1) ++ tail).
    destruct tail as [|ev tail]; [discriminate Hlast|].
    rewrite last_app_cons. exact Hlast. }
  destruct o as [[ls cs]|e].
  - eexists _, _. split; [reflexivity|]. split; [|split; [reflexivity|exact Hend]].
    destruct Hout as (_ & Hquiet & _). split; [discriminate|].
    intros Hex. exfalso. apply Exists_exists in Hex. destruct Hex as (c & Hc & Hthrown).
    rewrite Forall_forall in Hquiet. specialize (Hquiet c Hc). congruence.
  - eexists _, _. split; [reflexivity|]. split; [|split; [reflexivity|exact Hend]].
    destruct Hout as (calls & l & a & Heq & _). split; [|reflexivity].
    intros _. rewrite Heq. apply Exists_app. right. constructor. reflexivity.
Qed.

(** X3.  On the inbound context [matchMessage] itself writes nothing but the
    two pools, [extraData.listeners] and [extraData.contexts]: in the context
    it hands back, the payload, the conversation, [extraData.chatPlugin] and
    the keys of [extraData] that hold a text are as they came in.  (The
    listeners are given clones; what a listener reaches through its clone is
    the subject of C6.) *)
Theorem matchMessage_frame :
  forall this C (s : Sys W),
    let '(out, _, _) := matchMessage host this C s in
    exists result C',
      out = Returned (result, C') /\
      payload C' = payload C /\
      context C' = context C /\
      stampedPlugin C' = stampedPlugin C /\
      customKeys C' = customKeys C.
Proof.
  intros this C s.
  destruct (matchMessage host this C s) as [[out s'] t] eqn:Hrun.
  assert (Hpools : forall ls cs,
            payload (setPools C ls cs) = payload C /\
            context (setPools C ls cs) = context C /\
            stampedPlugin (setPools C ls cs) = stampedPlugin C /\
            customKeys (setPools C ls cs) = customKeys C).
  { intros ls cs. unfold setPools, stampedPlugin, customKeys.
    destruct (extraData C); cbn; auto. }
  rewrite matchMessage_run in Hrun.
  destruct (addressed this C).
  2:{ injection Hrun as <- _ _. eexists _, _. split; [reflexivity|]. auto. }
  destruct (payload_type (payload C)).
  2:{ injection Hrun as <- _ _. eexists _, _. split; [reflexivity|]. apply Hpools. }
  destruct (findMatched _ _ _ _ _ _) as [[[[ls cs]|e] s1] t1];
    injection Hrun as <- _ _; eexists _, _; (split; [reflexivity|]); auto.
Qed.

(** What a pass that returned true has been through. *)
Lemma matchMessage_true_run this C (s : Sys W) C' s' t :
  matchMessage host this C s = (Returned (Some true, C'), s', t) ->
  addressed this C = true /\
  payload_type (payload C) = PT_MESSAGE /\
  Forall (fun c => is_thrown (mc_res c) = false) (matchCalls t) /\
  List.map mc_listener (matchCalls t) = chatListeners this /\
  let matched := omap accepted (matchCalls t) in
  (0 < length matched)%nat /\
  C' = setPools C (List.map fst matched) (List.map snd matched).
Proof.
  intros Hrun.
  destruct (addressed this C) eqn:Haddr;
    [|rewrite matchMessage_run, Haddr in Hrun; discriminate Hrun].
  destruct (payload_type (payload C)) eqn:Hmsg;
    [|rewrite matchMessage_run, Haddr, Hmsg in Hrun; discriminate Hrun].
  destruct (matchMessage_loop this C s Haddr Hmsg)
    as (o & s1 & t1 & tail & Hloop & Heq & Hcalls & _).
  rewrite Heq in Hrun. injection Hrun as Hout _ Ht. rewrite <- Ht, Hcalls.
  apply findMatched_run in Hloop. destruct Hloop as (_ & _ & _ & Hloop).
  destruct o as [[ls cs]|e]; [|discriminate Hout].
  destruct Hloop as (Hreg & Hquiet & Hls & Hcs). cbn in Hls, Hcs.
  injection Hout as Hpos <-. subst ls cs. rewrite length_map in Hpos.
  split; [reflexivity|]. split; [reflexivity|]. split; [exact Hquiet|].
  split; [exact Hreg|]. cbv zeta. split; [apply Nat.ltb_lt; exact Hpos | reflexivity].
Qed.

(** X4.  [matchMessage] returns true only for a plain message addressed to
    the bot, in a pass in which no listener raised; the context then carries
    two pools of the same length, at least one listener in them, and the
    listeners are registered ones, in registry order. *)
Theorem matchMessage_true_only_if :
  forall this C (s : Sys W) C' s' t,
    matchMessage host this C s = (Returned (Some true, C'), s', t) ->
    addressed this C = true /\
    payload_type (payload C) = PT_MESSAGE /\
    Forall (fun c => is_thrown (mc_res c) = false) (matchCalls t) /\
    exists x listeners contexts,
      extraData C' = Some x /\
      extra_listeners x = Some listeners /\
      extra_contexts x = Some contexts /\
      listeners = List.map fst (omap accepted (matchCalls t)) /\
      contexts = List.map snd (omap accepted (matchCalls t)) /\
      (0 < length listeners)%nat /\
      length contexts = length listeners /\
      sublist listeners (chatListeners this).
Proof.
  intros this C s C' s' t Hrun.
  destruct (matchMessage_true_run _ _ _ _ _ _ Hrun)
    as (Haddr & Hmsg & Hquiet & Hreg & Hpos & ->).
  split; [exact Haddr|]. split; [exact Hmsg|]. split; [exact Hquiet|].
  set (matched := omap accepted (matchCalls t)) in *.
  exists (match extraData C with
          | Some x => mkExtra (extra_chatPlugin x) (Some (List.map fst matched))
                              (Some (List.map snd matched)) (extra_custom x)
          | None => mkExtra None (Some (List.map fst matched))
                            (Some (List.map snd matched)) ∅
          end), (List.map fst matched), (List.map snd matched).
  split; [unfold setPools; destruct (extraData C); reflexivity|].
  split; [destruct (extraData C); reflexivity|].
  split; [destruct (extraData C); reflexivity|].
  split; [reflexivity|]. split; [reflexivity|].
  split; [rewrite length_map; exact Hpos|].
  split; [rewrite !length_map; reflexivity|].
  rewrite <- Hreg. apply accepted_sublist.
Qed.

End MatchMore.
(** ** The dispatch pass: edges, replies and the pipeline *)

Section DispatchMore.
Context {W : Type} (host : Host W).

Lemma dispatchCalls_app t1 t2 :
  dispatchCalls (t1 ++ t2) = dispatchCalls t1 ++ dispatchCalls t2.
Proof. apply List.filter_app. Qed.

(** In the loop a listener call and the send of its reply take turns; the
    loop ends after a send, or after a listener call that raised. *)
Lemma processLoop_alternates n :
  forall i ls cs (s : Sys W) out s' t,
    processLoop host n i ls cs s = (out, s', t) ->
    dispatchCalls t = alternate (processCalls t) (sendCalls t) /\
    (length (processCalls t) = length (sendCalls t) \/
     length (processCalls t) = S (length (sendCalls t)) /\
     exists pc e, last (processCalls t) = Some pc /\ pc_res pc = Thrown e).
Proof.
  induction n as [|n IH]; intros i ls cs s out s' t Hrun.
  - injection Hrun as _ _ <-. cbn. auto.
  - rewrite processLoop_S in Hrun.
    destruct (ls !! i) as [listener|]; [|injection Hrun as _ _ <-; cbn; auto].
    destruct cs as [contexts|]; [|injection Hrun as _ _ <-; cbn; auto].
    destruct (listener_processMessage _ _ _ _ _) as [[[msgs c']|e] w].
    2:{ injection Hrun as _ _ <-. cbn. split; [reflexivity|]. right.
        split; [reflexivity|]. eexists _, e. split; reflexivity. }
    destruct (bot_send _ _ _ _) as [[u|e] w2].
    2:{ injection Hrun as _ _ <-. cbn. auto. }
    destruct (processLoop _ _ _ _ _ _) as [[r s3] t3] eqn:Hrest.
    injection Hrun as _ _ <-. apply IH in Hrest. destruct Hrest as (Halt & Hlen).
    rewrite processCalls_cons_process, processCalls_cons_log, processCalls_cons_send.
    rewrite sendCalls_cons_process, sendCalls_cons_log, sendCalls_cons_send.
    split.
    + unfold dispatchCalls in *. cbn [List.filter isDispatchCall alternate].
      cbn [pc_listener pc_arg pc_res sc_target sc_msgs sc_res].
      rewrite Halt. reflexivity.
    + destruct Hlen as [Heq | (Heq & pc & e & Hlast & Hres)].
      * left. cbn. lia.
      * right. split; [cbn; lia|]. exists pc, e. split; [|exact Hres].
        destruct (processCalls t3) as [|p ps]; [discriminate Hlast|]. exact Hlast.
Qed.

(** An authenticated pass, path by path: either nothing is dispatched, or the
    calls are those of the loop over the recorded pools. *)
Lemma processMessage_authenticated_cases this C (s : Sys W) out s' t :
  processMessage host this C s = (out, s', t) ->
  isAuthenticated host C s = true ->
  out = Returned tt /\
  last t = Some (Log LEnd [Str "processMessage"]) /\
  ((dispatchCalls t = [] /\ processCalls t = [] /\ sendCalls t = [] /\
    exists e, errorLogged e t)
   \/
   exists x ls w r s3 t3,
     extraData C = Some x /\
     extra_listeners x = Some ls /\
     processLoop host
       (Z.to_nat (effectiveLimit (pluginLimit (config this)) (length ls))) 0
       ls (extra_contexts x) (mkSys (store s) w) = (r, s3, t3) /\
     dispatchCalls t = dispatchCalls t3 /\
     processCalls t = processCalls t3 /\
     sendCalls t = sendCalls t3).
Proof.
  intros Hrun Hauth. rewrite processMessage_run in Hrun.
  unfold isAuthenticated in Hauth. cbv zeta in Hrun.
  destruct (security_isAuthenticated host C (world s)) as [a w1]. cbn in Hauth. subst a.
  destruct (security_getPrincipal host C w1) as [[u|e] w2].
  2:{ injection Hrun as <- _ <-. split; [reflexivity|]. split; [reflexivity|].
      left. repeat split. exists e. unfold errorLogged. cbn. tauto. }
  destruct (extraData C) as [x|] eqn:Hx.
  2:{ injection Hrun as <- _ <-. split; [reflexivity|]. split; [reflexivity|].
      left. repeat split. eexists. unfold errorLogged. cbn. right. right. right. left.
      reflexivity. }
  destruct (extra_listeners x) as [ls|] eqn:Hls.
  2:{ injection Hrun as <- _ <-. split; [reflexivity|]. split; [reflexivity|].
      left. repeat split. eexists. unfold errorLogged. cbn. do 4 right. left.
      reflexivity. }
  destruct (processLoop _ _ _ _ _ _) as [[r s3] t3] eqn:Hloop.
  injection Hrun as <- _ <-. split; [reflexivity|]. split.
  { rewrite !app_assoc, !app_comm_cons. apply last_snoc. }
  right. exists x, ls, w2, r, s3, t3.
  split; [reflexivity|]. split; [exact Hls|]. split; [exact Hloop|].
  split; [|split].
  - unfold dispatchCalls. cbn [List.filter isDispatchCall]. rewrite !List.filter_app.
    destruct r; cbn; rewrite ?app_nil_r; reflexivity.
  - repeat rewrite processCalls_cons. cbn [as_processCall]. rewrite !processCalls_app.
    destruct r; cbn; rewrite ?app_nil_r; reflexivity.
  - repeat rewrite sendCalls_cons. cbn [as_sendCall]. rewrite !sendCalls_app.
    destruct r; cbn; rewrite ?app_nil_r; reflexivity.
Qed.

(** X5.  For an authenticated sender [processMessage] never rejects:
    whatever the security manager, the listeners and the transport return or
    raise, and whatever the context carries, the promise resolves once the
    calls it awaits have settled, and the last thing the pass does is to log
    its end.  (Every call to a collaborator returns or raises here; a
    listener that never answers, which leaves the promise pending, is not
    among the runs described.) *)
Theorem processMessage_authenticated_never_raises :
  forall this C (s : Sys W),
    isAuthenticated host C s = true ->
    let '(out, _, t) := processMessage host this C s in
    out = Returned tt /\
    last t = Some (Log LEnd [Str "processMessage"]).
Proof.
  intros this C s Hauth.
  destruct (processMessage host this C s) as [[out s'] t] eqn:Hrun.
  destruct (processMessage_authenticated_cases _ _ _ _ _ _ Hrun Hauth) as (Hout & Hlast & _).
  split; [exact Hout | exact Hlast].
Qed.

(** X6.  A context that carries no pool of contexts (one that no match pass
    has recorded anything on) is never dispatched: no listener is called and
    nothing is sent.  For an authenticated sender the pass still resolves;
    for a sender who is not authenticated it raises a TypeError after the
    challenge link has been generated, and its end is not logged. *)
Theorem processMessage_without_pools :
  forall this C (s : Sys W),
    contextPool C = None ->
    let '(out, _, t) := processMessage host this C s in
    processCalls t = [] /\
    sendCalls t = [] /\
    if isAuthenticated host C s then out = Returned tt
    else (exists msg, out = Thrown (TypeError msg)) /\
         (exists url,
             In (CallGenerateChallenge (chatting_user (chatting (context C))) url) t) /\
         ~ In (Log LEnd [Str "processMessage"]) t.
Proof.
  intros this C s Hpool.
  destruct (processMessage host this C s) as [[out s'] t] eqn:Hrun.
  destruct (isAuthenticated host C s) eqn:Hauth.
  - destruct (processMessage_authenticated_cases _ _ _ _ _ _ Hrun Hauth)
      as (Hout & _ & [(_ & Hp & Hs & _)
                     | (x & ls & w & r & s3 & t3 & Hx & _ & Hloop & _ & Hp & Hs)]);
      [auto|].
    unfold contextPool in Hpool. rewrite Hx in Hpool. rewrite Hpool in Hloop.
    apply processLoop_run in Hloop. cbv zeta in Hloop.
    destruct Hloop as (_ & _ & Hlen & Hargs & _).
    assert (Hnone : processCalls t3 = []).
    { destruct (processCalls t3) as [|c pcs]; [reflexivity|].
      destruct (Hargs 0%nat c eq_refl) as (contexts & Habs & _). discriminate Habs. }
    rewrite Hnone in Hlen. rewrite Hp, Hs, Hnone.
    destruct (sendCalls t3); [auto | cbn in Hlen; lia].
  - rewrite processMessage_run in Hrun. unfold isAuthenticated in Hauth. cbv zeta in Hrun.
    destruct (security_isAuthenticated host C (world s)) as [a w1]. cbn in Hauth. subst a.
    destruct (webapp_generateChallenge _ _ _) as [redirect w2].
    unfold contextPool in Hpool.
    destruct (extraData C) as [x|].
    + rewrite Hpool in Hrun. injection Hrun as <- _ <-.
      split; [reflexivity|]. split; [reflexivity|].
      split; [eauto|]. split; [exists redirect; cbn; tauto|].
      cbn. intros [H|[H|[H|[H|[]]]]]; discriminate H.
    + injection Hrun as <- _ <-.
      split; [reflexivity|]. split; [reflexivity|].
      split; [eauto|]. split; [exists redirect; cbn; tauto|].
      cbn. intros [H|[H|[H|[H|[]]]]]; discriminate H.
Qed.

(** X7.  When the security manager raises on the lookup of the principal, an
    authenticated pass ends there: no listener is called, nothing is sent,
    the error is logged and [processMessage] resolves. *)
Theorem processMessage_principal_failure :
  forall this C (s : Sys W) e,
    isAuthenticated host C s = true ->
    fst (security_getPrincipal host C (snd (security_isAuthenticated host C (world s))))
    = Thrown e ->
    let '(out, _, t) := processMessage host this C s in
    out = Returned tt /\
    processCalls t = [] /\
    sendCalls t = [] /\
    errorLogged e t.
Proof.
  intros this C s e Hauth Hprincipal. rewrite processMessage_run.
  unfold isAuthenticated in Hauth. cbv zeta.
  destruct (security_isAuthenticated host C (world s)) as [a w1]. cbn in Hauth, Hprincipal.
  subst a.
  destruct (security_getPrincipal host C w1) as [p w2]. cbn in Hprincipal. subst p.
  repeat split. unfold errorLogged. cbn. tauto.
Qed.

(** X8.  In an authenticated pass listener calls and sends take turns, a
    listener call first: the reply of a listener is sent before the next
    listener is called.  Each send carries the messages that the listener of
    the same turn returned, to the context as that listener left it; a
    listener call without a send is the last one, and it raised. *)
Theorem replies_follow_their_listeners :
  forall this C (s : Sys W),
    isAuthenticated host C s = true ->
    let '(_, _, t) := processMessage host this C s in
    dispatchCalls t = alternate (processCalls t) (sendCalls t) /\
    (forall j sc, sendCalls t !! j = Some sc ->
       exists pc msgs contextData,
         processCalls t !! j = Some pc /\
         pc_res pc = Returned (msgs, contextData) /\
         sc_target sc = contextData /\
         sc_msgs sc = msgs) /\
    (length (processCalls t) = length (sendCalls t) \/
     length (processCalls t) = S (length (sendCalls t)) /\
     exists pc e, last (processCalls t) = Some pc /\ pc_res pc = Thrown e).
Proof.
  intros this C s Hauth.
  destruct (processMessage host this C s) as [[out s'] t] eqn:Hrun.
  destruct (processMessage_authenticated_cases _ _ _ _ _ _ Hrun Hauth)
    as (_ & _ & [(Hd & Hp & Hs & _) | (x & ls & w & r & s3 & t3 & _ & _ & Hloop & Hd & Hp & Hs)]).
  - rewrite Hd, Hp, Hs. split; [reflexivity|]. split; [|left; reflexivity].
    intros j sc Hsc. rewrite lookup_nil in Hsc. discriminate Hsc.
  - rewrite Hd, Hp, Hs.
    pose proof (processLoop_alternates _ _ _ _ _ _ _ _ Hloop) as (Halt & Hlen).
    apply processLoop_run in Hloop. cbv zeta in Hloop.
    destruct Hloop as (_ & _ & _ & _ & Hsends & _).
    split; [exact Halt|]. split; [exact Hsends | exact Hlen].
Qed.

(** X9.  With an empty pool of contexts (a match pass that matched nothing),
    a sender who is not authenticated still gets the login prompt sent, to an
    undefined target, and no listener is called. *)
Theorem login_prompt_without_target :
  forall this C (s : Sys W) x,
    isAuthenticated host C s = false ->
    extraData C = Some x ->
    extra_contexts x = Some [] ->
    let '(out, _, t) := processMessage host this C s in
    processCalls t = [] /\
    exists url,
      sendCalls t
      = [mkSendCall None [loginPrompt (chatting_user (chatting (context C))) url] out].
Proof.
  intros this C s x Hauth Hx Hcs. rewrite processMessage_run.
  unfold isAuthenticated in Hauth. cbv zeta.
  destruct (security_isAuthenticated host C (world s)) as [a w1]. cbn in Hauth. subst a.
  destruct (webapp_generateChallenge _ _ _) as [redirect w2].
  rewrite Hx, Hcs. cbn.
  destruct (bot_send _ _ _ _) as [[[]|e] w3]; (split; [reflexivity|]);
    exists redirect; reflexivity.
Qed.

(** X10.  Matching and dispatch together: when [matchMessage] has returned
    true, the listeners that [processMessage] calls on the context it left
    are listeners that accepted the message, in the order they accepted it,
    and each is called on the very clone it accepted, as it left it, never on
    the inbound context. *)
Theorem matched_listeners_process_their_clones :
  forall this C (s : Sys W) C' s1 t1 out s2 t2,
    matchMessage host this C s = (Returned (Some true, C'), s1, t1) ->
    processMessage host this C' s1 = (out, s2, t2) ->
    forall i pc,
      processCalls t2 !! i = Some pc ->
      exists contextData,
        omap accepted (matchCalls t1) !! i = Some (pc_listener pc, contextData) /\
        pc_arg pc = Some contextData /\
        contextData <> C'.
Proof.
  intros this C s C' s1 t1 out s2 t2 Hmatch Hrun i pc Hpc.
  destruct (matchMessage_true_run host _ _ _ _ _ _ Hmatch) as (_ & _ & _ & _ & _ & HC').
  cbv zeta in HC'.
  set (ls := List.map fst (omap accepted (matchCalls t1))) in *.
  set (cs := List.map snd (omap accepted (matchCalls t1))) in *.
  assert (Hpools : exists x, extraData C' = Some x /\ extra_listeners x = Some ls /\
                             extra_contexts x = Some cs).
  { rewrite HC'. unfold setPools. destruct (extraData C); eexists; cbn; auto. }
  destruct Hpools as (x & Hx & Hls & Hcs).
  assert (Heqls : ls = List.map fst (omap accepted (matchCalls t1))) by reflexivity.
  assert (Heqcs : cs = List.map snd (omap accepted (matchCalls t1))) by reflexivity.
  clearbody ls cs.
  destruct (isAuthenticated host C' s1) eqn:Hauth.
  2:{ rewrite (processMessage_unauthenticated_calls _ _ _ _ _ _ _ Hrun Hauth) in Hpc.
      rewrite lookup_nil in Hpc. discriminate Hpc. }
  destruct (processMessage_authenticated_cases _ _ _ _ _ _ Hrun Hauth)
    as (_ & _ & [(_ & Hp & _) | (x' & ls' & w & r & s3 & t3 & Hx' & Hls' & Hloop & _ & Hp & _)]).
  { rewrite Hp, lookup_nil in Hpc. discriminate Hpc. }
  rewrite Hx in Hx'. injection Hx' as <-. rewrite Hls in Hls'. injection Hls' as <-.
  rewrite Hcs in Hloop. rewrite Hp in Hpc.
  apply processLoop_run in Hloop. cbv zeta in Hloop.
  destruct Hloop as (Hmap & _ & _ & Hargs & _).
  destruct (Hargs i pc Hpc) as (cs' & Hcs' & Harg). injection Hcs' as <-. cbn in Harg.
  assert (Hl : ls !! i = Some (pc_listener pc)).
  { assert (Hm : List.map pc_listener (processCalls t3) !! i = Some (pc_listener pc))
      by (rewrite list_lookup_fmap, Hpc; reflexivity).
    rewrite Hmap, drop_0, lookup_take_lt in Hm
      by (apply lookup_lt_Some in Hpc; exact Hpc).
    exact Hm. }
  rewrite Heqls, list_lookup_fmap in Hl.
  destruct (omap accepted (matchCalls t1) !! i) as [[l c]|] eqn:Hacc; [|discriminate Hl].
  cbn in Hl. injection Hl as ->.
  assert (Hc : cs !! i = Some c) by (rewrite Heqcs, list_lookup_fmap, Hacc; reflexivity).
  exists c. split; [reflexivity|]. split; [rewrite Harg; exact Hc|].
  eapply recorded_context_differs; [exact Hx | exact Hcs |].
  eapply list_elem_of_lookup_2. exact Hc.
Qed.

End DispatchMore.
(** ** The load pass and the start of the server: what is kept, what is skipped *)

Section LoadMore.
Context {W : Type} (host : Host W).

Lemma registered_plain (p p' : Process W) :
  botMessageListener (self p') = botMessageListener (self p) ->
  pluginHome (self p') = pluginHome (self p) ->
  appConfig (self p') = appConfig (self p) ->
  store (sys p') = store (sys p) ->
  registered p p' [].
Proof.
  intros H1 H2 H3 H4. unfold registered. rewrite H1, app_nil_r. auto 10.
Qed.

(** The listeners of one plugin, however the loop over its names ends. *)
Lemma registerListeners_anatomy pluginPath plugin names :
  forall (p : Process W) out p' t,
    registerListeners host pluginPath plugin names p = (out, p', t) ->
    exists new,
      registered p p' new /\
      plugins (self p') = plugins (self p) /\
      let full :=
        List.map (messageEntry pluginPath plugin)
                 (List.filter (fun listenerName => Js.endsWith listenerName "MessageListener")
                              names) in
      match out with
      | Returned _ => new = full
      | Thrown _ => new `prefix_of` full
      end.
Proof.
  induction names as [|listenerName rest IH]; intros p out p' t Hrun; cbv zeta.
  - injection Hrun as <- <- _. exists []. split; [apply registered_refl|].
    split; reflexivity.
  - cbn [registerListeners] in Hrun. cbn [List.filter].
    apply bind_inv in Hrun.
    destruct Hrun as [(u1 & p1 & t1 & t2 & H1 & H2 & _) | (e & H1 & ->)].
    + apply IH in H2. cbv zeta in H2. destruct H2 as (n2 & Hr2 & Hp2 & Hout).
      destruct (Js.endsWith listenerName "MessageListener") eqn:Hmsg.
      * unfold bind, in_sys, call, log, emit in H1.
        destruct (node_require host pluginPath (world (sys p))) as [[[]|e] w1];
          [|discriminate H1].
        cbn in H1.
        destruct (node_new host (PluginListener pluginPath listenerName) w1) as [[[]|e] w2];
          [|discriminate H1].
        cbn in H1. injection H1 as _ <- _.
        exists (messageEntry pluginPath plugin listenerName :: n2). split; [|split].
        -- change (?x :: n2) with ([x] ++ n2). eapply registered_trans; [|exact Hr2].
           unfold registered. cbn. auto 10.
        -- rewrite Hp2. reflexivity.
        -- cbn [List.map]. destruct out; [f_equal; exact Hout | apply prefix_cons, Hout].
      * exists n2.
        assert (Hstep : registered p p1 [] /\ plugins (self p1) = plugins (self p)).
        { destruct (Js.endsWith listenerName "EventListener").
          - unfold bind, in_sys, call, log, emit in H1.
            destruct (node_require host pluginPath (world (sys p))) as [[[]|e] w1];
              [|discriminate H1].
            cbn in H1.
            destruct (node_new host (PluginListener pluginPath listenerName) w1)
              as [[[]|e] w2]; [|discriminate H1].
            cbn in H1. injection H1 as _ <- _.
            split; [apply registered_plain|]; reflexivity.
          - injection H1 as _ <- _. split; [apply registered_refl | reflexivity]. }
        destruct Hstep as [Hr1 Hp1].
        split; [change n2 with ([] ++ n2); eapply registered_trans; eassumption|].
        split; [congruence | exact Hout].
    + exists [].
      assert (Hstep : registered p p' [] /\ plugins (self p') = plugins (self p)).
      { destruct (Js.endsWith listenerName "MessageListener").
        - unfold bind, in_sys, call, log, emit in H1.
          destruct (node_require host pluginPath (world (sys p))) as [[[]|e'] w1].
          + cbn in H1.
            destruct (node_new host (PluginListener pluginPath listenerName) w1)
              as [[[]|e''] w2]; [discriminate H1|].
            cbn in H1. injection H1 as _ <- _.
            split; [apply registered_plain|]; reflexivity.
          + cbn in H1. injection H1 as _ <- _.
            split; [apply registered_plain|]; reflexivity.
        - destruct (Js.endsWith listenerName "EventListener").
          + unfold bind, in_sys, call, log, emit in H1.
            destruct (node_require host pluginPath (world (sys p))) as [[[]|e'] w1].
            * cbn in H1.
              destruct (node_new host (PluginListener pluginPath listenerName) w1)
                as [[[]|e''] w2]; [discriminate H1|].
              cbn in H1. injection H1 as _ <- _.
              split; [apply registered_plain|]; reflexivity.
            * cbn in H1. injection H1 as _ <- _.
              split; [apply registered_plain|]; reflexivity.
          + discriminate H1. }
      destruct Hstep as [Hr1 Hp1]. split; [exact Hr1|]. split; [exact Hp1|].
      apply prefix_nil.
Qed.


Ltac bind_step H a p1 H1 :=
  apply bind_inv in H;
  destruct H as [(a & p1 & ? & ? & H1 & H & ->) | (? & H1 & ->)].

(** One plugin of the list, however its turn ends. *)
Lemma loadPlugin_anatomy pluginYamlFilePath plugin :
  forall (p : Process W) out p' t,
    loadPlugin host pluginYamlFilePath plugin p = (out, p', t) ->
    let h := store (sys p) in
    let entries := messageEntriesOf host (pluginHome (self p)) h plugin in
    exists new,
      registered p p' new /\
      match out with
      | Returned _ =>
          (new = entries /\ plugins (self p') = plugins (self p) ++ [plugin]) \/
          (new = [] /\ plugins (self p') = plugins (self p) /\
           skipLogged t (package (h !!! plugin)))
      | Thrown _ =>
          new `prefix_of` entries /\ plugins (self p') = plugins (self p)
      end.
Proof.
  intros [this [h w]] out p' t Hrun. cbv zeta. cbn [self sys store].
  unfold loadPlugin in Hrun.
  bind_step Hrun this1 p1 H1; [|discriminate H1]. injection H1 as <- <- <-.
  bind_step Hrun h1 p1 H1; [|discriminate H1]. injection H1 as <- <- <-.
  bind_step Hrun u1 p1 H1; [|discriminate H1]. injection H1 as _ <- <-.
  bind_step Hrun installed p1 H1; [|discriminate H1]. injection H1 as <- <- <-.
  cbn [self sys store world pluginHome] in Hrun.
  fold (pluginPathOf host (pluginHome this) (package (h !!! plugin))) in Hrun.
  destruct (fs_existsSync host _ w); cbn [negb] in Hrun.
  2:{ injection Hrun as <- <- <-. exists []. split; [apply registered_refl|].
      right. split; [reflexivity|]. split; [reflexivity|].
      eexists. cbn. right. left. reflexivity. }
  bind_step Hrun packageName p1 H1.
  2:{ unfold in_sys, read in H1. cbn in H1. injection H1 as _ <- _.
      exists []. split; [apply registered_refl|]. split; [apply prefix_nil | reflexivity]. }
  unfold in_sys, read in H1. cbn in H1. injection H1 as _ <- <-.
  destruct (String.eqb _ _); cbn [negb] in Hrun.
  2:{ injection Hrun as <- <- <-. exists []. split; [apply registered_refl|].
      right. split; [reflexivity|]. split; [reflexivity|].
      eexists. cbn. right. left. reflexivity. }
  bind_step Hrun u2 p1 H1.
  2:{ apply registerListeners_anatomy in H1. cbv zeta in H1.
      destruct H1 as (new & Hreg & Hpl & Hpre). exists new. split; [exact Hreg|].
      split; [exact Hpre | exact Hpl]. }
  apply registerListeners_anatomy in H1. cbv zeta in H1.
  destruct H1 as (new & Hreg & Hpl & Hfull). exists new.
  bind_step Hrun u3 p2 H1; [|discriminate H1]. injection H1 as _ <- _.
  bind_step Hrun this2 p2 H1; [|discriminate H1]. injection H1 as <- <- _.
  injection Hrun as <- <- _.
  split.
  - rewrite <- (app_nil_r new). eapply registered_trans; [exact Hreg|].
    unfold registered. cbn. rewrite app_nil_r. auto 10.
  - left. split; [exact Hfull|]. cbn. rewrite Hpl. reflexivity.
Qed.


Lemma skipLogged_app_l t1 t2 package : skipLogged t1 package -> skipLogged (t1 ++ t2) package.
Proof. intros [rest H]. exists rest. apply in_or_app. auto. Qed.

Lemma skipLogged_app_r t1 t2 package : skipLogged t2 package -> skipLogged (t1 ++ t2) package.
Proof. intros [rest H]. exists rest. apply in_or_app. auto. Qed.

(** The loop over the sorted plugin list, however it ends. *)
Lemma loadEach_anatomy pluginYamlFilePath pluginList :
  forall (p : Process W) out p' t,
    loadEach host pluginYamlFilePath pluginList p = (out, p', t) ->
    let h := store (sys p) in
    let entriesOf := messageEntriesOf host (pluginHome (self p)) h in
    exists new loadedRefs partial,
      registered p p' new /\
      plugins (self p') = plugins (self p) ++ loadedRefs /\
      sublist loadedRefs pluginList /\
      new = List.flat_map entriesOf loadedRefs ++ partial /\
      match out with
      | Returned _ =>
          partial = [] /\
          forall r, r ∈ pluginList ->
                    r ∈ loadedRefs \/ skipLogged t (package (h !!! r))
      | Thrown _ =>
          exists r, r ∈ pluginList /\ partial `prefix_of` entriesOf r
      end.
Proof.
  induction pluginList as [|plugin rest IH]; intros p out p' t Hrun; cbv zeta.
  - injection Hrun as <- <- _. exists [], [], [].
    split; [apply registered_refl|]. split; [rewrite app_nil_r; reflexivity|].
    split; [constructor|]. split; [reflexivity|]. split; [reflexivity|].
    intros r Hr. inversion Hr.
  - cbn [loadEach] in Hrun. bind_step Hrun u1 p1 H1.
    + apply loadPlugin_anatomy in H1. cbv zeta in H1. destruct H1 as (n1 & Hr1 & Hcase).
      apply IH in Hrun. cbv zeta in Hrun.
      destruct Hrun as (n2 & refs2 & partial & Hr2 & Hp2 & Hsub & Hn2 & Hout).
      pose proof Hr1 as (_ & _ & _ & Hhome & _ & Hstore).
      rewrite Hhome, Hstore in Hn2, Hout.
      destruct Hcase as [(Hn1 & Hp1) | (Hn1 & Hp1 & Hskip)].
      * exists (n1 ++ n2), (plugin :: refs2), partial.
        split; [eapply registered_trans; eassumption|].
        split; [rewrite Hp2, Hp1, <- app_assoc; reflexivity|].
        split; [apply sublist_skip, Hsub|].
        split; [cbn [List.flat_map]; rewrite Hn1, Hn2, app_assoc; reflexivity|].
        destruct out as [u|e].
        -- destruct Hout as (Hnil & Hall). split; [exact Hnil|].
           intros r Hr. apply elem_of_cons in Hr. destruct Hr as [->|Hr].
           ++ left. apply list_elem_of_here.
           ++ destruct (Hall r Hr) as [Hin|Hlog].
              ** left. apply list_elem_of_further, Hin.
              ** right. apply skipLogged_app_r, Hlog.
        -- destruct Hout as (r & Hr & Hpre). exists r.
           split; [apply list_elem_of_further, Hr | exact Hpre].
      * exists (n1 ++ n2), refs2, partial.
        split; [eapply registered_trans; eassumption|].
        split; [rewrite Hp2, Hp1; reflexivity|].
        split; [apply sublist_cons, Hsub|].
        split; [rewrite Hn1, Hn2; reflexivity|].
        destruct out as [u|e].
        -- destruct Hout as (Hnil & Hall). split; [exact Hnil|].
           intros r Hr. apply elem_of_cons in Hr. destruct Hr as [->|Hr].
           ++ right. apply skipLogged_app_l, Hskip.
           ++ destruct (Hall r Hr) as [Hin|Hlog]; [left; exact Hin|].
              right. apply skipLogged_app_r, Hlog.
        -- destruct Hout as (r & Hr & Hpre). exists r.
           split; [apply list_elem_of_further, Hr | exact Hpre].
    + apply loadPlugin_anatomy in H1. cbv zeta in H1.
      destruct H1 as (n1 & Hr1 & Hpre & Hp1).
      exists n1, [], n1.
      split; [exact Hr1|]. split; [rewrite app_nil_r; exact Hp1|].
      split; [apply sublist_nil_l|]. split; [reflexivity|].
      exists plugin. split; [apply list_elem_of_here | exact Hpre].
Qed.


Lemma loadPlugins_try_anatomy (p : Process W) out p' t :
  loadPlugins_try host p = (out, p', t) ->
  exists manifest new loadedRefs partial,
    load_anatomy host p p' (is_thrown out = false) t manifest new loadedRefs partial.
Proof.
  intros Hrun.
  assert (Hnothing : forall q, self q = self p -> store (sys q) = store (sys p) ->
            load_anatomy host p q (is_thrown out = false) t [] [] [] []).
  { intros q Hself Hstore. unfold load_anatomy. cbn.
    split; [unfold loaded; rewrite Hself, Hstore, !app_nil_r; auto 10|].
    split; [rewrite Hself, app_nil_r; reflexivity|].
    split; [constructor|]. split; [reflexivity|]. split; [left; reflexivity|].
    intros _. split; [reflexivity|]. intros r Hr. inversion Hr. }
  unfold loadPlugins_try in Hrun.
  bind_step Hrun this p1 H1; [|discriminate H1]. injection H1 as <- <- <-.
  bind_step Hrun located p1 H1.
  2:{ rewrite locateManifest_run in H1.
      repeat destruct (fs_existsSync _ _ _); discriminate H1. }
  rewrite locateManifest_run in H1.
  assert (Hp1 : p1 = p) by (repeat destruct (fs_existsSync _ _ _); congruence). subst p1.
  clear H1. destruct located as [pluginYamlFilePath|].
  2:{ injection Hrun as <- <- <-. exists [], [], [], []. apply Hnothing; reflexivity. }
  bind_step Hrun content p1 H1.
  2:{ unfold in_sys in H1. destruct (readYamlFile _ _ _) as [[r s1] tt1] eqn:Hread.
      injection H1 as _ <- _. apply keeps_store_readYamlFile in Hread.
      exists [], [], [], []. apply Hnothing; [reflexivity | exact Hread]. }
  assert (Hp1 : self p1 = self p /\ store (sys p1) = store (sys p)).
  { unfold in_sys in H1. destruct (readYamlFile _ _ _) as [[r s1] tt1] eqn:Hread.
    injection H1 as _ <- _. apply keeps_store_readYamlFile in Hread. auto. }
  clear H1. destruct Hp1 as [Hself1 Hstore1].
  bind_step Hrun this1 p2 H1; [|discriminate H1]. injection H1 as <- <- <-.
  bind_step Hrun h p2 H1; [|discriminate H1]. injection H1 as <- <- <-.
  bind_step Hrun u p2 H1; [|discriminate H1]. injection H1 as _ <- <-.
  change {| self := self p1; sys := {| store := store (sys p1); world := world (sys p1) |} |}
    with (mkProcess (self p1) (mkSys (store (sys p1)) (world (sys p1)))) in Hrun.
  bind_step Hrun pluginList p2 H1.
  2:{ destruct content as [l| | |]; [discriminate H1| | |];
        (injection H1 as _ <- _;
         exists [], [], [], []; apply Hnothing; [exact Hself1 | exact Hstore1]). }
  destruct content as [manifest| | |];
    [|discriminate H1|discriminate H1|discriminate H1].
  injection H1 as <- <- <-.
  bind_step Hrun h' p2 H1; [|discriminate H1]. injection H1 as <- <- <-.
  bind_step Hrun u' p2 H1; [|discriminate H1]. injection H1 as _ <- <-.
  apply loadEach_anatomy in Hrun. cbv zeta in Hrun.
  destruct Hrun as (new & refs & partial & Hreg & Hpl & Hsub & Hnew & Hout).
  cbn [self sys store] in Hreg, Hpl, Hsub, Hnew, Hout.
  exists manifest, new, refs, partial.
  destruct Hreg as (R1 & R2 & R3 & R4 & R5 & R6). cbn in R1, R2, R3, R4, R5, R6.
  unfold load_anatomy. cbv zeta. rewrite R6, <- Hstore1, <- Hself1.
  split; [unfold loaded; rewrite R1, R2, R3, R4, R5, R6, Hself1, Hstore1; auto 10|].
  split; [exact Hpl|]. split; [exact Hsub|]. split; [exact Hnew|].
  destruct out as [v|e]; cbn [is_thrown].
  - destruct Hout as (Hnil & Hall). split; [left; exact Hnil|]. intros _.
    split; [exact Hnil|]. intros r Hr. destruct (Hall r Hr) as [Hin|Hlog]; [left; exact Hin|].
    right. repeat apply skipLogged_app_r. exact Hlog.
  - split; [right; exact Hout | discriminate].
Qed.

Lemma loadPlugins_anatomy (p : Process W) out p' t :
  loadPlugins host p = (out, p', t) ->
  out = Returned tt /\
  exists manifest new loadedRefs partial,
    load_anatomy host p p' (forall e, ~ errorLogged e t) t manifest new loadedRefs partial.
Proof.
  rewrite loadPlugins_run.
  destruct (loadPlugins_try host p) as [[r p1] t1] eqn:Htry.
  intros [= <- <- <-]. split; [reflexivity|].
  apply loadPlugins_try_anatomy in Htry.
  destruct Htry as (manifest & new & refs & partial & H1 & H2 & H3 & H4 & H5 & H6).
  exists manifest, new, refs, partial.
  split; [exact H1|]. split; [exact H2|]. split; [exact H3|]. split; [exact H4|].
  split; [exact H5|]. intros Hnone.
  destruct r as [u|e].
  - destruct (H6 eq_refl) as (Hnil & Hall). split; [exact Hnil|].
    intros r Hr. destruct (Hall r Hr) as [Hin|Hlog]; [left; exact Hin|]. right.
    change (Log ?l ?x :: ?t) with ([Log l x] ++ t).
    apply skipLogged_app_r, skipLogged_app_l, Hlog.
  - exfalso. apply (Hnone e). unfold errorLogged. cbn. right.
    rewrite in_app_iff. right. left. reflexivity.
Qed.

(** X11.  A load pass rolls nothing back and records what it completed: the
    message registry grows by the message listeners of every plugin recorded
    in [this.plugins], plugin after plugin in the sorted order and in the
    order of each descriptor, each listener constructed from the install
    path of its plugin; after them come at most some of the message
    listeners of one more plugin, the one whose loading was cut short. *)
Theorem loadPlugins_keeps_what_it_loaded :
  forall (p : Process W),
    let '(_, p', _) := loadPlugins host p in
    exists manifest new loadedRefs partial,
      loaded p p' manifest new /\
      plugins (self p') = plugins (self p) ++ loadedRefs /\
      let h := store (sys p') in
      let pluginList :=
        sortByPriority h (seq (length (store (sys p))) (length manifest)) in
      let entriesOf := messageEntriesOf host (pluginHome (self p)) h in
      sublist loadedRefs pluginList /\
      new = List.flat_map entriesOf loadedRefs ++ partial /\
      (partial = [] \/ exists r, r ∈ pluginList /\ partial `prefix_of` entriesOf r).
Proof.
  intros p. destruct (loadPlugins host p) as [[out p'] t] eqn:Hrun.
  apply loadPlugins_anatomy in Hrun.
  destruct Hrun as (_ & manifest & new & refs & partial & H1 & H2 & H3 & H4 & H5 & _).
  exists manifest, new, refs, partial. cbv zeta. auto.
Qed.

(** X12.  A load pass in which no exception was caught accounts for every
    plugin of the manifest: a plugin is either recorded in [this.plugins],
    with exactly its message listeners registered, or it was skipped with
    an error line that names its package.  A listener name of an unknown
    kind does not keep its plugin from being recorded. *)
Theorem loadPlugins_accounts_for_every_plugin :
  forall (p : Process W) out p' t,
    loadPlugins host p = (out, p', t) ->
    (forall e, ~ errorLogged e t) ->
    exists manifest new loadedRefs,
      loaded p p' manifest new /\
      plugins (self p') = plugins (self p) ++ loadedRefs /\
      let h := store (sys p') in
      let pluginList :=
        sortByPriority h (seq (length (store (sys p))) (length manifest)) in
      new = List.flat_map (messageEntriesOf host (pluginHome (self p)) h) loadedRefs /\
      forall r, r ∈ pluginList ->
                r ∈ loadedRefs \/ skipLogged t (package (h !!! r)).
Proof.
  intros p out p' t Hrun Hnone. apply loadPlugins_anatomy in Hrun.
  destruct Hrun as (_ & manifest & new & refs & partial & H1 & H2 & _ & H4 & _ & H6).
  destruct (H6 Hnone) as (Hnil & Hall). subst partial. rewrite app_nil_r in H4.
  exists manifest, new, refs. cbv zeta. auto.
Qed.


(** [readYamlFile], path by path. *)
Lemma readYamlFile_run filePath (s : Sys W) :
  readYamlFile host filePath s =
  if fs_existsSync host filePath (world s) then
    match yaml_load host filePath (world s) with
    | Returned v => (Returned v, s, [])
    | Thrown err =>
        (Thrown (Error ("TBD003E: Error parsing the content for file " +:+ filePath
                        +:+ ". Please make sure the file is valid YAML.")), s,
         [Log LInfo [Str "TBD003E: Error parsing the content for file "; Str filePath;
                     Str ". Please make sure the file is valid YAML."];
          Log LInfo [Err err]])
    end
  else
    (Thrown (Error ("TBD002E: File " +:+ filePath +:+ " does not exist.")), s,
     [Log LInfo [Str "TBD002E: File "; Str filePath; Str " does not exist."]]).
Proof.
  unfold readYamlFile, bind, read_total, try_catch, read, log, emit, throw. cbn.
  destruct (fs_existsSync host filePath (world s)); cbn; [|reflexivity].
  destruct (yaml_load host filePath (world s)); reflexivity.
Qed.

(** X13.  [readYamlFile] hands back what the parser returned, and only for a
    file that exists.  It never lets an error of the parser through: a file
    that cannot be parsed gives the error TBD003E and a missing file the
    error TBD002E, both logged at the info level only, and nothing is
    changed. *)
Theorem readYamlFile_outcomes :
  forall filePath (s : Sys W),
    let '(out, s', t) := readYamlFile host filePath s in
    s' = s /\
    Forall (fun ev => exists text, ev = Log LInfo text) t /\
    match out with
    | Returned v =>
        fs_existsSync host filePath (world s) = true /\
        yaml_load host filePath (world s) = Returned v /\
        t = []
    | Thrown e =>
        (fs_existsSync host filePath (world s) = false /\
         e = Error ("TBD002E: File " +:+ filePath +:+ " does not exist.")) \/
        (fs_existsSync host filePath (world s) = true /\
         (exists err, yaml_load host filePath (world s) = Thrown err /\
                      In (Log LInfo [Err err]) t) /\
         e = Error ("TBD003E: Error parsing the content for file " +:+ filePath
                    +:+ ". Please make sure the file is valid YAML."))
    end.
Proof.
  intros filePath s. rewrite readYamlFile_run.
  destruct (fs_existsSync host filePath (world s)).
  - destruct (yaml_load host filePath (world s)) as [v|err].
    + split; [reflexivity|]. split; [constructor|]. auto.
    + split; [reflexivity|]. split; [repeat constructor; eexists; reflexivity|].
      right. split; [reflexivity|]. split; [|reflexivity].
      exists err. split; [reflexivity|]. cbn. tauto.
  - split; [reflexivity|]. split; [repeat constructor; eexists; reflexivity|].
    left. auto.
Qed.

(** X14.  A plugin.yaml that cannot be read as a list of plugins (the parser
    raises, or what it returns is not an array: nothing at all for an empty
    file, [null], or any other value) stops the load pass before anything is
    done: no descriptor is allocated, no listener registered, no plugin
    recorded; the error is logged and [loadPlugins] returns.  The error is
    the one [readYamlFile] raises for a file that does not parse, and a
    TypeError, raised at the call of [sort], for a value that is no array. *)
Theorem loadPlugins_unreadable_manifest :
  forall (p : Process W) pluginYamlFilePath,
    locatedManifest host p = Some pluginYamlFilePath ->
    (forall l, yaml_load host pluginYamlFilePath (world (sys p))
               <> Returned (YamlPlugins l)) ->
    exists e t,
      loadPlugins host p = (Returned tt, p, t) /\
      errorLogged e t /\
      match yaml_load host pluginYamlFilePath (world (sys p)) with
      | Thrown _ =>
          e = Error ("TBD003E: Error parsing the content for file "
                     +:+ pluginYamlFilePath
                     +:+ ". Please make sure the file is valid YAML.")
      | Returned _ => exists text, e = TypeError text
      end.
Proof.
  intros [this [h w]] path Hlocated Hyaml. cbn [sys world] in Hyaml.
  unfold locatedManifest in Hlocated. cbn [self sys world] in Hlocated.
  assert (Hexists : fs_existsSync host path w = true).
  { destruct (fs_existsSync host (homeManifest host (pluginHome this)) w) eqn:H1.
    - injection Hlocated as <-. exact H1.
    - destruct (fs_existsSync host (builtinManifest host) w) eqn:H2; [|discriminate Hlocated].
      injection Hlocated as <-. exact H2. }
  assert (Hlocate : exists t0,
            locateManifest host (pluginHome this) (mkProcess this (mkSys h w))
            = (Returned (Some path), mkProcess this (mkSys h w), t0)).
  { rewrite locateManifest_run. cbn [sys world].
    destruct (fs_existsSync host (homeManifest host (pluginHome this)) w).
    - injection Hlocated as <-. eauto.
    - destruct (fs_existsSync host (builtinManifest host) w); [|discriminate Hlocated].
      injection Hlocated as <-. eauto. }
  destruct Hlocate as (t0 & Hlocate).
  rewrite loadPlugins_run. unfold loadPlugins_try.
  unfold bind at 1. unfold get_this at 1. cbn [self].
  unfold bind at 1. rewrite Hlocate.
  unfold bind at 1. unfold in_sys at 1. cbn [sys]. rewrite readYamlFile_run.
  cbn [world]. rewrite Hexists.
  destruct (yaml_load host path w) as [[l| | |]|err].
  - exfalso. exact (Hyaml l eq_refl).
  - cbn. eexists _, _. split; [reflexivity|]. split; [|eexists; reflexivity].
    unfold errorLogged. rewrite ?in_app_iff. cbn. rewrite ?in_app_iff. cbn. tauto.
  - cbn. eexists _, _. split; [reflexivity|]. split; [|eexists; reflexivity].
    unfold errorLogged. rewrite ?in_app_iff. cbn. rewrite ?in_app_iff. cbn. tauto.
  - cbn. eexists _, _. split; [reflexivity|]. split; [|eexists; reflexivity].
    unfold errorLogged. rewrite ?in_app_iff. cbn. rewrite ?in_app_iff. cbn. tauto.
  - cbn. eexists _, _. split; [reflexivity|]. split; [|reflexivity].
    unfold errorLogged. rewrite ?in_app_iff. cbn. rewrite ?in_app_iff. cbn. tauto.
Qed.


Lemma split_nonempty sep s : Js.split sep s <> [].
Proof.
  destruct s as [|c s]; [discriminate|]. cbn.
  destruct (Ascii.eqb c sep); [discriminate|].
  destruct (Js.split sep s); discriminate.
Qed.

Lemma joinSegments_cons sep a l :
  l <> [] -> joinSegments sep (a :: l) = a +:+ String sep (joinSegments sep l).
Proof. destruct l; [congruence | reflexivity]. Qed.

(** Splitting at a character and joining with it gives the string back. *)
Lemma split_join sep s : joinSegments sep (Js.split sep s) = s.
Proof.
  induction s as [|c s IH]; [reflexivity|].
  pose proof (split_nonempty sep s) as Hne.
  cbn [Js.split]. destruct (Ascii.eqb_spec c sep) as [->|Hc].
  - rewrite joinSegments_cons by exact Hne. rewrite IH. reflexivity.
  - destruct (Js.split sep s) as [|a [|b l]]; [congruence| |].
    + cbn in *. rewrite IH. reflexivity.
    + rewrite joinSegments_cons in IH |- * by discriminate.
      rewrite <- IH. reflexivity.
Qed.

(** X15.  Where the path separator is the slash, the two ways in which
    [loadPlugins] makes up the install path of a plugin give the same path:
    the plugin home, a slash and the package name, for a scoped package name
    as for any other. *)
Theorem pluginPath_on_posix :
  path_sep host = "/" ->
  forall pluginHome package,
    pluginPathOf host pluginHome package = pluginHome +:+ "/" +:+ package.
Proof.
  intros Hsep home pkg. unfold pluginPathOf. rewrite Hsep.
  pose proof (split_join "/" pkg) as Hjoin.
  destruct (Js.split "/" pkg) as [|a [|b [|c l]]]; try reflexivity.
  cbn in Hjoin. rewrite <- Hjoin. reflexivity.
Qed.


Lemma sublist_StronglySorted {A} (R : A -> A -> Prop) (l1 l2 : list A) :
  StronglySorted R l2 -> sublist l1 l2 -> StronglySorted R l1.
Proof.
  intros Hsorted Hsub. induction Hsub as [|x l1 l2 Hsub IH|x l1 l2 Hsub IH].
  - constructor.
  - inversion Hsorted as [|? ? Hl2 Hx]; subst. constructor; [apply IH, Hl2|].
    rewrite Forall_forall in Hx |- *. intros y Hy.
    apply Hx. eapply elem_of_sublist; eassumption.
  - inversion Hsorted as [|? ? Hl2 Hx]; subst. apply IH, Hl2.
Qed.

(** [setBotListeners] raises exactly when the constructor of the built-in
    listener does. *)
Lemma setBotListeners_outcome (p : Process W) :
  match node_new host LogoutMessageListener (world (sys p)) with
  | (Returned _, _) =>
      exists p' t, setBotListeners host p = (Returned tt, p', t) /\
                   loaded p p' [logoutPlugin] [logoutEntry (length (store (sys p)))]
  | (Thrown e, _) =>
      exists p' t, setBotListeners host p = (Thrown e, p', t) /\
                   store (sys p') = store (sys p)
  end.
Proof.
  unfold setBotListeners, bind, in_sys, call, new_descriptor, alloc, log, emit,
    registerMessageListener, registerChatListener, set_botMessageListener, get_this,
    set_this, get_store, ret. cbn.
  destruct (node_new host LogoutMessageListener (world (sys p))) as [[u|e] w]; cbn.
  - eexists _, _. split; [reflexivity|]. unfold loaded. cbn. auto 10.
  - eexists _, _. split; reflexivity.
Qed.

(** The constructor after the capabilities are there. *)
Lemma ChatBot_new_body (p : Process W) out p3 t :
  (setBotListeners host;; set_plugins [];; loadPlugins host;;
   log LInfo [Str "Plugins initialized"]) p = (out, p3, t) ->
  match node_new host LogoutMessageListener (world (sys p)) with
  | (Returned _, _) =>
      out = Returned tt /\
      exists p1 p2 t1 t2 t3,
        setBotListeners host p = (Returned tt, p1, t1) /\
        loaded p p1 [logoutPlugin] [logoutEntry (length (store (sys p)))] /\
        set_plugins [] p1 = (Returned tt, p2, t2) /\
        loadPlugins host p2 = (Returned tt, p3, t3)
  | (Thrown e, _) => out = Thrown e
  end.
Proof.
  intros Hrun. pose proof (setBotListeners_outcome p) as Hset.
  destruct (node_new host LogoutMessageListener (world (sys p))) as [[u|e] w].
  - destruct Hset as (p1 & t1 & Hset & Hloaded).
    bind_step Hrun u1 q1 H1; [|rewrite Hset in H1; discriminate H1].
    rewrite Hset in H1. injection H1 as _ <- _.
    bind_step Hrun u2 q2 H2; [|discriminate H2].
    bind_step Hrun u3 q3 H3;
      [|apply loadPlugins_outcome in H3; destruct H3 as [H3 _]; discriminate H3].
    pose proof H3 as H3'. apply loadPlugins_outcome in H3'. destruct H3' as [_ _].
    injection Hrun as <- <- _. split; [reflexivity|].
    destruct u2, u3. eexists p1, q2, _, _, _. split; [exact Hset|].
    split; [exact Hloaded|]. split; [exact H2 | exact H3].
  - destruct Hset as (p1 & t1 & Hset & _).
    bind_step Hrun u1 q1 H1; [rewrite Hset in H1; discriminate H1|].
    rewrite Hset in H1. injection H1 as <- _ _. reflexivity.
Qed.

(** X16.  Plugins cannot stop the start of the chat server: [new ChatBot]
    ends in a running bot whenever the capabilities are created and the
    built-in LogoutMessageListener can be constructed, whatever plugin.yaml
    holds and whatever happens while plugins are loaded.  Otherwise the
    process exits, with the code of [generateBotOpts] or with code 1 and the
    error logged. *)
Theorem ChatBot_new_outcomes :
  forall chatConfig (s : Sys W),
    let '(r, _, t) := ChatBot_new host chatConfig s in
    match init_capabilities host chatConfig (world s) with
    | (InitExited code, _) => r = Exited code
    | (InitThrew e, _) =>
        r = Exited 1 /\ In (Log LError [Str "Failed to create chat bot!"; Err e]) t
    | (InitDone, w) =>
        match fst (node_new host LogoutMessageListener w) with
        | Returned _ => exists bot, r = Running bot
        | Thrown e =>
            r = Exited 1 /\ In (Log LError [Str "Failed to create chat bot!"; Err e]) t
        end
    end.
Proof.
  intros chatConfig s. unfold ChatBot_new.
  destruct (init_capabilities host chatConfig (world s)) as [[|e|code] w].
  - match goal with
    | |- context [match ?body ?p0 with _ => _ end] =>
        destruct (body p0) as [[out p3] t2] eqn:Hbody
    end.
    apply ChatBot_new_body in Hbody. cbn [sys world] in Hbody.
    destruct (node_new host LogoutMessageListener w) as [[u|e] w1]; cbn [fst].
    + destruct Hbody as (-> & _). eauto.
    + subst out. split; [reflexivity|]. rewrite !in_app_iff. cbn. tauto.
  - split; [reflexivity|]. rewrite in_app_iff. cbn. tauto.
  - reflexivity.
Qed.

(** X17.  In a bot that has started, the message registry is the built-in
    LogoutListener followed by the message listeners of the plugins recorded
    in [this.plugins], plugin after plugin in ascending priority (the
    LogoutListener stays first whatever the priorities of the plugins), and
    after them at most some listeners of one plugin whose loading was cut
    short.  The descriptor store holds the descriptor of the chat server and
    then the manifest; the bot answers to the bot user name that the
    configuration gives for its chat tool and dispatches with the configured
    plugin limit. *)
Theorem started_bot_registry :
  forall chatConfig (s : Sys W) bot s1 t,
    ChatBot_new host chatConfig s = (Running bot, s1, t) ->
    exists manifest partial,
      store s1 = store s ++ logoutPlugin :: manifest /\
      let pluginList := sortByPriority (store s1)
                          (seq (S (length (store s))) (length manifest)) in
      let entriesOf := messageEntriesOf host (ZOWE_CHAT_PLUGINS_DIR host) (store s1) in
      sublist (plugins bot) pluginList /\
      StronglySorted (byPriorityThenManifest (store s1)) (plugins bot) /\
      chatListeners (botMessageListener bot)
      = logoutEntry (length (store s)) :: List.flat_map entriesOf (plugins bot) ++ partial /\
      (partial = [] \/ exists r, r ∈ pluginList /\ partial `prefix_of` entriesOf r) /\
      botName (botMessageListener bot)
      = match chatToolType chatConfig with
        | MATTERMOST => mattermost_botUserName chatConfig
        | MSTEAMS => msteams_botUserName chatConfig
        | SLACK => slack_botUserName chatConfig
        end /\
      config (botMessageListener bot) = chatConfig.
Proof.
  intros chatConfig s bot s1 t. unfold ChatBot_new.
  destruct (init_capabilities host chatConfig (world s)) as [[|e|code] w];
    [|discriminate|discriminate].
  match goal with
  | |- context [match ?body ?p0 with _ => _ end] =>
      destruct (body p0) as [[[u|e] p3] t2] eqn:Hbody
  end; [|discriminate].
  intros [= <- <- _].
  apply ChatBot_new_body in Hbody. cbn [sys world] in Hbody.
  destruct (node_new host LogoutMessageListener w) as [[u0|e] w1]; [|discriminate Hbody].
  destruct Hbody as (_ & p1 & p2 & t1 & t2' & t3 & _ & Hloaded & Hplugins & Hload).
  injection Hplugins as <- _.
  apply loadPlugins_anatomy in Hload.
  destruct Hload as (_ & manifest & new & refs & partial & L & Hpl & Hsub & Hnew & Hpartial & _).
  cbn [self sys plugins pluginHome app] in Hpl, Hsub, Hnew, Hpartial.
  destruct Hloaded as (S1 & S2 & S3 & S4 & _ & S6). cbn [self sys store] in S1, S4, S6.
  cbn [self botMessageListener botName config BotMessageListener_new] in S2, S3.
  destruct L as (L1 & L2 & L3 & _ & _ & L6).
  cbn [self sys botMessageListener] in L1, L2, L3, L6.
  assert (Hlen : length (store (sys p1)) = S (length (store s)))
    by (rewrite S6, length_app; cbn; lia).
  rewrite S4, Hlen in *.
  exists manifest, partial. cbv zeta. rewrite Hpl.
  split; [rewrite L6, S6, <- app_assoc; reflexivity|].
  split; [exact Hsub|].
  split.
  { eapply sublist_StronglySorted; [|exact Hsub].
    apply sort_byKeyThen, StronglySorted_seq. }
  split; [rewrite L1, S1, Hnew; reflexivity|]. split; [exact Hpartial|].
  split; [rewrite L2, S2; reflexivity | rewrite L3, S3; reflexivity].
Qed.

End LoadMore.
(** ** The options of the bot *)

Section GenerateBotOptsFacts.
Import BotOpts.
Context {W Server Application : Type} (host : Host W).
Context (fs_readFileSync : string -> W -> Outcome string).
Context (messageApp_getApplication : W -> Outcome Application).

Local Abbreviation generate :=
  (generateBotOpts host fs_readFileSync messageApp_getApplication).


(** X18.  [generateBotOpts] never raises.  It ends with options for the
    configured chat tool, carrying the server options of the configuration
    and the application of the messaging app, without having logged an
    error; or it ends the process with an error logged, with exit code 4
    exactly when the TLS certificate file of an https Mattermost is missing
    and with exit code 5 in every other case. *)
Theorem generateBotOpts_endings :
  forall (appConfig : @BotConfig Server) (w : W),
    let '(ending, t) := generate appConfig w in
    match ending with
    | Finished botOpts =>
        app_chatToolType appConfig = KnownTool (chatTool botOpts) /\
        optionFor (chatTool botOpts) (toolOption botOpts) = true /\
        messagingApp_option botOpts = app_server appConfig /\
        messageApp_getApplication w = Returned (messagingApp_app botOpts) /\
        Forall (fun ev => isOptsError ev = false) t
    | ProcessExit code =>
        Exists (fun ev => isOptsError ev = true) t /\
        (code = 4 \/ code = 5) /\
        (code = 4 <->
         app_chatToolType appConfig = KnownTool MATTERMOST /\
         is_thrown (messageApp_getApplication w) = false /\
         protocol (mattermost appConfig) = "https" /\
         fs_existsSync host (tlsCertificate (mattermost appConfig)) w = false)
    end.
Proof.
  intros appConfig w. unfold generateBotOpts, makeBotOpts.
  destruct (app_chatToolType appConfig) as [[| |]|value] eqn:Htool.
  - destruct (messageApp_getApplication w) as [application|error] eqn:Happ.
    + destruct (String.eqb_spec (protocol (mattermost appConfig)) "https") as [Hp|Hp].
      * destruct (fs_existsSync host (tlsCertificate (mattermost appConfig)) w) eqn:Hcert.
        -- destruct (fs_readFileSync (tlsCertificate (mattermost appConfig)) w)
             as [content|error].
           ++ cbn. repeat split; repeat constructor.
           ++ split; [apply Exists_exists; eexists; split;
                        [apply elem_of_app; right; apply list_elem_of_here | reflexivity]|].
              split; [right; reflexivity|]. split; [discriminate|].
              intros (_ & _ & _ & H). discriminate H.
        -- split; [apply Exists_exists; eexists; split;
                     [apply elem_of_app; right; apply list_elem_of_here | reflexivity]|].
           split; [left; reflexivity|]. split; [auto|reflexivity].
      * cbn. repeat split; repeat constructor.
    + split; [apply Exists_exists; eexists; split;
                [apply elem_of_app; right; apply list_elem_of_here | reflexivity]|].
      split; [right; reflexivity|]. split; [discriminate|].
      intros (_ & H & _). discriminate H.
  - destruct (messageApp_getApplication w) as [application|error] eqn:Happ.
    + cbn. repeat split; repeat constructor.
    + split; [apply Exists_exists; eexists; split;
                [apply elem_of_app; right; apply list_elem_of_here | reflexivity]|].
      split; [right; reflexivity|]. split; [discriminate|].
      intros (H & _). discriminate H.
  - destruct (negb (socketMode_enabled (slack appConfig))
              && httpEndpoint_enabled (slack appConfig));
      destruct (messageApp_getApplication w) as [application|error] eqn:Happ;
      try (cbn; repeat split; repeat constructor; fail);
      (split; [apply Exists_exists; eexists; split;
                [apply elem_of_app; right; apply list_elem_of_here | reflexivity]|]);
      (split; [right; reflexivity|]); (split; [discriminate|]);
      intros (H & _); discriminate H.
  - split; [apply Exists_exists; eexists; split;
              [apply list_elem_of_here | reflexivity]|].
    split; [right; reflexivity|]. split; [discriminate|].
    intros (H & _). discriminate H.
Qed.


(** X19.  For Slack, the HTTP endpoint mode is chosen only when the socket
    mode is off and the HTTP endpoint is on; in every other case, both off
    included, the options are those of the socket mode.  The HTTP endpoint
    mode carries the base path as its endpoint and no app token; the socket
    mode carries the app token and an empty endpoint.  Name, signing secret,
    token and log level are those of the configuration. *)
Theorem generateBotOpts_slack_mode :
  forall (appConfig : @BotConfig Server) (w : W) botOpts t,
    app_chatToolType appConfig = KnownTool SLACK ->
    generate appConfig w = (Finished botOpts, t) ->
    exists option,
      toolOption botOpts = OptSlack option /\
      (socketMode option = false <->
       socketMode_enabled (slack appConfig) = false /\
       httpEndpoint_enabled (slack appConfig) = true) /\
      (if socketMode option
       then endpoints option = EmptyString /\
            appToken option = Some (socketMode_appToken (slack appConfig))
       else endpoints option = httpEndpoint_basePath (slack appConfig) /\
            appToken option = None) /\
      receiver option = None /\
      botUserName option = slackBotUserName (slack appConfig) /\
      signingSecret option = slackSigningSecret (slack appConfig) /\
      token option = slackToken (slack appConfig) /\
      logLevel option = app_log_level appConfig.
Proof.
  intros appConfig w botOpts t Htool. unfold generateBotOpts, makeBotOpts. rewrite Htool.
  destruct (socketMode_enabled (slack appConfig)), (httpEndpoint_enabled (slack appConfig));
    cbn [negb andb];
    (destruct (messageApp_getApplication w) as [application|error];
     [|intros Hrun; discriminate Hrun]);
    intros [= <- _]; eexists; (split; [reflexivity|]); cbn;
    repeat split; try reflexivity; try tauto; try discriminate;
    intros [H1 H2]; discriminate.
Qed.

(** X20.  For an https Mattermost the options carry the content of the TLS
    certificate file in place of its path; for any other protocol the file is
    not looked at and the configured value is handed on.  Every other key of
    the Mattermost configuration is copied as it is. *)
Theorem generateBotOpts_mattermost_certificate :
  forall (appConfig : @BotConfig Server) (w : W) botOpts t,
    app_chatToolType appConfig = KnownTool MATTERMOST ->
    generate appConfig w = (Finished botOpts, t) ->
    exists option,
      toolOption botOpts = OptMattermost option /\
      protocol option = protocol (mattermost appConfig) /\
      mattermostOthers option = mattermostOthers (mattermost appConfig) /\
      if String.eqb (protocol (mattermost appConfig)) "https"
      then fs_existsSync host (tlsCertificate (mattermost appConfig)) w = true /\
           fs_readFileSync (tlsCertificate (mattermost appConfig)) w
           = Returned (tlsCertificate option)
      else tlsCertificate option = tlsCertificate (mattermost appConfig).
Proof.
  intros appConfig w botOpts t Htool. unfold generateBotOpts, makeBotOpts. rewrite Htool.
  destruct (messageApp_getApplication w) as [application|error];
    [|intros Hrun; discriminate Hrun].
  destruct (String.eqb (protocol (mattermost appConfig)) "https").
  - destruct (fs_existsSync host (tlsCertificate (mattermost appConfig)) w);
      [|intros Hrun; discriminate Hrun].
    destruct (fs_readFileSync (tlsCertificate (mattermost appConfig)) w) as [content|error'];
      [|intros Hrun; discriminate Hrun].
    intros [= <- _]. eexists. split; [reflexivity|]. cbn. auto.
  - intros [= <- _]. eexists. split; [reflexivity|]. cbn. auto.
Qed.

End GenerateBotOptsFacts.

(** ** The sign-in provider of the web interface *)

Section ChatAuthProviderFacts.
Import AuthApi.
Context {V : Type}.
Implicit Types callback : bool -> @Page V -> Outcome unit * @Page V.

(** X21.  The callback of [signin] is called once the request has settled;
    with [true] only when the request was fulfilled, and at that moment the
    provider says authenticated; with [false] when the request was rejected,
    and then the provider says not authenticated.  When the call with [true]
    raises, the callback is called a second time, with [false], and the
    provider is told not authenticated although the login was accepted. *)
Theorem signin_callback_calls :
  forall callback (settled : Outcome AxiosResponse) (pg : @Page V),
    let '(out, _, t) := signin_settled callback settled pg in
    match settled with
    | Thrown _ => callbackCalls t = [(Some false, false, out)]
    | Returned _ =>
        (is_thrown out = false /\ callbackCalls t = [(Some true, true, out)]) \/
        (exists error,
            fst (callback true (setAuthenticated true pg)) = Thrown error /\
            callbackCalls t
            = [(Some true, true, Thrown error); (Some false, false, out)])
    end.
Proof.
  intros callback settled pg. unfold signin_settled, onFulfilled, onRejected, invoke.
  destruct settled as [response|error].
  - cbn. destruct (callback true (setAuthenticated true pg)) as [[u|error] pg1]; cbn.
    + left. split; reflexivity.
    + destruct (callback false (setAuthenticated false pg1)) as [r pg2]; cbn.
      right. exists error. split; reflexivity.
  - cbn. destruct (callback false (setAuthenticated false pg)) as [r pg1]. reflexivity.
Qed.

(** X22.  With a callback that does not touch the flag of the provider,
    [chatAuthProvider.isAuthenticated] is true after the request has settled
    exactly when the request was fulfilled and the call of the callback with
    [true] returned; whatever the flag was before (a sign-out made while the
    request was under way is overridden). *)
Theorem signin_settled_authenticated :
  forall callback (settled : Outcome AxiosResponse) (pg : @Page V),
    keepsAuthenticated callback ->
    let '(_, pg', _) := signin_settled callback settled pg in
    chat_isAuthenticated pg' = true <->
    (is_thrown settled = false /\
     is_thrown (fst (callback true (setAuthenticated true pg))) = false).
Proof.
  intros callback settled pg Hkeeps.
  unfold signin_settled, onFulfilled, onRejected, invoke.
  destruct settled as [response|error].
  - pose proof (Hkeeps true (setAuthenticated true pg)) as H1.
    destruct (callback true (setAuthenticated true pg)) as [[u|error] pg1]; cbn in *.
    + rewrite H1. tauto.
    + pose proof (Hkeeps false (setAuthenticated false pg1)) as H2.
      destruct (callback false (setAuthenticated false pg1)) as [r pg2]; cbn in *.
      rewrite H2. split; [discriminate|]. intros [_ H]. discriminate H.
  - pose proof (Hkeeps false (setAuthenticated false pg)) as H2.
    destruct (callback false (setAuthenticated false pg)) as [r pg1]; cbn in *.
    rewrite H2. split; [discriminate|]. intros [H _]. discriminate H.
Qed.

(** X23.  [signout] clears the flag of the provider before it calls the
    callback, calls it exactly once, and ends as the callback ends; a
    sign-in request that is under way is not withdrawn: with callbacks that
    do not touch the flag, the provider is authenticated again once that
    request is fulfilled. *)
Theorem signout_then_late_response :
  forall callback (done : unit -> @Page V -> Outcome unit * @Page V)
         user password response (pg : @Page V),
    keepsAuthenticated callback ->
    keepsAuthenticated done ->
    is_thrown (fst (callback true (setAuthenticated true
                      (snd (done tt (setAuthenticated false pg)))))) = false ->
    let '(_, pg1, _) := signin user password pg in
    let '(out, pg2, t) := signout (done tt) pg1 in
    let '(_, pg3, _) := signin_settled callback (Returned response) pg2 in
    callbackCalls t = [(None, false, out)] /\
    out = fst (done tt (setAuthenticated false pg)) /\
    chat_isAuthenticated pg2 = false /\
    chat_isAuthenticated pg3 = true.
Proof.
  intros callback done user password response pg Hkeeps Hdone Hreturns.
  unfold signin, signout, signin_settled, onFulfilled, invoke.
  pose proof (Hdone tt (setAuthenticated false pg)) as H0.
  destruct (done tt (setAuthenticated false pg)) as [out pg2]. cbn in H0, Hreturns.
  pose proof (Hkeeps true (setAuthenticated true pg2)) as H1.
  destruct (callback true (setAuthenticated true pg2)) as [[u|error] pg3];
    [|discriminate Hreturns].
  cbn in H1 |- *. auto.
Qed.

End ChatAuthProviderFacts.
(** * The theorems at work on the sample chat server *)

Module Examples.
Import Scenario.

(** C1, as first stated, fails on a message that does not mention the bot:
    the Bravo listener would accept it, yet [matchMessage] returns false
    without asking. *)
Lemma unaddressed_message_is_not_matched :
  ~ match_iff_some_listener_accepts host (fst (served 2)) (message "alice" "help")
      (snd (served 2)).
Proof.
  intros [_ Hback].
  destruct Hback as [C' HC'].
  - vm_compute. apply Exists_cons_tl, Exists_cons_hd. eexists _, _. reflexivity.
  - vm_compute in HC'. discriminate HC'.
Qed.

(** An addressed message, matched by four of the six listeners. *)
Lemma matchMessage_addressed_matches_witness :
  let this := fst (served 2) in
  let s := snd (served 2) in
  let C := message "alice" "@zowe help" in
  let run := matchMessage host this C s in
  addressed this C = true /\
  payload_type (payload C) = PT_MESSAGE /\
  Forall (fun c => is_thrown (mc_res c) = false) (matchCalls (snd run)) /\
  List.map mc_listener (matchCalls (snd run)) = chatListeners this /\
  sublist (List.map fst (omap accepted (matchCalls (snd run)))) (chatListeners this).
Proof.
  intros this s C run.
  assert (Hrun : run = (fst (fst run), snd (fst run), snd run)) by (vm_compute; reflexivity).
  assert (H1 : addressed this C = true) by (vm_compute; reflexivity).
  assert (H2 : payload_type (payload C) = PT_MESSAGE) by reflexivity.
  assert (H3 : Forall (fun c => is_thrown (mc_res c) = false) (matchCalls (snd run)))
    by (vm_compute; repeat constructor).
  pose proof (proj2 (matchMessage_addressed_matches host this C s _ _ _ Hrun) H1 H2 H3)
    as H.
  destruct H as (Hall & _ & Hsub & _). auto.
Defined.

(** The listener registered last raises in [matchMessage]: the four matches
    made before it are gone. *)
Lemma matchMessage_raise_loses_matches_witness :
  let this := fst (withFaulty 2) in
  let s := snd (withFaulty 2) in
  let C := message "alice" "@zowe help" in
  let run := matchMessage host this C s in
  exists c,
    matchCalls (snd run) !! 6%nat = Some c /\
    mc_res c = Thrown (Error "matcher failed") /\
    length (omap accepted (matchCalls (snd run))) = 4%nat /\
    fst (fst run) = Returned (None, C) /\
    errorLogged (Error "matcher failed") (snd run) /\
    length (matchCalls (snd run)) = 7%nat.
Proof.
  intros this s C run.
  assert (Hrun : run = (fst (fst run), snd (fst run), snd run)) by (vm_compute; reflexivity).
  eexists. split; [vm_compute; reflexivity|]. split; [reflexivity|].
  split; [vm_compute; reflexivity|].
  eapply (matchMessage_raise_loses_matches host this C s _ _ _ 6%nat _ _ Hrun);
    [vm_compute; reflexivity | reflexivity].
Defined.

(** A limit of two with four matched listeners: the first two respond. *)
Lemma dispatch_respects_pluginLimit_witness :
  let this := fst (served 2) in
  let s := snd (served 2) in
  let C := matched 2 (message "alice" "@zowe help") in
  let t := snd (processMessage host this C s) in
  exists x matched contexts,
    extraData C = Some x /\
    extra_listeners x = Some matched /\
    extra_contexts x = Some contexts /\
    isAuthenticated host C s = true /\
    quiet t /\
    length matched = 4%nat /\
    List.map pc_listener (processCalls t)
    = take (Z.to_nat (Z.min 2 (Z.of_nat (length matched)))) matched.
Proof.
  intros this s C t.
  assert (Hrun : processMessage host this C s
                 = (fst (fst (processMessage host this C s)),
                    snd (fst (processMessage host this C s)), t))
    by (vm_compute; reflexivity).
  assert (Hauth : isAuthenticated host C s = true) by (vm_compute; reflexivity).
  assert (Hquiet : quiet t) by (vm_compute; repeat constructor).
  eassert (Hx : extraData C = Some _) by (vm_compute; reflexivity).
  match type of Hx with
  | _ = Some ?x =>
      eassert (Hls : extra_listeners x = Some _) by (vm_compute; reflexivity);
      eassert (Hcs : extra_contexts x = Some _) by (vm_compute; reflexivity)
  end.
  eexists _, _, _.
  split; [exact Hx|]. split; [exact Hls|]. split; [exact Hcs|].
  split; [exact Hauth|]. split; [exact Hquiet|]. split; [reflexivity|].
  refine (proj1 (proj2 (dispatch_respects_pluginLimit host this C s _ _ _ _ _ _ Hrun
                          Hx Hls Hcs) Hauth Hquiet) _).
  vm_compute. discriminate.
Defined.

(** Without a limit the third matched listener raises in [processMessage]:
    the fourth is not called. *)
Lemma dispatch_fail_stop_witness :
  let this := fst (served (-1)) in
  let s := snd (served (-1)) in
  let C := matched (-1) (message "alice" "@zowe help") in
  let run := processMessage host this C s in
  exists x matched c,
    extraData C = Some x /\
    extra_listeners x = Some matched /\
    length matched = 4%nat /\
    processCalls (snd run) !! 2%nat = Some c /\
    pc_res c = Thrown (Error "handler failed") /\
    matched !! 2%nat = Some (pc_listener c) /\
    2 < effectiveLimit (pluginLimit (config this)) (length matched) /\
    length (processCalls (snd run)) = 3%nat /\
    errorLogged (Error "handler failed") (snd run) /\
    fst (fst run) = Returned tt.
Proof.
  intros this s C run.
  assert (Hrun : run = (fst (fst run), snd (fst run), snd run)) by (vm_compute; reflexivity).
  eexists _, _, _.
  split; [vm_compute; reflexivity|].
  split; [vm_compute; reflexivity|].
  split; [reflexivity|].
  split; [vm_compute; reflexivity|].
  split; [reflexivity|].
  eapply (dispatch_fail_stop host this C s _ _ _ _ _ 2%nat _ _ Hrun);
    [vm_compute; reflexivity | reflexivity | vm_compute; reflexivity | left; reflexivity].
Defined.

(** C3, as first stated, fails on every dispatched context: the prompt is
    addressed to the first matched listener's clone, which carries that
    listener's plugin and not the pools of the inbound context. *)
Lemma login_prompt_goes_to_first_clone :
  ~ login_prompt_to_inbound_context host (fst (served 2))
      (matched 2 (message "mallory" "@zowe help")) (snd (served 2)).
Proof.
  intros H. destruct H as (_ & url & out & Hsend); [vm_compute; reflexivity|].
  apply (f_equal (fun l => match l with
                           | [c] => sc_target c ≫= stampedPlugin
                           | _ => None
                           end)) in Hsend.
  vm_compute in Hsend. discriminate Hsend.
Qed.

(** A sender who is not logged in gets the login prompt and nothing else. *)
Lemma unauthenticated_gets_login_prompt_witness :
  let this := fst (served 2) in
  let s := snd (served 2) in
  let C := matched 2 (message "mallory" "@zowe help") in
  let run := processMessage host this C s in
  exists x first others,
    isAuthenticated host C s = false /\
    extraData C = Some x /\
    extra_contexts x = Some (first :: others) /\
    stampedPlugin first = Some (Shared 2%nat) /\
    processCalls (snd run) = [] /\
    first <> C /\
    exists url,
      In (CallGenerateChallenge (chatting_user (chatting (context C))) url) (snd run) /\
      sendCalls (snd run)
      = [mkSendCall (Some first) [loginPrompt (chatting_user (chatting (context C))) url]
                    (fst (fst run))] /\
      msg_type (loginPrompt (chatting_user (chatting (context C))) url) = PLAIN_TEXT.
Proof.
  intros this s C run.
  assert (Hrun : run = (fst (fst run), snd (fst run), snd run)) by (vm_compute; reflexivity).
  assert (Hauth : isAuthenticated host C s = false) by (vm_compute; reflexivity).
  eexists _, _, _.
  split; [exact Hauth|].
  split; [vm_compute; reflexivity|].
  split; [vm_compute; reflexivity|].
  split; [vm_compute; reflexivity|].
  eapply (unauthenticated_gets_login_prompt host this C s _ _ _ _ _ _ Hrun Hauth);
    [vm_compute; reflexivity | reflexivity].
Defined.

(** C7, as first stated, fails wherever there is no plugin.yaml: the load
    pass returns normally. *)
Lemma missing_manifest_is_not_fatal :
  ~ missing_manifest_raises host (fresh 2 bare).
Proof.
  intros H. destruct H as (e & He); [reflexivity | reflexivity |].
  vm_compute in He. discriminate He.
Qed.

(** No plugin.yaml: the bot is as it was. *)
Lemma loadPlugins_without_manifest_witness :
  let p := fresh 2 bare in
  fs_existsSync host (homeManifest host (pluginHome (self p))) (world (sys p)) = false /\
  fs_existsSync host (builtinManifest host) (world (sys p)) = false /\
  loadPlugins host p = (Returned tt, p, skipLoadingTrace host (pluginHome (self p))).
Proof.
  intros p.
  assert (H1 : fs_existsSync host (homeManifest host (pluginHome (self p)))
                 (world (sys p)) = false) by reflexivity.
  assert (H2 : fs_existsSync host (builtinManifest host) (world (sys p)) = false)
    by reflexivity.
  split; [exact H1|]. split; [exact H2|].
  exact (loadPlugins_without_manifest host p H1 H2).
Defined.

(** C8, as first stated, fails at once: a listener registered after a match
    pass is in the registry. *)
Lemma registration_after_match_extends_registry :
  ~ registry_closed_by_first_match host (fst (served 2)) (snd (served 2)).
Proof.
  intros H. specialize (H [] (message "alice" "@zowe help") [] faultyEntry).
  apply (f_equal length) in H. vm_compute in H. discriminate H.
Qed.

(** The registry of the sample server after a match pass and a late
    registration. *)
Example registry_append_only_example :
  List.map listenerName
    (chatListeners
       (fst (fst (run_ops host [OpMatch (message "alice" "@zowe help");
                                OpRegister faultyEntry] (served 2)))))
  = ["LogoutListener"; "BravoMessageListener"; "SilentMessageListener";
     "DeltaMessageListener"; "CrashMessageListener"; "CharlieMessageListener";
     "FaultyMessageListener"].
Proof. vm_compute. reflexivity. Qed.



(** The sample server has started, with the LogoutListener first. *)
Lemma logout_listener_first_witness :
  exists bot s1 t1,
    ChatBot_new host (chatConfig 2) (boot installed) = (Running bot, s1, t1) /\
    chatListeners (botMessageListener bot) !! 0%nat = Some (logoutEntry 0%nat) /\
    deref (store s1) (chatPlugin (logoutEntry 0%nat)) = logoutPlugin.
Proof.
  eexists _, _, _. split; [vm_compute; reflexivity|].
  match goal with
  | |- chatListeners (botMessageListener ?bot) !! _ = _ /\ deref (store ?s1) _ = _ =>
      pose proof (logout_listener_first host (chatConfig 2) (boot installed) bot s1 _
                    ltac:(vm_compute; reflexivity)) as H
  end.
  destruct H as (_ & _ & H). specialize (H []). cbn [run_ops] in H.
  destruct H as (H1 & H2 & _). split; [exact H1 | exact H2].
Defined.

(** The four plugins of the sample manifest have priorities 3, 1, 4, 1: the
    plugins bravo and delta are taken first, then alpha, then charlie, and
    the message listeners of bravo, delta, alpha and charlie are registered
    in this order.  With the tidy manifest no error is logged, and every
    message listener of the four plugins is registered, as is the one event
    listener, which is of charlie. *)
Lemma loadPlugins_registers_by_priority_witness :
  let p := fresh 2 installed in
  let p' := snd (fst (loadPlugins host p)) in
  let q := fresh 2 tidy in
  let q' := snd (fst (loadPlugins host q)) in
  List.map priority manifest = [3; 1; 4; 1] /\
  sortByPriority (store (sys p')) (seq 0 4) = [1; 3; 0; 2]%nat /\
  List.map listenerName (chatListeners (botMessageListener (self p')))
  = ["BravoMessageListener"; "SilentMessageListener"; "DeltaMessageListener";
     "CrashMessageListener"; "CharlieMessageListener"] /\
  noErrorLogged (snd (loadPlugins host q)) /\
  List.map signature (chatListeners (botMessageListener (self q')))
  = [("BravoMessageListener", Shared 1%nat); ("SilentMessageListener", Shared 1%nat);
     ("DeltaMessageListener", Shared 3%nat); ("CrashMessageListener", Shared 0%nat);
     ("CharlieMessageListener", Shared 2%nat)] /\
  eventListeners (botEventListener (self q'))
  = [eventEntry "/opt/chat/plugins/charlie" 2%nat "CharlieEventListener"].
Proof.
  intros p p' q q'. split; [reflexivity|].
  split; [|split; [vm_compute; reflexivity|]].
  - pose proof (loadPlugins_registers_by_priority host p) as H.
    assert (Hrun : loadPlugins host p = (Returned tt, p', snd (loadPlugins host p)))
      by (vm_compute; reflexivity).
    rewrite Hrun in H.
    destruct H as (_ & m & new & refs & newE & refsE & Hloaded & _ & _ & _ & _ & H).
    cbv zeta in H. destruct H as (_ & _ & _ & _ & _ & _ & H & _).
    destruct Hloaded as (_ & _ & _ & _ & _ & Hstore).
    vm_compute in Hstore. subst m. exact (H eq_refl).
  - assert (Hclean : noErrorLogged (snd (loadPlugins host q)))
      by (vm_compute; repeat constructor).
    split; [exact Hclean|].
    pose proof (loadPlugins_registers_by_priority host q) as H.
    assert (Hrun : loadPlugins host q = (Returned tt, q', snd (loadPlugins host q)))
      by (vm_compute; reflexivity).
    rewrite Hrun in H.
    destruct H as (_ & m & new & refs & newE & refsE & Hloaded & _ & HnewE & _ & _ & H).
    cbv zeta in H. destruct H as (_ & _ & _ & _ & _ & _ & _ & H).
    destruct (H Hclean) as (Hsig & Hevents & _).
    destruct Hloaded as (Hnew & _ & _ & _ & _ & Hstore).
    vm_compute in Hstore. subst m.
    change (chatListeners (botMessageListener (self (fresh 2 tidy)))) with
      (@nil IChatListenerRegistryEntry) in Hnew.
    unfold registeredEvents in HnewE.
    change (eventListeners (botEventListener (self (fresh 2 tidy)))) with
      (@nil IChatListenerRegistryEntry) in HnewE.
    split.
    + rewrite Hnew, app_nil_l, Hsig. vm_compute. reflexivity.
    + rewrite HnewE, app_nil_l, Hevents. vm_compute. reflexivity.
Defined.

End Examples.
(** * The further properties at work on the sample chat server *)

Module MoreExamples.
Import Scenario Fixtures.

(** An event addressed to the bot is turned down without asking anybody. *)
Lemma matchMessage_wrong_payload_type_witness :
  let this := fst (served 2) in
  let s := snd (served 2) in
  addressed this buttonClick = true /\
  payload_type (payload buttonClick) <> PT_MESSAGE /\
  fst (fst (matchMessage host this buttonClick s))
  = Returned (Some false, setPools buttonClick [] []) /\
  matchCalls (snd (matchMessage host this buttonClick s)) = [].
Proof.
  intros this s.
  assert (H1 : addressed this buttonClick = true) by (vm_compute; reflexivity).
  assert (H2 : payload_type (payload buttonClick) <> PT_MESSAGE) by discriminate.
  pose proof (matchMessage_wrong_payload_type host this buttonClick s H1 H2) as H.
  destruct (matchMessage host this buttonClick s) as [[out s'] t].
  destruct H as (Hout & _ & Hcalls & _). auto.
Defined.

(** A message that four listeners accept. *)
Lemma matchMessage_true_only_if_witness :
  let this := fst (served 2) in
  let s := snd (served 2) in
  let C := message "alice" "@zowe help" in
  exists C' s' t x listeners,
    matchMessage host this C s = (Returned (Some true, C'), s', t) /\
    extraData C' = Some x /\
    extra_listeners x = Some listeners /\
    sublist listeners (chatListeners this).
Proof.
  intros this s C.
  eassert (Hrun : matchMessage host this C s = (Returned (Some true, _), _, _))
    by (vm_compute; reflexivity).
  destruct (matchMessage_true_only_if host this C s _ _ _ Hrun)
    as (_ & _ & _ & x & ls & cs & Hx & Hls & _ & _ & _ & _ & _ & Hsub).
  eexists _, _, _, x, ls. split; [exact Hrun|]. auto.
Defined.

(** A dispatch for alice, who is logged in. *)
Lemma processMessage_authenticated_never_raises_witness :
  let this := fst (served 2) in
  let s := snd (served 2) in
  let C := matched 2 (message "alice" "@zowe help") in
  isAuthenticated host C s = true /\
  fst (fst (processMessage host this C s)) = Returned tt.
Proof.
  intros this s C.
  assert (Hauth : isAuthenticated host C s = true) by (vm_compute; reflexivity).
  split; [exact Hauth|].
  pose proof (processMessage_authenticated_never_raises host this C s Hauth) as H.
  destruct (processMessage host this C s) as [[out s'] t].
  destruct H as (Hout & _). exact Hout.
Defined.

(** A context fresh from the transport, from a sender who is not logged in. *)
Lemma processMessage_without_pools_witness :
  let this := fst (served 2) in
  let s := snd (served 2) in
  let C := message "mallory" "@zowe help" in
  contextPool C = None /\
  isAuthenticated host C s = false /\
  sendCalls (snd (processMessage host this C s)) = [] /\
  exists msg, fst (fst (processMessage host this C s)) = Thrown (TypeError msg).
Proof.
  intros this s C.
  assert (Hpool : contextPool C = None) by reflexivity.
  assert (Hauth : isAuthenticated host C s = false) by (vm_compute; reflexivity).
  split; [exact Hpool|]. split; [exact Hauth|].
  pose proof (processMessage_without_pools host this C s Hpool) as H.
  rewrite Hauth in H.
  destruct (processMessage host this C s) as [[out s'] t].
  destruct H as (_ & Hsend & Hout & _). auto.
Defined.

(** The security manager finds no principal for alice. *)
Lemma processMessage_principal_failure_witness :
  let this := fst (served 2) in
  let s := snd (served 2) in
  let C := matched 2 (message "alice" "@zowe help") in
  isAuthenticated strictHost C s = true /\
  processCalls (snd (processMessage strictHost this C s)) = [] /\
  errorLogged (Error "no principal") (snd (processMessage strictHost this C s)).
Proof.
  intros this s C.
  assert (Hauth : isAuthenticated strictHost C s = true) by (vm_compute; reflexivity).
  split; [exact Hauth|].
  pose proof (processMessage_principal_failure strictHost this C s (Error "no principal")
                Hauth ltac:(vm_compute; reflexivity)) as H.
  destruct (processMessage strictHost this C s) as [[out s'] t].
  destruct H as (_ & Hp & _ & Hlog). auto.
Defined.

(** Two listeners answer alice, each reply sent before the next listener is
    called. *)
Lemma replies_follow_their_listeners_witness :
  let this := fst (served 2) in
  let s := snd (served 2) in
  let C := matched 2 (message "alice" "@zowe help") in
  let t := snd (processMessage host this C s) in
  isAuthenticated host C s = true /\
  length (processCalls t) = 2%nat /\
  dispatchCalls t = alternate (processCalls t) (sendCalls t).
Proof.
  intros this s C t.
  assert (Hauth : isAuthenticated host C s = true) by (vm_compute; reflexivity).
  split; [exact Hauth|]. split; [vm_compute; reflexivity|].
  pose proof (replies_follow_their_listeners host this C s Hauth) as H.
  subst t. destruct (processMessage host this C s) as [[out s'] t].
  destruct H as (Halt & _). exact Halt.
Defined.

(** mallory, not logged in, writes something that nobody matches. *)
Lemma login_prompt_without_target_witness :
  let this := fst (served 2) in
  let s := snd (served 2) in
  let C := unmatched "mallory" in
  isAuthenticated host C s = false /\
  exists url,
    List.map sc_target (sendCalls (snd (processMessage host this C s))) = [None] /\
    List.map sc_msgs (sendCalls (snd (processMessage host this C s)))
    = [[loginPrompt (chatting_user (chatting (context C))) url]].
Proof.
  intros this s C.
  assert (Hauth : isAuthenticated host C s = false) by (vm_compute; reflexivity).
  split; [exact Hauth|].
  pose proof (login_prompt_without_target host this C s _ Hauth eq_refl eq_refl) as H.
  destruct (processMessage host this C s) as [[out s'] t].
  destruct H as (_ & url & Hsend). exists url. cbn [snd]. rewrite Hsend. split; reflexivity.
Defined.

(** The first listener that processes the message of alice is Bravo, on the
    clone it accepted. *)
Lemma matched_listeners_process_their_clones_witness :
  let this := fst (served 2) in
  let s := snd (served 2) in
  let C := message "alice" "@zowe help" in
  exists C' s1 t1 out s2 t2 pc contextData,
    matchMessage host this C s = (Returned (Some true, C'), s1, t1) /\
    processMessage host this C' s1 = (out, s2, t2) /\
    processCalls t2 !! 0%nat = Some pc /\
    listenerName (pc_listener pc) = "BravoMessageListener" /\
    pc_arg pc = Some contextData /\
    contextData <> C'.
Proof.
  intros this s C.
  eassert (Hmatch : matchMessage host this C s = (Returned (Some true, _), _, _))
    by (vm_compute; reflexivity).
  match type of Hmatch with
  | _ = (Returned (Some true, ?C'), ?s1, _) =>
      eassert (Hrun : processMessage host this C' s1 = (_, _, _))
        by (vm_compute; reflexivity)
  end.
  match type of Hrun with
  | _ = (_, _, ?t2) =>
      eassert (Hpc : processCalls t2 !! 0%nat = Some _) by (vm_compute; reflexivity)
  end.
  destruct (matched_listeners_process_their_clones host this C s _ _ _ _ _ _
              Hmatch Hrun _ _ Hpc) as (c & _ & Harg & Hne).
  eexists _, _, _, _, _, _, _, c.
  split; [exact Hmatch|]. split; [exact Hrun|]. split; [exact Hpc|].
  split; [reflexivity|]. split; [exact Harg | exact Hne].
Defined.


(** With charlie not installed, the load pass records bravo, delta and
    alpha, and says that it skipped charlie. *)
Lemma loadPlugins_accounts_for_every_plugin_witness :
  let p := fresh 2 partly in
  let p' := snd (fst (loadPlugins host p)) in
  let t := snd (loadPlugins host p) in
  (forall e, ~ errorLogged e t) /\
  plugins (self p') = [1; 3; 0]%nat /\
  skipLogged t "charlie".
Proof.
  intros p p' t.
  assert (Hnone : forall e, ~ errorLogged e t).
  { intros e He. unfold errorLogged in He. vm_compute in He.
    repeat (destruct He as [He|He]; [discriminate He|]). exact He. }
  split; [exact Hnone|]. split; [vm_compute; reflexivity|].
  assert (Hrun : loadPlugins host p = (Returned tt, p', t)) by (vm_compute; reflexivity).
  destruct (loadPlugins_accounts_for_every_plugin host p _ _ _ Hrun Hnone)
    as (m & new & refs & Hloaded & Hpl & H).
  cbv zeta in H. destruct H as (_ & Hall).
  destruct Hloaded as (_ & _ & _ & _ & _ & Hstore).
  vm_compute in Hstore. subst m.
  assert (Hrefs : refs = [1; 3; 0]%nat) by (vm_compute in Hpl; symmetry; exact Hpl).
  destruct (Hall 2%nat) as [Hin|Hskip].
  - vm_compute. apply list_elem_of_further, list_elem_of_further, list_elem_of_further,
      list_elem_of_here.
  - exfalso. rewrite Hrefs in Hin.
    repeat (apply elem_of_cons in Hin; destruct Hin as [Hin|Hin]; [discriminate Hin|]).
    inversion Hin.
  - exact Hskip.
Defined.

(** plugin.yaml is empty: nothing is loaded, the bot is as it was, and a
    TypeError is logged. *)
Lemma loadPlugins_unreadable_manifest_witness :
  let p := fresh 2 broken in
  locatedManifest host p = Some "/opt/chat/plugins/plugin.yaml" /\
  fst (loadPlugins host p) = (Returned tt, p) /\
  exists text, errorLogged (TypeError text) (snd (loadPlugins host p)).
Proof.
  intros p.
  assert (Hlocated : locatedManifest host p = Some "/opt/chat/plugins/plugin.yaml")
    by (vm_compute; reflexivity).
  split; [exact Hlocated|].
  destruct (loadPlugins_unreadable_manifest host p _ Hlocated) as (e & t & Hrun & Hlog & He).
  { intros l Hl. vm_compute in Hl. discriminate Hl. }
  rewrite Hrun. split; [reflexivity|].
  change (yaml_load host "/opt/chat/plugins/plugin.yaml" (world (sys p)))
    with (@Returned YamlValue YamlUndefined) in He.
  cbv beta iota in He. destruct He as (text & ->). exists text. exact Hlog.
Defined.

(** The scoped package of delta is installed under the plugin home like any
    other. *)
Lemma pluginPath_on_posix_witness :
  path_sep host = "/" /\
  pluginPathOf host "/opt/chat/plugins" "@zowe/delta" = "/opt/chat/plugins/@zowe/delta".
Proof.
  split; [reflexivity|].
  exact (pluginPath_on_posix host eq_refl "/opt/chat/plugins" "@zowe/delta").
Defined.

(** The sample server once started: LogoutListener, then the listeners of
    bravo, delta, alpha and charlie. *)
Lemma started_bot_registry_witness :
  exists bot s1 t,
    ChatBot_new host (chatConfig 2) (boot installed) = (Running bot, s1, t) /\
    plugins bot = [2; 4; 1; 3]%nat /\
    StronglySorted (byPriorityThenManifest (store s1)) (plugins bot) /\
    botName (botMessageListener bot) = "zowe".
Proof.
  eexists _, _, _. split; [vm_compute; reflexivity|].
  split; [reflexivity|].
  match goal with
  | |- StronglySorted _ (plugins ?bot) /\ _ =>
      destruct (started_bot_registry host (chatConfig 2) (boot installed) bot _ _
                  ltac:(vm_compute; reflexivity))
        as (manifest & partial & _ & H)
  end.
  cbv zeta in H. destruct H as (_ & Hsorted & _ & _ & Hname & _).
  split; [exact Hsorted | exact Hname].
Defined.

(** Slack with the socket mode and the HTTP endpoint both off: the options
    are those of the socket mode. *)
Lemma generateBotOpts_slack_mode_witness :
  let appConfig := botConfig SLACK "https" false false in
  exists botOpts t option,
    BotOpts.generateBotOpts host readFileSync getApplication appConfig installed
    = (BotOpts.Finished botOpts, t) /\
    BotOpts.toolOption botOpts = BotOpts.OptSlack option /\
    BotOpts.socketMode option = true /\
    BotOpts.appToken option = Some "xapp".
Proof.
  intros appConfig.
  eassert (Hrun : BotOpts.generateBotOpts host readFileSync getApplication appConfig
                    installed = (BotOpts.Finished _, _)) by (vm_compute; reflexivity).
  destruct (generateBotOpts_slack_mode host readFileSync getApplication appConfig installed
              _ _ eq_refl Hrun) as (option & Hopt & Hmode & Hfields & _).
  eexists _, _, option. split; [exact Hrun|]. split; [exact Hopt|].
  destruct (BotOpts.socketMode option) eqn:Hsocket.
  - split; [reflexivity|]. apply Hfields.
  - exfalso. destruct (proj1 Hmode eq_refl) as [_ Habs]. discriminate Habs.
Defined.

(** Mattermost over https: the options carry the content of the certificate
    file. *)
Lemma generateBotOpts_mattermost_certificate_witness :
  let appConfig := botConfig MATTERMOST "https" true false in
  exists botOpts t option,
    BotOpts.generateBotOpts host readFileSync getApplication appConfig installed
    = (BotOpts.Finished botOpts, t) /\
    BotOpts.toolOption botOpts = BotOpts.OptMattermost option /\
    BotOpts.tlsCertificate option = "content of /opt/chat/plugins/plugin.yaml".
Proof.
  intros appConfig.
  eassert (Hrun : BotOpts.generateBotOpts host readFileSync getApplication appConfig
                    installed = (BotOpts.Finished _, _)) by (vm_compute; reflexivity).
  destruct (generateBotOpts_mattermost_certificate host readFileSync getApplication
              appConfig installed _ _ eq_refl Hrun) as (option & Hopt & _ & _ & Hcert).
  eexists _, _, option. split; [exact Hrun|]. split; [exact Hopt|].
  change (String.eqb (BotOpts.protocol (BotOpts.mattermost appConfig)) "https")
    with true in Hcert.
  destruct Hcert as (_ & Hread). vm_compute in Hread. injection Hread as Hread.
  symmetry. exact Hread.
Defined.

(** A login that the server accepts, on a page that was signed out. *)
Lemma signin_settled_authenticated_witness :
  let pg := AuthApi.mkPage false [] in
  keepsAuthenticated notes /\
  AuthApi.chat_isAuthenticated
    (snd (fst (AuthApi.signin_settled notes (Returned (AuthApi.mkResponse 200 "ok")) pg)))
  = true.
Proof.
  intros pg.
  assert (Hkeeps : keepsAuthenticated notes) by (intros a q; reflexivity).
  split; [exact Hkeeps|].
  pose proof (signin_settled_authenticated notes (Returned (AuthApi.mkResponse 200 "ok"))
                pg Hkeeps) as H.
  destruct (AuthApi.signin_settled notes (Returned (AuthApi.mkResponse 200 "ok")) pg)
    as [[out pg'] t].
  apply H. split; reflexivity.
Defined.

(** Signing out while the login request is under way. *)
Lemma signout_then_late_response_witness :
  let pg := AuthApi.mkPage true [] in
  let pg2 := snd (fst (AuthApi.signout (leaves tt) pg)) in
  keepsAuthenticated notes /\
  keepsAuthenticated leaves /\
  AuthApi.chat_isAuthenticated pg2 = false /\
  AuthApi.chat_isAuthenticated
    (snd (fst (AuthApi.signin_settled notes (Returned (AuthApi.mkResponse 200 "ok")) pg2)))
  = true.
Proof.
  intros pg pg2.
  assert (Hnotes : keepsAuthenticated notes) by (intros a q; reflexivity).
  assert (Hleaves : keepsAuthenticated leaves) by (intros a q; reflexivity).
  split; [exact Hnotes|]. split; [exact Hleaves|].
  pose proof (signout_then_late_response notes leaves "alice" "secret"
                (AuthApi.mkResponse 200 "ok") pg Hnotes Hleaves eq_refl) as H.
  cbv beta iota zeta delta [AuthApi.signin] in H.
  subst pg2.
  destruct (AuthApi.signout (leaves tt) pg) as [[out q2] t]. cbn [fst snd].
  destruct (AuthApi.signin_settled notes (Returned (AuthApi.mkResponse 200 "ok")) q2)
    as [[r q3] t3].
  destruct H as (_ & _ & H2 & H3). split; [exact H2 | exact H3].
Defined.

End MoreExamples.
